(** * GraphQL page analyzer: a shallow embedding and its verified properties

    The development follows the pipeline of the analyzer: the file scanner
    ([findGraphQLFiles]), the grouper ([groupFilesByPagesFolder]), the remote
    analysis client ([generateContent], [analyzePageGraphQL]) and the
    orchestration loop ([analyzeGroupedFiles], [main]); the page-inventory
    variant of the client and of the loop is embedded in the module [Pages].

    JavaScript strings are modelled as [string] (a string is its bytes),
    arrays as [list], the insertion-ordered [Map] as an association list, a
    plain object as the list of its properties in enumeration order, and
    promises as computations in a state-and-exception monad whose state is
    the trace of the effects performed so far.  What the analyzer takes from
    its host without containing it is a parameter: the engine ([JSON.parse]
    and the conversions of numbers) and the world (file system, remote
    service, clock, environment).  The writing of the output file is recorded
    as an effect of the run. *)

From Stdlib Require Import String Ascii List ZArith NArith Lia Bool Arith.
From Stdlib Require Import Permutation Sorted DecimalString.
Import ListNotations.

Open Scope string_scope.
Open Scope list_scope.

Set Warnings "-register-all".

(** ** String primitives of the host language *)

Module JsString.

(** The line feed, written [\n] in the source. *)
Definition nl : string := String "010"%char EmptyString.

(** The double quote. *)
Definition dq : string := String "034"%char EmptyString.

(** [startsWith pat s]: [s.startsWith(pat)]. *)
Fixpoint startsWith (pat s : string) : bool :=
  match pat, s with
  | EmptyString, _ => true
  | String a pat', String b s' => Ascii.eqb a b && startsWith pat' s'
  | String _ _, EmptyString => false
  end.

(** [drop n s]: [s.slice(n)]. *)
Fixpoint drop (n : nat) (s : string) : string :=
  match n, s with
  | O, _ => s
  | S n', String _ s' => drop n' s'
  | S _, EmptyString => EmptyString
  end.

(** [includes needle s]: [s.includes(needle)], a match tried at every
    start position from the left. *)
Fixpoint includes (needle s : string) : bool :=
  startsWith needle s ||
  match s with
  | EmptyString => false
  | String _ s' => includes needle s'
  end.

(** [endsWith pat s]: the test [/pat$/.test(s)] for a literal [pat]; the
    pattern is tried at every start position and [$] only holds at the end
    of the input (the patterns of the source carry no flag). *)
Fixpoint endsWith (pat s : string) : bool :=
  String.eqb s pat ||
  match s with
  | EmptyString => false
  | String _ s' => endsWith pat s'
  end.

(** [replace_leading pat s]: [s.replace(/^pat/, '')] for a literal [pat]:
    [^] only holds at position 0, and one match at most is replaced. *)
Definition replace_leading (pat s : string) : string :=
  if startsWith pat s then drop (String.length pat) s else s.

(** [replace_trailing pat s]: [s.replace(/pat$/, '')] for a literal [pat]:
    the first start position from which [pat] reaches the end of the input
    is cut off there. *)
Fixpoint replace_trailing (pat s : string) : string :=
  if String.eqb s pat then EmptyString
  else match s with
       | EmptyString => EmptyString
       | String c s' => String c (replace_trailing pat s')
       end.

(** [split_on sep s]: [s.split(sep)] for a one-character separator; the
    result always has at least one element. *)
Fixpoint split_on (sep : ascii) (s : string) : list string :=
  match s with
  | EmptyString => [EmptyString]
  | String c s' =>
      if Ascii.eqb c sep then EmptyString :: split_on sep s'
      else match split_on sep s' with
           | [] => [String c EmptyString]
           | seg :: segs => String c seg :: segs
           end
  end.

(** [join sep xs]: [xs.join(sep)]. *)
Fixpoint join (sep : string) (xs : list string) : string :=
  match xs with
  | [] => EmptyString
  | [x] => x
  | x :: rest => x ++ sep ++ join sep rest
  end.

(** Writing aid for JSON texts: every apostrophe stands for a double
    quote. *)
Fixpoint quoted (s : string) : string :=
  match s with
  | EmptyString => EmptyString
  | String c s' =>
      String (if Ascii.eqb c "'"%char then "034"%char else c) (quoted s')
  end.

End JsString.

Import JsString.

(** ** The fence stripping of the reply post-processing *)

(** The opening fence line and the closing fence line. *)
Definition fence_open : string := "```json" ++ nl.
Definition fence_close : string := nl ++ "```".

(** [cleanResponse text] is
    [text.replace(/^```json\n/, '').replace(/\n```$/, '')]. *)
Definition cleanResponse (text : string) : string :=
  replace_trailing fence_close (replace_leading fence_open text).

(** A reply wrapped in the two fence lines. *)
Definition fenced (j : string) : string := fence_open ++ j ++ fence_close.

(** ** Values, errors and results of the host language *)

Module Js.

(** The values [JSON.parse] produces.  A number keeps the literal that
    denotes it; an object keeps its properties in enumeration order. *)
Inductive JValue : Type :=
| JNull
| JBool (b : bool)
| JNum (literal : string)
| JStr (s : string)
| JArr (items : list JValue)
| JObj (fields : list (string * JValue)).

(** The values the analyzer meets: [undefined], a length computed by the
    engine, or a value that came out of [JSON.parse]. *)
Inductive JsVal : Type :=
| Undefined
| Len (n : nat)
| Json (v : JValue).

(** The errors that can be thrown.  [ApiError] is the [Error] built by
    [generateContent]; the others are raised by the engine or the host. *)
Inductive JsError : Type :=
| ApiError (statusText : string)
| SyntaxError (msg : string)
| TypeError (msg : string)
| SystemError (msg : string).

(** [error.message]. *)
Definition message (e : JsError) : string :=
  match e with
  | ApiError statusText => "API call failed: " ++ statusText
  | SyntaxError msg | TypeError msg | SystemError msg => msg
  end.

(** The outcome of an evaluation: a value or a thrown error. *)
Inductive Res (A : Type) : Type :=
| Ok (a : A)
| Throw (e : JsError).
Arguments Ok {A} a.
Arguments Throw {A} e.

Definition res_bind {A B : Type} (r : Res A) (f : A -> Res B) : Res B :=
  match r with
  | Ok a => f a
  | Throw e => Throw e
  end.

(** The property names the analyzer reads.  None of them is defined by a
    built-in prototype, so a read finds an own property or [undefined]. *)
Inductive Key : Type :=
| k_queries | k_mutations | k_name | k_choices | k_message | k_content
| k_path | k_component | k_description.

Definition key_name (k : Key) : string :=
  match k with
  | k_queries => "queries"
  | k_mutations => "mutations"
  | k_name => "name"
  | k_choices => "choices"
  | k_message => "message"
  | k_content => "content"
  | k_path => "path"
  | k_component => "component"
  | k_description => "description"
  end.

(** The own property [k] of an object, if any. *)
Fixpoint own (k : string) (fields : list (string * JValue)) : option JValue :=
  match fields with
  | [] => None
  | (k', v) :: rest => if String.eqb k' k then Some v else own k rest
  end.

Definition of_own (o : option JValue) : JsVal :=
  match o with
  | Some v => Json v
  | None => Undefined
  end.

(** The wording of the engine for a read through [undefined] or [null]. *)
Definition cannot_read (base prop : string) : JsError :=
  TypeError ("Cannot read properties of " ++ base ++
             " (reading '" ++ prop ++ "')").

Definition not_a_function (what : string) : JsError :=
  TypeError (what ++ " is not a function").

(** [v.k] for one of the property names above. *)
Definition get (v : JsVal) (k : Key) : Res JsVal :=
  match v with
  | Undefined => Throw (cannot_read "undefined" (key_name k))
  | Json JNull => Throw (cannot_read "null" (key_name k))
  | Json (JObj fields) => Ok (of_own (own (key_name k) fields))
  | Json (JBool _) | Json (JNum _) | Json (JStr _) | Json (JArr _)
  | Len _ => Ok Undefined
  end.

(** [v.length]: strings and arrays have one of their own, a plain object
    has one only as an own property, numbers and booleans have none. *)
Definition length_of (v : JsVal) : Res JsVal :=
  match v with
  | Undefined => Throw (cannot_read "undefined" "length")
  | Json JNull => Throw (cannot_read "null" "length")
  | Json (JStr s) => Ok (Len (String.length s))
  | Json (JArr items) => Ok (Len (List.length items))
  | Json (JObj fields) => Ok (of_own (own "length" fields))
  | Json (JBool _) | Json (JNum _) | Len _ => Ok Undefined
  end.

(** [v[0]]. *)
Definition first_of (v : JsVal) : Res JsVal :=
  match v with
  | Undefined => Throw (cannot_read "undefined" "0")
  | Json JNull => Throw (cannot_read "null" "0")
  | Json (JStr s) =>
      Ok (match s with
          | EmptyString => Undefined
          | String c _ => Json (JStr (String c EmptyString))
          end)
  | Json (JArr items) =>
      Ok (match items with
          | [] => Undefined
          | x :: _ => Json x
          end)
  | Json (JObj fields) => Ok (of_own (own "0" fields))
  | Json (JBool _) | Json (JNum _) | Len _ => Ok Undefined
  end.

(** The record the analysis of one item returns: the success shape
    [{page, analysis, queryCount, mutationCount}] or the error shape
    [{page, error}]. *)
Inductive AnalysisResult : Type :=
| Analysed (page : JsVal) (analysis : JValue) (queryCount mutationCount : JsVal)
| Failed (page : JsVal) (error : string).

(** The engine and its standard library, as far as the analyzer relies on
    them without containing them. *)
Class Engine : Type := {
  (** [JSON.parse]: the value of a JSON text, or the error thrown. *)
  JSON_parse : string -> Res JValue;
  (** The decimal text of the number a literal denotes. *)
  number_text : string -> string;
  (** [v > 0] for a parsed value [v] that is a number, a string, an array
      or an object. *)
  json_gt_zero : JValue -> Res bool;
  (** Whether two literals denote the same number. *)
  same_number : string -> string -> bool;
  (** [JSON.stringify(results, null, 2)]. *)
  JSON_stringify : list AnalysisResult -> string
}.

(** The texts of the elements of an array, given the text of a value:
    a [null] element renders as the empty text. *)
Section ElementTexts.
Variable text_of : JValue -> Res string.

Fixpoint elementTexts (items : list JValue) : Res (list string) :=
  match items with
  | [] => Ok []
  | x :: rest =>
      res_bind (match x with
                | JNull => Ok EmptyString
                | _ => text_of x
                end)
        (fun t => res_bind (elementTexts rest) (fun ts => Ok (t :: ts)))
  end.
End ElementTexts.

Section WithEngine.
Context {engine : Engine}.

(** The text a template literal renders for a parsed value.  An array
    renders its elements separated by commas; an object renders as
    [[object Object]] unless it carries an own [toString] property, which
    no parsed value can make callable, so the conversion throws. *)
Fixpoint text_of (v : JValue) : Res string :=
  match v with
  | JNull => Ok "null"
  | JBool true => Ok "true"
  | JBool false => Ok "false"
  | JNum literal => Ok (number_text literal)
  | JStr s => Ok s
  | JArr items =>
      res_bind (elementTexts text_of items) (fun ts => Ok (join "," ts))
  | JObj fields =>
      match own "toString" fields with
      | Some _ => Throw (TypeError "Cannot convert object to primitive value")
      | None => Ok "[object Object]"
      end
  end.

End WithEngine.

End Js.

Import Js.

(** ** The path module of the host (POSIX flavour) *)

Module Path.

(** [path.sep]. *)
Definition sep : ascii := "/"%char.

(** The segment walk shared by [normalize] and [resolve]: empty and [.]
    segments vanish, [..] removes the segment before it, or is kept when
    nothing is left to remove and the path may climb above its start.
    [res] holds the segments kept so far, last one first. *)
Fixpoint normalizeString (allowAboveRoot : bool) (segs res : list string)
  : list string :=
  match segs with
  | [] => rev res
  | seg :: rest =>
      if String.eqb seg EmptyString then normalizeString allowAboveRoot rest res
      else if String.eqb seg "." then normalizeString allowAboveRoot rest res
      else if String.eqb seg ".." then
        match res with
        | last :: res' =>
            if String.eqb last ".." then
              normalizeString allowAboveRoot rest
                (if allowAboveRoot then ".." :: res else res)
            else normalizeString allowAboveRoot rest res'
        | [] =>
            normalizeString allowAboveRoot rest
              (if allowAboveRoot then [".."] else [])
        end
      else normalizeString allowAboveRoot rest (seg :: res)
  end.

Definition isAbsolute (p : string) : bool := startsWith "/" p.

(** [path.normalize(p)]. *)
Definition normalize (p : string) : string :=
  if String.eqb p EmptyString then "."
  else
    let trailingSeparator := endsWith "/" p in
    let body := join "/" (normalizeString (negb (isAbsolute p)) (split_on sep p) []) in
    if String.eqb body EmptyString then
      if isAbsolute p then "/" else if trailingSeparator then "./" else "."
    else
      let body := (if trailingSeparator then body ++ "/" else body)%string in
      (if isAbsolute p then "/" ++ body else body)%string.

(** [path.join(a, b)]: empty arguments are skipped. *)
Definition join2 (a b : string) : string :=
  if String.eqb a EmptyString then (if String.eqb b EmptyString then "." else normalize b)
  else if String.eqb b EmptyString then normalize a
  else normalize (a ++ "/" ++ b)%string.

(** The segments of [path.resolve(p)] below the root, for the working
    directory [cwd] (an absolute path). *)
Definition resolve (cwd p : string) : list string :=
  normalizeString false
    (split_on sep (if isAbsolute p then p else cwd ++ "/" ++ p)%string) [].

(** What is left of two segment lists after their common prefix. *)
Fixpoint diverge (from to : list string) : list string * list string :=
  match from, to with
  | a :: from', b :: to' =>
      if String.eqb a b then diverge from' to' else (from, to)
  | _, _ => (from, to)
  end.

(** [path.relative(from, to)]: one [..] for every segment of [from] below
    the common ancestor, then the segments of [to] below it. *)
Definition relative (cwd from to : string) : string :=
  let '(up, down) := diverge (resolve cwd from) (resolve cwd to) in
  join "/" (map (fun _ => "..") up ++ down).

End Path.

(** ** File scanner *)

(** A directory entry as [readdir] with file types reports it, together with
    what reading it yields. *)
Inductive Entry : Type :=
| File (name : string) (content : string)
| UnreadableFile (name : string) (e : JsError)
| Directory (name : string) (entries : list Entry)
| UnreadableDirectory (name : string) (e : JsError)
| Special (name : string).

(** [/\.(js|jsx|ts|tsx)$/.test(name)]. *)
Definition hasSourceExtension (name : string) : bool :=
  endsWith ".js" name || endsWith ".jsx" name
  || endsWith ".ts" name || endsWith ".tsx" name.

(** [content.includes('gql`') || content.includes('graphql`')]. *)
Definition hasGraphQLTag (content : string) : bool :=
  includes "gql`" content || includes "graphql`" content.

(** The body of the loop of [processDirectory] for one entry; [files] is the
    array the closure pushes to. *)
Fixpoint processEntry (currentPath : string) (entry : Entry) (files : list string)
  : Res (list string) :=
  match entry with
  | Directory name entries =>
      let fullPath := Path.join2 currentPath name in
      (fix processDirectory (es : list Entry) (files : list string)
         : Res (list string) :=
         match es with
         | [] => Ok files
         | e :: rest =>
             res_bind (processEntry fullPath e files)
               (fun files' => processDirectory rest files')
         end) entries files
  | UnreadableDirectory _ e => Throw e
  | File name content =>
      let fullPath := Path.join2 currentPath name in
      if hasSourceExtension name then
        if hasGraphQLTag content then Ok (files ++ [fullPath]) else Ok files
      else Ok files
  | UnreadableFile name e =>
      if hasSourceExtension name then Throw e else Ok files
  | Special _ => Ok files
  end.

(** [processDirectory(currentPath)] once [readdir] has listed [entries]. *)
Fixpoint processDirectory (currentPath : string) (entries : list Entry)
  (files : list string) : Res (list string) :=
  match entries with
  | [] => Ok files
  | e :: rest =>
      res_bind (processEntry currentPath e files)
        (fun files' => processDirectory currentPath rest files')
  end.

(** ** Grouper *)

(** The insertion-ordered [Map] with string keys. *)
Module JsMap.
Section Ops.
Context {V : Type}.

Definition t : Type := list (string * V).

Definition has (k : string) (m : t) : bool :=
  existsb (fun kv => String.eqb (fst kv) k) m.

Fixpoint get (k : string) (m : t) : option V :=
  match m with
  | [] => None
  | (k', v) :: rest => if String.eqb k' k then Some v else get k rest
  end.

(** [m.set(k, v)]: a present key keeps its place, a new one goes last. *)
Fixpoint set (k : string) (v : V) (m : t) : t :=
  match m with
  | [] => [(k, v)]
  | (k', v') :: rest =>
      if String.eqb k' k then (k', v) :: rest else (k', v') :: set k v rest
  end.

(** The effect of mutating in place the value stored under [k]. *)
Fixpoint update (k : string) (f : V -> V) (m : t) : t :=
  match m with
  | [] => []
  | (k', v) :: rest =>
      if String.eqb k' k then (k', f v) :: rest
      else (k', v) :: update k f rest
  end.
End Ops.
Arguments t V : clear implicits.
End JsMap.

(** A plain object with string keys, as the list of its own properties in
    enumeration order: array-index keys first, ascending, then the other
    keys in creation order. *)
Module JsObject.

Definition digit (c : ascii) : option N :=
  let n := N_of_ascii c in
  if ((48 <=? n) && (n <=? 57))%N then Some (n - 48)%N else None.

Fixpoint digits_value (s : string) (acc : N) : option N :=
  match s with
  | EmptyString => Some acc
  | String c s' =>
      match digit c with
      | Some d => digits_value s' (10 * acc + d)%N
      | None => None
      end
  end.

(** The array index a key denotes: a canonical decimal numeral below
    [2^32 - 1]. *)
Definition array_index (k : string) : option N :=
  match k with
  | EmptyString => None
  | String c rest =>
      if Ascii.eqb c "0"%char && negb (String.eqb rest EmptyString) then None
      else match digits_value k 0%N with
           | Some n => if (n <=? 4294967294)%N then Some n else None
           | None => None
           end
  end.

Section Ops.
Context {V : Type}.

Definition t : Type := list (string * V).

(** A new array-index key goes before the first key that is not a
    smaller array index. *)
Fixpoint insert_index (i : N) (k : string) (v : V) (o : t) : t :=
  match o with
  | [] => [(k, v)]
  | (k', v') :: rest =>
      match array_index k' with
      | Some j =>
          if (j <? i)%N then (k', v') :: insert_index i k v rest
          else (k, v) :: o
      | None => (k, v) :: o
      end
  end.

(** Defining the data property [k] with value [v]. *)
Definition define (k : string) (v : V) (o : t) : t :=
  if JsMap.has k o then JsMap.set k v o
  else match array_index k with
       | Some i => insert_index i k v o
       | None => o ++ [(k, v)]
       end.

(** [Object.fromEntries(entries)]. *)
Definition fromEntries (entries : list (string * V)) : t :=
  fold_left (fun o kv => define (fst kv) (snd kv) o) entries [].

(** [Object.entries(o)], [Object.keys(o)], [Object.values(o)]. *)
Definition entries (o : t) : list (string * V) := o.
Definition keys (o : t) : list string := map fst o.
Definition values (o : t) : list V := map snd o.
End Ops.
Arguments t V : clear implicits.
End JsObject.

(** The group key of a file: the first segment of its path relative to the
    pages root, [relativePath.split(path.sep)[0]]. *)
Definition topLevelFolder (cwd pagesPath file : string) : string :=
  let relativePath := Path.relative cwd pagesPath file in
  hd EmptyString (split_on Path.sep relativePath).

(** One turn of the loop of [groupFilesByPagesFolder]. *)
Definition groupFile (cwd pagesPath : string)
  (groupedFiles : JsMap.t (list string)) (file : string)
  : JsMap.t (list string) :=
  let key := topLevelFolder cwd pagesPath file in
  let groupedFiles :=
    if negb (JsMap.has key groupedFiles) then JsMap.set key [] groupedFiles
    else groupedFiles in
  JsMap.update key (fun group => group ++ [file]) groupedFiles.

(** [groupFilesByPagesFolder(files, pagesPath)], run in the working directory
    [cwd]. *)
Definition groupFilesByPagesFolder (cwd : string) (files : list string)
  (pagesPath : string) : JsObject.t (list string) :=
  let groupedFiles := fold_left (groupFile cwd pagesPath) files [] in
  JsObject.fromEntries groupedFiles.

(** ** The world outside the process *)

(** A response as the analyzer uses it: the status, and what reading the
    body settles to, the text or the error of the read (the connection may
    be cut while the body streams). *)
Record Response : Type := {
  ok : bool;
  statusText : string;
  body : Res string
}.

(** What [fetch] settles to: a rejection, or a response of any status. *)
Inductive FetchOutcome : Type :=
| Rejected (e : JsError)
| Responded (r : Response).

(** The chat-completion request: bearer credential, model, sampling
    temperature and the single user message. *)
Record Request : Type := {
  bearer : string;
  model_id : string;
  temperature : string;
  user_content : string
}.

(** The effects a run performs, in the order it performs them. *)
Inductive Event : Type :=
| Fetch (request : Request)
| Delay (ms : N)
| WriteFile (file data : string).

Definition is_fetch (ev : Event) : bool :=
  match ev with Fetch _ => true | _ => false end.

Definition is_delay (ev : Event) : bool :=
  match ev with Delay _ => true | _ => false end.

Definition is_write (ev : Event) : bool :=
  match ev with WriteFile _ _ => true | _ => false end.

Class World : Type := {
  (** [process.cwd()], an absolute path. *)
  cwd : string;
  (** The directory tree found at a path, or the error of [readdir]. *)
  readdir : string -> Res (list Entry);
  (** [fs.promises.readFile(file, 'utf-8')]. *)
  readFile : string -> Res string;
  (** What the service answers to a request, given how many requests were
      made before it. *)
  remote : nat -> Request -> FetchOutcome;
  (** [new Date().toISOString()] after the effects performed so far. *)
  now : list Event -> string;
  (** [process.env.OPENROUTER_API_KEY]. *)
  OPENROUTER_API_KEY : option string
}.

(** ** Asynchronous computations: a trace of effects and a thrown error *)

Definition M (A : Type) : Type := list Event -> Res A * list Event.

Definition ret {A : Type} (a : A) : M A := fun t => (Ok a, t).

Definition throw {A : Type} (e : JsError) : M A := fun t => (Throw e, t).

Definition bind {A B : Type} (m : M A) (f : A -> M B) : M B :=
  fun t =>
    match m t with
    | (Ok a, t') => f a t'
    | (Throw e, t') => (Throw e, t')
    end.

Definition lift {A : Type} (r : Res A) : M A := fun t => (r, t).

(** [try { m } catch (error) { handler error }]. *)
Definition try_catch {A : Type} (m : M A) (handler : JsError -> M A) : M A :=
  fun t =>
    match m t with
    | (Ok a, t') => (Ok a, t')
    | (Throw e, t') => handler e t'
    end.

Definition emit (ev : Event) : M unit := fun t => (Ok tt, t ++ [ev]).

Declare Scope js_scope.
Delimit Scope js_scope with js.
Notation "x <- m ;; k" := (bind m (fun x => k))
  (at level 61, m at next level, right associativity) : js_scope.
Notation "m ;; k" := (bind m (fun _ => k))
  (at level 61, right associativity) : js_scope.
Notation "x <~ r ;; k" := (res_bind r (fun x => k))
  (at level 61, r at next level, right associativity) : js_scope.
Open Scope js_scope.

(** ** Remote analysis client *)

(** The credential is whatever the environment held, possibly nothing. *)
Record OpenRouterAnalyzer : Type := {
  apiKey : option string;
  model : string
}.

(** The constructor; an absent model argument takes the default. *)
Definition new_OpenRouterAnalyzer (apiKey : option string) (model : option string)
  : OpenRouterAnalyzer :=
  {| apiKey := apiKey;
     model := match model with
              | Some m => m
              | None => "google/gemini-2.0-flash-thinking-exp:free"
              end |}.

(** What [generateContent] resolves to: an object whose [response.text] is a
    function still to be called. *)
Record Generated : Type := {
  response_text : unit -> Res JsVal
}.

(** [data.choices[0].message.content]. *)
Definition firstChoiceContent (data : JValue) : Res JsVal :=
  cs <~ get (Json data) k_choices ;;
  c <~ first_of cs ;;
  m <~ get c k_message ;;
  get m k_content.

(** The instruction template of [analyzePageGraphQL], up to the page name. *)
Definition promptObjective : list string :=
  [ "        Objective: Thoroughly identify and extract all GraphQL queries and mutations from the provided set of files that belong to a specific page component.";
    EmptyString;
    "        Instructions:";
    EmptyString;
    "        1. **Analyze the Files:** Examine all provided files that belong to this page component and its related functionality.";
    EmptyString;
    "        2. **Scan for GraphQL Operations:** Within each file, meticulously search for GraphQL queries and mutations. Look for:";
    "            * **`gql` template literals**";
    "            * **`useQuery` and `useMutation` hooks**";
    "            * **GraphQL client methods**";
    "            * **Imported GraphQL documents**";
    EmptyString;
    "        3. **Extract Operation Names:** For each identified GraphQL query and mutation, extract its name.";
    EmptyString;
    "        4. **Format the Output:** Structure your findings as a JSON object with queries and mutations arrays.";
    EmptyString ].

(** Between the page name and the file list. *)
Definition promptFiles : list string :=
  [ EmptyString;
    "        Files to analyze:" ].

(** Between the file list and the file contents. *)
Definition promptFormat : list string :=
  [ EmptyString;
    "        Format the response as a JSON object with:";
    "        {";
    quoted "            'queries': [{ 'name': 'QueryName' }],";
    quoted "            'mutations': [{ 'name': 'MutationName' }]";
    "        }";
    EmptyString;
    "        Context for each file follows:";
    EmptyString ].

Section Analyzer.
Context {engine : Engine} {world : World}.

(** The number of requests made so far. *)
Definition fetch_count (t : list Event) : nat :=
  List.length (filter is_fetch t).

(** [await response.json()]: the body is read, then parsed. *)
Definition json (response : Response) : Res JValue :=
  text <~ body response ;;
  JSON_parse text.

(** [await fetch(url, request)]. *)
Definition fetch (request : Request) : M Response :=
  fun t =>
    match remote (fetch_count t) request with
    | Responded r => (Ok r, t ++ [Fetch request])
    | Rejected e => (Throw e, t ++ [Fetch request])
    end.

(** [delay(ms)]. *)
Definition delay (ms : N) : M unit := emit (Delay ms).

(** The headers and body [generateContent] hands to [fetch]. *)
Definition chatRequest (self : OpenRouterAnalyzer) (prompt : string) : Request :=
  {| bearer := "Bearer " ++ match apiKey self with
                            | Some key => key
                            | None => "undefined"
                            end;
     model_id := model self;
     temperature := "0";
     user_content := prompt |}.

(** [generateContent(prompt)]; on an unsuccessful status the body is read,
    to be printed, before the error is thrown. *)
Definition generateContent (self : OpenRouterAnalyzer) (prompt : string)
  : M Generated :=
  response <- fetch (chatRequest self prompt) ;;
  if negb (ok response) then
    _ <- lift (body response) ;;
    throw (ApiError (statusText response))
  else
    data <- lift (json response) ;;
    ret {| response_text := fun _ => firstChoiceContent data |}.

(** [getFilesContent(files)]: a file that cannot be read is left out. *)
Fixpoint fileContents (files : list string) : list string :=
  match files with
  | [] => []
  | file :: rest =>
      match readFile file with
      | Ok content => ("FILE: " ++ file ++ nl ++ content)%string :: fileContents rest
      | Throw _ => fileContents rest
      end
  end.

Definition getFilesContent (files : list string) : string :=
  join (nl ++ nl) (fileContents files).

(** The prompt of [analyzePageGraphQL]. *)
Definition graphqlPrompt (pageFiles : list string) (pageName : string) : string :=
  join nl
    ([EmptyString] ++ promptObjective
     ++ [("        Page Component: " ++ pageName)%string]
     ++ promptFiles
     ++ [("        " ++ join nl pageFiles)%string]
     ++ promptFormat
     ++ [("        " ++ getFilesContent pageFiles)%string]).

(** [text.replace(/^```json\n/, '').replace(/\n```$/, '')] for whatever
    value [response.text()] returned. *)
Definition replaceFences (text : JsVal) : Res string :=
  match text with
  | Json (JStr s) => Ok (cleanResponse s)
  | Undefined => Throw (cannot_read "undefined" "replace")
  | Json JNull => Throw (cannot_read "null" "replace")
  | _ => Throw (not_a_function "response.text(...).replace")
  end.

(** [v > 0]. *)
Definition gt_zero (v : JsVal) : Res bool :=
  match v with
  | Undefined => Ok false
  | Len n => Ok (0 <? n)%nat
  | Json JNull => Ok false
  | Json (JBool b) => Ok b
  | Json v => json_gt_zero v
  end.

(** The text a template literal renders for a value. *)
Definition render (v : JsVal) : Res string :=
  match v with
  | Undefined => Ok "undefined"
  | Len n => Ok (NilEmpty.string_of_uint (Nat.to_uint n))
  | Json v => text_of v
  end.

(** The callback of the two logging loops: the text of an item's name is
    rendered for the console. *)
Definition logName (item : JValue) : Res unit :=
  n <~ get (Json item) k_name ;;
  _ <~ render n ;;
  Ok tt.

Fixpoint forEachItem (f : JValue -> Res unit) (items : list JValue) : Res unit :=
  match items with
  | [] => Ok tt
  | x :: rest => _ <~ f x ;; forEachItem f rest
  end.

(** [v.forEach(f)]: only an array has the method. *)
Definition forEach (what : string) (v : JsVal) (f : JValue -> Res unit) : Res unit :=
  match v with
  | Json (JArr items) => forEachItem f items
  | Undefined => Throw (cannot_read "undefined" "forEach")
  | Json JNull => Throw (cannot_read "null" "forEach")
  | _ => Throw (not_a_function (what ++ ".forEach"))
  end.

(** [if (analysis.k.length > 0) { analysis.k.forEach(logName) }]. *)
Definition logOperations (analysis : JValue) (k : Key) : Res unit :=
  ops <~ get (Json analysis) k ;;
  len <~ length_of ops ;;
  positive <~ gt_zero len ;;
  if positive : bool then
    ops <~ get (Json analysis) k ;;
    forEach ("analysis." ++ key_name k) ops logName
  else Ok tt.

(** The statements of the [try] block after the reply text is cleaned. *)
Definition summarize (page : JsVal) (cleanedResponse : string)
  : Res AnalysisResult :=
  analysis <~ JSON_parse cleanedResponse ;;
  _ <~ logOperations analysis k_queries ;;
  _ <~ logOperations analysis k_mutations ;;
  qs <~ get (Json analysis) k_queries ;;
  queryCount <~ length_of qs ;;
  ms <~ get (Json analysis) k_mutations ;;
  mutationCount <~ length_of ms ;;
  Ok (Analysed page analysis queryCount mutationCount).

(** [analyzePageGraphQL(pageFiles, pageName)]. *)
Definition analyzePageGraphQL (self : OpenRouterAnalyzer)
  (pageFiles : list string) (pageName : string) : M AnalysisResult :=
  let prompt := graphqlPrompt pageFiles pageName in
  try_catch
    (result <- generateContent self prompt ;;
     text <- lift (response_text result tt) ;;
     cleanedResponse <- lift (replaceFences text) ;;
     lift (summarize (Json (JStr pageName)) cleanedResponse))
    (fun error => ret (Failed (Json (JStr pageName)) (message error))).

(** [xs.indexOf(x)], [-1] when [x] is absent. *)
Fixpoint indexFrom (i : Z) (x : string) (xs : list string) : Z :=
  match xs with
  | [] => (-1)%Z
  | y :: rest => if String.eqb y x then i else indexFrom (i + 1)%Z x rest
  end.

Definition indexOf (x : string) (xs : list string) : Z := indexFrom 0%Z x xs.

(** The loop of [analyzeGroupedFiles] over the entries still to visit;
    [results] is the array filled so far. *)
Fixpoint analyzeGroups (self : OpenRouterAnalyzer)
  (groupedFiles : JsObject.t (list string))
  (remaining : list (string * list string)) (results : list AnalysisResult)
  : M (list AnalysisResult) :=
  match remaining with
  | [] => ret results
  | (pageName, files) :: rest =>
      analysis <- analyzePageGraphQL self files pageName ;;
      let results := results ++ [analysis] in
      (if (indexOf pageName (JsObject.keys groupedFiles)
           <? Z.of_nat (List.length (JsObject.keys groupedFiles)) - 1)%Z
       then delay 10000%N
       else ret tt) ;;
      analyzeGroups self groupedFiles rest results
  end.

(** [analyzeGroupedFiles(groupedFiles)]. *)
Definition analyzeGroupedFiles (self : OpenRouterAnalyzer)
  (groupedFiles : JsObject.t (list string)) : M (list AnalysisResult) :=
  analyzeGroups self groupedFiles (JsObject.entries groupedFiles) [].

(** [findGraphQLFiles(dirPath)]. *)
Definition findGraphQLFiles (dirPath : string) : Res (list string) :=
  entries <~ readdir dirPath ;;
  processDirectory dirPath entries [].

(** What [scanForGraphQLTags] returns: the plain file list, or the groups
    when a pages path was given. *)
Inductive Scan : Type :=
| Files (files : list string)
| Grouped (groupedFiles : JsObject.t (list string)).

(** [scanForGraphQLTags(folderPath, pagesComponentsPath = null)]; the empty
    path is as good as none, and what is caught is thrown again. *)
Definition scanForGraphQLTags (folderPath : string)
  (pagesComponentsPath : option string) : Res Scan :=
  files <~ findGraphQLFiles folderPath ;;
  match pagesComponentsPath with
  | Some pagesPath =>
      if String.eqb pagesPath EmptyString then Ok (Files files)
      else Ok (Grouped (groupFilesByPagesFolder cwd files pagesPath))
  | None => Ok (Files files)
  end.

(** [timestamp.replace(/[:.]/g, '-')]. *)
Fixpoint dashed (s : string) : string :=
  match s with
  | EmptyString => EmptyString
  | String c s' =>
      String (if Ascii.eqb c ":"%char || Ascii.eqb c "."%char then "-"%char else c)
             (dashed s')
  end.

Definition writeFile (file data : string) : M unit := emit (WriteFile file data).

(** [new Date().toISOString()]. *)
Definition toISOString : M string := fun t => (Ok (now t), t).

(** [main(filePath, model)].  The pages path it passes is never empty, so
    the scan always comes back grouped; a plain file list would make the
    first item fail on [pageFiles.join]. *)
Definition main (filePath : string) (model : option string) : M unit :=
  let analyzer := new_OpenRouterAnalyzer OPENROUTER_API_KEY model in
  let repoPath := ("./repo_to_analyze/" ++ filePath)%string in
  scan <- lift (scanForGraphQLTags repoPath
                  (Some (repoPath ++ "/src/components/pages")%string)) ;;
  analysisResults <-
    match scan with
    | Grouped groupedFiles => analyzeGroupedFiles analyzer groupedFiles
    | Files [] => ret []
    | Files (_ :: _) => throw (not_a_function "pageFiles.join")
    end ;;
  iso <- toISOString ;;
  let timestamp := dashed iso in
  let outputFile := ("analysis-" ++ timestamp ++ ".json")%string in
  writeFile outputFile (JSON_stringify analysisResults).

End Analyzer.

(** ** The page-inventory variant of the analyzer

    The second pipeline asks the service for the pages of a text blob, then
    for the operations of every page it was told about. *)

Module Pages.

(** The instruction template of [analyzePages], up to the file content. *)
Definition pagesInstructions : list string :=
  [ "            Given the following codebase context, identify and list every component that uses GraphQL queries or mutations. For each component, extract the following details:";
    EmptyString;
    "            path: the route or file path where the component is accessible.";
    "            component: the file name where the component is defined.";
    "            description: a short explanation of what the component does.";
    "            Guidelines:";
    EmptyString;
    "            Analyze the entire file content to ensure every component using GraphQL queries or mutations is included.";
    quoted "            Format your response exclusively as a JSON array. Each element in the array must be a JSON object with the keys 'path', 'component', and 'description'.";
    "            Do not include any text or commentary outside the JSON array.";
    "            Do not use any markdown syntax or additional formatting—return only valid JSON.";
    "            If no components are found, return an empty JSON array.";
    "            Context:" ].

(** The instruction template of [analyzePageGraphQL], up to the component. *)
Definition pageInstructions : list string :=
  [ "        Analyze the following page in the codebase and identify the GraphQL queries and mutations used by it." ].

(** Between the component and the context. *)
Definition pageFormat : list string :=
  [ EmptyString;
    "        Format the response as a JSON object with:";
    "        - queries: array of objects containing { name }";
    "        - mutations: array of objects containing { name }";
    EmptyString;
    "        Only include actual GraphQL operations found in the code. Look for gql tags, useQuery, useMutation, etc.";
    EmptyString;
    "        Context:" ].

(** After the context. *)
Definition pageClosing : list string :=
  [ EmptyString;
    "        Response should be valid JSON only, no additional text." ].

Section Analyzer.
Context {engine : Engine} {world : World}.

(** The constructor; an absent model argument takes the default. *)
Definition new_OpenRouterAnalyzer (apiKey : option string) (model : option string)
  : OpenRouterAnalyzer :=
  {| apiKey := apiKey;
     model := match model with
              | Some m => m
              | None => "anthropic/claude-3-opus"
              end |}.

(** The headers and body [generateContent] hands to [fetch]. *)
Definition chatRequest (self : OpenRouterAnalyzer) (prompt : string) : Request :=
  {| bearer := "Bearer " ++ match apiKey self with
                            | Some key => key
                            | None => "undefined"
                            end;
     model_id := model self;
     temperature := "0.1";
     user_content := prompt |}.

(** [generateContent(prompt)]; this variant throws on an unsuccessful
    status without reading the body. *)
Definition generateContent (self : OpenRouterAnalyzer) (prompt : string)
  : M Generated :=
  response <- fetch (chatRequest self prompt) ;;
  if negb (ok response) then
    throw (ApiError (statusText response))
  else
    data <- lift (json response) ;;
    ret {| response_text := fun _ => firstChoiceContent data |}.

(** The prompt of [analyzePages]. *)
Definition pagesPrompt (fileContent : string) : string :=
  join nl ([EmptyString] ++ pagesInstructions
           ++ [("            " ++ fileContent)%string]).

(** The prompt of [analyzePageGraphQL] for the rendered component. *)
Definition graphqlPrompt (component context : string) : string :=
  join nl ([EmptyString] ++ pageInstructions
           ++ [("        Component: " ++ component)%string]
           ++ pageFormat
           ++ [("        " ++ context)%string]
           ++ pageClosing).

(** The text a template literal renders for the property [k] of [page]. *)
Definition renderProperty (page : JValue) (k : Key) : Res string :=
  v <~ get (Json page) k ;;
  render v.

(** The statements of the [try] block after the reply text is cleaned. *)
Definition summarize (page : JValue) (cleanedResponse : string)
  : Res AnalysisResult :=
  analysis <~ JSON_parse cleanedResponse ;;
  _ <~ renderProperty page k_path ;;
  _ <~ logOperations analysis k_queries ;;
  _ <~ logOperations analysis k_mutations ;;
  pagePath <~ get (Json page) k_path ;;
  qs <~ get (Json analysis) k_queries ;;
  queryCount <~ length_of qs ;;
  ms <~ get (Json analysis) k_mutations ;;
  mutationCount <~ length_of ms ;;
  Ok (Analysed pagePath analysis queryCount mutationCount).

(** The [catch] block: the path of the page is rendered for the console
    before the error record is built. *)
Definition recover (page : JValue) (error : JsError) : Res AnalysisResult :=
  _ <~ renderProperty page k_path ;;
  pagePath <~ get (Json page) k_path ;;
  Ok (Failed pagePath (message error)).

(** [analyzePageGraphQL(page, context)]; the prompt is built before the
    [try] block is entered. *)
Definition analyzePageGraphQL (self : OpenRouterAnalyzer) (page : JValue)
  (context : string) : M AnalysisResult :=
  component <- lift (renderProperty page k_component) ;;
  let prompt := graphqlPrompt component context in
  try_catch
    (result <- generateContent self prompt ;;
     text <- lift (response_text result tt) ;;
     cleanedResponse <- lift (replaceFences text) ;;
     lift (summarize page cleanedResponse))
    (fun error => lift (recover page error)).

(** The callback that prints a page found. *)
Definition logPage (page : JValue) : Res unit :=
  _ <~ renderProperty page k_path ;;
  _ <~ renderProperty page k_component ;;
  _ <~ renderProperty page k_description ;;
  Ok tt.

(** [pages[j] === page] for the element [page] met at position [i]: two
    objects or arrays are the same when they are the same element. *)
Definition strictEquals (j : nat) (x : JValue) (i : nat) (page : JValue) : bool :=
  match x, page with
  | JNull, JNull => true
  | JBool a, JBool b => Bool.eqb a b
  | JNum a, JNum b => same_number a b
  | JStr a, JStr b => String.eqb a b
  | JArr _, JArr _ | JObj _, JObj _ => Nat.eqb j i
  | _, _ => false
  end.

(** [pages.indexOf(page)], looked for from position [j] on. *)
Fixpoint indexOfPage (j : nat) (pages : list JValue) (i : nat) (page : JValue) : Z :=
  match pages with
  | [] => (-1)%Z
  | x :: rest =>
      if strictEquals j x i page then Z.of_nat j
      else indexOfPage (S j) rest i page
  end.

(** The loop of [analyzePages] over the pages still to visit, the first of
    them at position [i]. *)
Fixpoint analyzeEach (self : OpenRouterAnalyzer) (pages : list JValue)
  (context : string) (i : nat) (remaining : list JValue)
  (analysisResults : list AnalysisResult) : M (list AnalysisResult) :=
  match remaining with
  | [] => ret analysisResults
  | page :: rest =>
      analysis <- analyzePageGraphQL self page context ;;
      let analysisResults := analysisResults ++ [analysis] in
      (if (indexOfPage 0 pages i page <? Z.of_nat (List.length pages) - 1)%Z
       then delay 60000%N
       else ret tt) ;;
      analyzeEach self pages context (S i) rest analysisResults
  end.

(** The items a [for ... of] loop visits. *)
Definition iterate (v : JValue) : Res (list JValue) :=
  match v with
  | JArr items => Ok items
  | _ => Throw (TypeError "pages is not iterable")
  end.

(** [analyzePages(fileContent)]: whatever is thrown is thrown again. *)
Definition analyzePages (self : OpenRouterAnalyzer) (fileContent : string)
  : M (JValue * list AnalysisResult) :=
  try_catch
    (pagesResult <- generateContent self (pagesPrompt fileContent) ;;
     text <- lift (response_text pagesResult tt) ;;
     cleanedPagesResponse <- lift (replaceFences text) ;;
     pages <- lift (JSON_parse cleanedPagesResponse) ;;
     lift (forEach "pages" (Json pages) logPage) ;;
     delay 60000%N ;;
     items <- lift (iterate pages) ;;
     analysisResults <- analyzeEach self items fileContent 0 items [] ;;
     ret (pages, analysisResults))
    (fun error => throw error).

End Analyzer.

End Pages.

(** ** The command-line entry points *)

(** How a script leaves the process: it runs to its end, or
    [process.exit(code)] stops it. *)
Inductive Ending : Type :=
| Completed
| Exited (code : N).

(** The script of the grouped analyzer: [main] after the argument check,
    with whatever it throws handed to [console.error]. *)
Module GroupedCli.
Section Script.
Context {engine : Engine} {world : World}.

(** The script, run with the arguments [process.argv.slice(2)]. *)
Definition script (args : list string) : M Ending :=
  match args with
  | [] => ret (Exited 1%N)
  | filePath :: rest =>
      let model := hd_error rest in
      try_catch (main filePath model ;; ret Completed)
                (fun error => ret Completed)
  end.

End Script.
End GroupedCli.

(** [index.js], the script of the page-inventory variant. *)
Module PagesCli.
Section Script.
Context {engine : Engine} {world : World}.

(** [JSON.stringify(analysis, null, 2)] for the object
    [{ pages, analysisResults }]. *)
Variable stringify : JValue * list AnalysisResult -> string.

(** [runAnalysis(filePath, model)].  The write is an effect of the trace
    and is taken to succeed, as in [main]; were it to fail, the handler
    would exit with status 1 as for any other error. *)
Definition runAnalysis (filePath : string) (model : option string) : M Ending :=
  try_catch
    (fileContent <- lift (readFile filePath) ;;
     let analyzer := Pages.new_OpenRouterAnalyzer OPENROUTER_API_KEY model in
     analysis <- Pages.analyzePages analyzer fileContent ;;
     iso <- toISOString ;;
     let timestamp := dashed iso in
     let outputFile := ("analysis-" ++ timestamp ++ ".json")%string in
     writeFile outputFile (stringify analysis) ;;
     ret Completed)
    (fun error => ret (Exited 1%N)).

(** The script, run with the arguments [process.argv.slice(2)]. *)
Definition script (args : list string) : M Ending :=
  match args with
  | [] => ret (Exited 1%N)
  | filePath :: rest =>
      let model := hd_error rest in
      runAnalysis filePath model
  end.

End Script.
End PagesCli.

(** ** A reference engine

    An executable [JSON.parse] and its companions, used to run the analyzer
    on concrete replies.  The theorems below hold for every engine; this one
    follows the JSON grammar, except that a [\u] escape is only accepted
    for the characters below 128 (the others are outside the texts evaluated
    here); it prints and compares a number by its literal, which is exact
    for the literals in canonical form. *)

Module Reference.

Definition is_ws (c : ascii) : bool :=
  let n := N_of_ascii c in
  (N.eqb n 32 || N.eqb n 9 || N.eqb n 10 || N.eqb n 13)%N.

Fixpoint skip_ws (s : string) : string :=
  match s with
  | String c s' => if is_ws c then skip_ws s' else s
  | EmptyString => s
  end.

Definition is_digit (c : ascii) : bool :=
  match JsObject.digit c with Some _ => true | None => false end.

(** The longest prefix of digits, and what follows it. *)
Fixpoint take_digits (s : string) : string * string :=
  match s with
  | String c s' =>
      if is_digit c then
        let '(ds, rest) := take_digits s' in (String c ds, rest)
      else (EmptyString, s)
  | EmptyString => (EmptyString, s)
  end.

(** [-? int frac? exp?]: the literal and what follows it. *)
Definition parse_number (s : string) : option (string * string) :=
  let '(sign, s) :=
    match s with
    | String "-"%char r => ("-", r)
    | _ => (EmptyString, s)
    end in
  let '(int, s) :=
    match s with
    | String "0"%char r => ("0", r)
    | _ => take_digits s
    end in
  if String.eqb int EmptyString then None
  else
    let frac :=
      match s with
      | String "."%char r =>
          let '(ds, r') := take_digits r in
          if String.eqb ds EmptyString then None
          else Some (("." ++ ds)%string, r')
      | _ => Some (EmptyString, s)
      end in
    match frac with
    | None => None
    | Some (frac, s) =>
        let exp :=
          match s with
          | String e r =>
              if Ascii.eqb e "e"%char || Ascii.eqb e "E"%char then
                let '(esign, r) :=
                  match r with
                  | String "+"%char r' => ("+", r')
                  | String "-"%char r' => ("-", r')
                  | _ => (EmptyString, r)
                  end in
                let '(ds, r') := take_digits r in
                if String.eqb ds EmptyString then None
                else Some (String e (esign ++ ds)%string, r')
              else Some (EmptyString, s)
          | EmptyString => Some (EmptyString, s)
          end in
        match exp with
        | None => None
        | Some (exp, s) => Some ((sign ++ int ++ frac ++ exp)%string, s)
        end
    end.

Definition hex_digit (c : ascii) : option N :=
  let n := N_of_ascii c in
  if ((48 <=? n) && (n <=? 57))%N then Some (n - 48)%N
  else if ((97 <=? n) && (n <=? 102))%N then Some (n - 87)%N
  else if ((65 <=? n) && (n <=? 70))%N then Some (n - 55)%N
  else None.

Definition simple_escape (c : ascii) : option ascii :=
  let n := N_of_ascii c in
  if N.eqb n 34 then Some c
  else if N.eqb n 92 then Some c
  else if N.eqb n 47 then Some c
  else if N.eqb n 98 then Some (ascii_of_N 8)
  else if N.eqb n 102 then Some (ascii_of_N 12)
  else if N.eqb n 110 then Some (ascii_of_N 10)
  else if N.eqb n 114 then Some (ascii_of_N 13)
  else if N.eqb n 116 then Some (ascii_of_N 9)
  else None.

(** The characters of a string literal after its opening quote, and what
    follows the closing quote. *)
Fixpoint parse_chars (s : string) : option (string * string) :=
  match s with
  | EmptyString => None
  | String c r =>
      if N.eqb (N_of_ascii c) 34 then Some (EmptyString, r)
      else if N.eqb (N_of_ascii c) 92 then
        match r with
        | String e r' =>
            if Ascii.eqb e "u"%char then
              match r' with
              | String h1 (String h2 (String h3 (String h4 r''))) =>
                  match hex_digit h1, hex_digit h2, hex_digit h3, hex_digit h4 with
                  | Some a, Some b, Some c', Some d =>
                      let code := (((a * 16 + b) * 16 + c') * 16 + d)%N in
                      if (code <? 128)%N then
                        match parse_chars r'' with
                        | Some (cs, rest) => Some (String (ascii_of_N code) cs, rest)
                        | None => None
                        end
                      else None
                  | _, _, _, _ => None
                  end
              | _ => None
              end
            else
              match simple_escape e with
              | Some x =>
                  match parse_chars r' with
                  | Some (cs, rest) => Some (String x cs, rest)
                  | None => None
                  end
              | None => None
              end
        | EmptyString => None
        end
      else if (N_of_ascii c <? 32)%N then None
      else
        match parse_chars r with
        | Some (cs, rest) => Some (String c cs, rest)
        | None => None
        end
  end.

(** A value, the elements of an array after its first bracket, the
    members of an object after its first brace; each with what follows. *)
Fixpoint parse_value (fuel : nat) (s : string) : option (JValue * string) :=
  match fuel with
  | O => None
  | S fuel =>
      match skip_ws s with
      | String "{"%char r =>
          match skip_ws r with
          | String "}"%char r' => Some (JObj [], r')
          | r1 => parse_members fuel r1 []
          end
      | String "["%char r =>
          match skip_ws r with
          | String "]"%char r' => Some (JArr [], r')
          | r1 => parse_elements fuel r1 []
          end
      | String "t"%char (String "r"%char (String "u"%char (String "e"%char r))) =>
          Some (JBool true, r)
      | String "f"%char (String "a"%char (String "l"%char
          (String "s"%char (String "e"%char r)))) =>
          Some (JBool false, r)
      | String "n"%char (String "u"%char (String "l"%char (String "l"%char r))) =>
          Some (JNull, r)
      | String c r as s' =>
          if N.eqb (N_of_ascii c) 34 then
            match parse_chars r with
            | Some (cs, rest) => Some (JStr cs, rest)
            | None => None
            end
          else
            match parse_number s' with
            | Some (literal, rest) => Some (JNum literal, rest)
            | None => None
            end
      | EmptyString => None
      end
  end
with parse_elements (fuel : nat) (s : string) (acc : list JValue)
  : option (JValue * string) :=
  match fuel with
  | O => None
  | S fuel =>
      match parse_value fuel s with
      | Some (v, r) =>
          match skip_ws r with
          | String ","%char r' => parse_elements fuel r' (acc ++ [v])
          | String "]"%char r' => Some (JArr (acc ++ [v]), r')
          | _ => None
          end
      | None => None
      end
  end
with parse_members (fuel : nat) (s : string) (acc : JsObject.t JValue)
  : option (JValue * string) :=
  match fuel with
  | O => None
  | S fuel =>
      match skip_ws s with
      | String q r =>
          if N.eqb (N_of_ascii q) 34 then
            match parse_chars r with
            | Some (k, r1) =>
                match skip_ws r1 with
                | String ":"%char r2 =>
                    match parse_value fuel r2 with
                    | Some (v, r3) =>
                        match skip_ws r3 with
                        | String ","%char r4 =>
                            parse_members fuel r4 (JsObject.define k v acc)
                        | String "}"%char r4 =>
                            Some (JObj (JsObject.define k v acc), r4)
                        | _ => None
                        end
                    | None => None
                    end
                | _ => None
                end
            | None => None
            end
          else None
      | EmptyString => None
      end
  end.

Definition parse (text : string) : Res JValue :=
  match parse_value (2 * String.length text + 2) text with
  | Some (v, rest) =>
      if String.eqb (skip_ws rest) EmptyString then Ok v
      else Throw (SyntaxError "Unexpected non-whitespace character after JSON")
  | None => Throw (SyntaxError "Unexpected token in JSON")
  end.

(** A literal is positive when it has no sign and a digit other than zero
    before its exponent (a value too small for the number format aside). *)
Fixpoint mantissa_nonzero (s : string) : bool :=
  match s with
  | EmptyString => false
  | String c s' =>
      if Ascii.eqb c "e"%char || Ascii.eqb c "E"%char then false
      else (is_digit c && negb (Ascii.eqb c "0"%char)) || mantissa_nonzero s'
  end.

Definition literal_gt_zero (literal : string) : bool :=
  negb (startsWith "-" literal) && mantissa_nonzero literal.

(** Text is ordered against zero as the number it spells, if any. *)
Definition text_gt_zero (s : string) : bool :=
  match parse_number s with
  | Some (literal, EmptyString) => literal_gt_zero literal
  | _ => false
  end.

(** The quoted form of a string in JSON text. *)
Definition hex_char (n : N) : ascii :=
  if (n <? 10)%N then ascii_of_N (48 + n) else ascii_of_N (87 + n).

Fixpoint quote_chars (s : string) : string :=
  match s with
  | EmptyString => EmptyString
  | String c s' =>
      let n := N_of_ascii c in
      ((if N.eqb n 34 then String "\"%char (String c EmptyString)
        else if N.eqb n 92 then String c (String c EmptyString)
        else if N.eqb n 8 then "\b"
        else if N.eqb n 12 then "\f"
        else if N.eqb n 10 then "\n"
        else if N.eqb n 13 then "\r"
        else if N.eqb n 9 then "\t"
        else if (n <? 32)%N then
          "\u00" ++ String (hex_char (n / 16)) (String (hex_char (n mod 16)) EmptyString)
        else String c EmptyString) ++ quote_chars s')%string
  end.

Definition quote (s : string) : string := (dq ++ quote_chars s ++ dq)%string.

(** [JSON.stringify(v, null, 2)] below the indentation [indent]. *)
Fixpoint stringify_value (indent : string) (v : JValue) : string :=
  let inner := (indent ++ "  ")%string in
  let lines := fun parts =>
    (nl ++ inner ++ join ("," ++ nl ++ inner) parts ++ nl ++ indent)%string in
  match v with
  | JNull => "null"
  | JBool true => "true"
  | JBool false => "false"
  | JNum literal => literal
  | JStr s => quote s
  | JArr [] => "[]"
  | JArr items =>
      ("[" ++ lines (map (stringify_value inner) items) ++ "]")%string
  | JObj [] => "{}"
  | JObj fields =>
      ("{" ++ lines (map (fun kv =>
                           (quote (fst kv) ++ ": "
                            ++ stringify_value inner (snd kv))%string)
                        fields) ++ "}")%string
  end.

(** A property of a result record; one holding [undefined] is left out of
    the text. *)
Definition property (k : string) (v : JsVal) : list (string * JValue) :=
  match v with
  | Undefined => []
  | Len n => [(k, JNum (NilEmpty.string_of_uint (Nat.to_uint n)))]
  | Json x => [(k, x)]
  end.

Definition result_value (r : AnalysisResult) : JValue :=
  match r with
  | Analysed page analysis queryCount mutationCount =>
      JObj (property "page" page ++ [("analysis", analysis)]
            ++ property "queryCount" queryCount
            ++ property "mutationCount" mutationCount)
  | Failed page error =>
      JObj (property "page" page ++ [("error", JStr error)])
  end.

Definition stringify (results : list AnalysisResult) : string :=
  stringify_value EmptyString (JArr (map result_value results)).

End Reference.

#[local] Instance reference_engine : Engine := {|
  JSON_parse := Reference.parse;
  number_text := fun literal => literal;
  json_gt_zero := fun v =>
    match v with
    | JNum literal => Ok (Reference.literal_gt_zero literal)
    | JStr s => Ok (Reference.text_gt_zero s)
    | JObj fields =>
        match own "toString" fields with
        | Some _ => Throw (TypeError "Cannot convert object to primitive value")
        | None => Ok false
        end
    | _ => Ok false
    end;
  same_number := String.eqb;
  JSON_stringify := Reference.stringify
|}.

(** ** Vocabulary of the statements *)

Section Vocabulary.
Context {engine : Engine}.

(** The value [response.text()] yields in the grouped analyzer for what
    [fetch] settled to: the rejection; on an unsuccessful status the error of
    reading the body, or else the error of the status; on a successful one
    the error of a body that cannot be read or is not JSON, or the content
    read off the parsed body. *)
Definition replyOf (outcome : FetchOutcome) : Res JsVal :=
  match outcome with
  | Rejected e => Throw e
  | Responded r =>
      if ok r then data <~ json r ;; firstChoiceContent data
      else _ <~ body r ;; Throw (ApiError (statusText r))
  end.

(** The same for [analyzer.js], where the body of an unsuccessful response
    is not read. *)
Definition pageReplyOf (outcome : FetchOutcome) : Res JsVal :=
  match outcome with
  | Rejected e => Throw e
  | Responded r =>
      if ok r then data <~ json r ;; firstChoiceContent data
      else Throw (ApiError (statusText r))
  end.

(** A value a template literal can render: no object with an own
    [toString] property is met, directly or through arrays. *)
Fixpoint printable (v : JValue) : bool :=
  match v with
  | JArr items => forallb printable items
  | JObj fields =>
      match own "toString" fields with
      | Some _ => false
      | None => true
      end
  | _ => true
  end.

(** An item the logging loops get through: it is not [null], and its
    name, if it has one, is printable. *)
Definition nameable (item : JValue) : bool :=
  match item with
  | JNull => false
  | JObj fields =>
      match own "name" fields with
      | Some n => printable n
      | None => true
      end
  | _ => true
  end.

(** The property [k] of [analysis] is there and is not [null]. *)
Definition present (analysis : JValue) (k : Key) : Prop :=
  exists x, get (Json analysis) k = Ok (Json x) /\ x <> JNull.

Definition isAnalysed (r : AnalysisResult) : bool :=
  match r with Analysed _ _ _ _ => true | Failed _ _ => false end.

Definition pageOf (r : AnalysisResult) : JsVal :=
  match r with Analysed p _ _ _ => p | Failed p _ => p end.

End Vocabulary.

(** The regular files of a tree, each with the path the scanner builds for
    it, its name and its content. *)
Inductive FileIn : string -> Entry -> string -> string -> string -> Prop :=
| FileHere (dir name content : string) :
    FileIn dir (File name content) (Path.join2 dir name) name content
| FileBelow (dir sub : string) (entries : list Entry) (e : Entry)
    (p name content : string) :
    In e entries ->
    FileIn (Path.join2 dir sub) e p name content ->
    FileIn dir (Directory sub entries) p name content.

Definition FileAt (dir : string) (entries : list Entry)
  (p name content : string) : Prop :=
  exists e, In e entries /\ FileIn dir e p name content.

(** A file qualifies by its extension and its content together. *)
Definition qualifies (name content : string) : bool :=
  hasSourceExtension name && hasGraphQLTag content.

(** The number of regular files of a tree that [keep] retains. *)
Fixpoint countFilesIn (keep : string -> string -> bool) (e : Entry) : nat :=
  match e with
  | File name content => if keep name content then 1 else 0
  | Directory _ entries => list_sum (map (countFilesIn keep) entries)
  | _ => 0
  end.

Definition countFiles (keep : string -> string -> bool) (entries : list Entry)
  : nat :=
  list_sum (map (countFilesIn keep) entries).

(** A tree the scanner can read through: every directory can be listed and
    every file with a source extension can be read. *)
Fixpoint readableEntry (e : Entry) : bool :=
  match e with
  | File _ _ | Special _ => true
  | UnreadableFile name _ => negb (hasSourceExtension name)
  | Directory _ entries => forallb readableEntry entries
  | UnreadableDirectory _ _ => false
  end.

Definition readable (entries : list Entry) : bool := forallb readableEntry entries.

(** No separator occurs in [s]. *)
Fixpoint segmentLike (s : string) : bool :=
  match s with
  | EmptyString => true
  | String c s' => negb (Ascii.eqb c Path.sep) && segmentLike s'
  end.

(** The files of [files] keyed [k], in the order they come. *)
Definition groupOf (key : string -> string) (files : list string) (k : string)
  : list string :=
  filter (fun file => String.eqb (key file) k) files.

(** The properties of an object are in enumeration order: array-index keys
    first, by ascending index, then the other keys. *)
Inductive Ordered {V : Type} : list (string * V) -> Prop :=
| OrderedNames (o : list (string * V)) :
    Forall (fun kv => JsObject.array_index (fst kv) = None) o ->
    Ordered o
| OrderedIndex (k : string) (v : V) (i : N) (o : list (string * V)) :
    JsObject.array_index k = Some i ->
    Forall (fun kv => forall j, JsObject.array_index (fst kv) = Some j -> (i < j)%N) o ->
    Ordered o ->
    Ordered ((k, v) :: o).

(** What the scan of one readable entry adds to the files found so far:
    the paths of its qualifying files, as many as it has. *)
Definition entryScan (e : Entry) : Prop :=
  forall (cur : string) (acc : list string),
    readableEntry e = true ->
    exists found,
      processEntry cur e acc = Ok (acc ++ found)
      /\ (forall p, In p found <->
                    exists name content,
                      FileIn cur e p name content /\ qualifies name content = true)
      /\ List.length found = countFilesIn qualifies e.

(** The same for the entries of a directory. *)
Definition entriesScan (entries : list Entry) : Prop :=
  forall (cur : string) (acc : list string),
    readable entries = true ->
    exists found,
      processDirectory cur entries acc = Ok (acc ++ found)
      /\ (forall p, In p found <->
                    exists name content,
                      FileAt cur entries p name content /\ qualifies name content = true)
      /\ List.length found = countFiles qualifies entries.

(** [intersperse sep xs]: [sep] between any two neighbours of [xs]. *)
Fixpoint intersperse {A : Type} (sep : A) (xs : list A) : list A :=
  match xs with
  | [] => []
  | [x] => [x]
  | x :: rest => x :: sep :: intersperse sep rest
  end.

(** What the orchestration loop is expected to do, item by item. *)
Section Schedule.
Context {engine : Engine} {world : World}.
Variable self : OpenRouterAnalyzer.

(** The request of one group. *)
Definition groupRequest (group : string * list string) : Request :=
  chatRequest self (graphqlPrompt (snd group) (fst group)).

(** The record of one group when [n] requests were made before its own:
    the success record of the reply, or the error record of whatever was
    thrown on the way. *)
Definition itemOutcome (n : nat) (group : string * list string)
  : AnalysisResult :=
  let page := Json (JStr (fst group)) in
  match (text <~ replyOf (remote n (groupRequest group)) ;;
         cleaned <~ replaceFences text ;;
         summarize page cleaned) with
  | Ok r => r
  | Throw e => Failed page (message e)
  end.

Fixpoint itemOutcomes (n : nat) (groups : list (string * list string))
  : list AnalysisResult :=
  match groups with
  | [] => []
  | group :: rest => itemOutcome n group :: itemOutcomes (S n) rest
  end.

(** The pause the loop makes after the group keyed [pageName]. *)
Definition pauseAfter (groupedFiles : JsObject.t (list string))
  (pageName : string) : list Event :=
  if (indexOf pageName (JsObject.keys groupedFiles)
      <? Z.of_nat (List.length (JsObject.keys groupedFiles)) - 1)%Z
  then [Delay 10000%N] else [].

(** The effects of one turn of the loop. *)
Definition turn (groupedFiles : JsObject.t (list string))
  (group : string * list string) : list Event :=
  Fetch (groupRequest group) :: pauseAfter groupedFiles (fst group).

(** One request per group, in order, and the fixed delay between any two
    neighbours. *)
Definition schedule (groups : list (string * list string)) : list Event :=
  intersperse (Delay 10000%N) (map (fun group => Fetch (groupRequest group)) groups).

End Schedule.

(** Vocabulary for the page-inventory variant. *)
Section PagesVocabulary.
Context {engine : Engine} {world : World}.

(** The property [k] of [page] can be read and rendered as text. *)
Definition printableProperty (page : JValue) (k : Key) : bool :=
  match page with
  | JNull => false
  | JObj fields =>
      match own (key_name k) fields with
      | Some v => printable v
      | None => true
      end
  | _ => true
  end.

(** A page the inventory loop has printed: its path, component and
    description were rendered. *)
Definition presentable (page : JValue) : bool :=
  printableProperty page k_path && printableProperty page k_component
  && printableProperty page k_description.

(** An object or an array: equal to itself only. *)
Definition isReference (page : JValue) : bool :=
  match page with
  | JObj _ | JArr _ => true
  | _ => false
  end.

(** The request made for a page. *)
Definition pageRequest (self : OpenRouterAnalyzer) (context : string)
  (page : JValue) : Request :=
  Pages.chatRequest self
    (Pages.graphqlPrompt
       (match Pages.renderProperty page k_component with
        | Ok component => component
        | Throw _ => EmptyString
        end) context).

(** [page.path]. *)
Definition pathOf (page : JValue) : JsVal :=
  match get (Json page) k_path with
  | Ok v => v
  | Throw _ => Undefined
  end.

(** The record of a presentable page when [n] requests were made before
    its own. *)
Definition pageOutcome (self : OpenRouterAnalyzer) (context : string) (n : nat)
  (page : JValue) : AnalysisResult :=
  match (text <~ pageReplyOf (remote n (pageRequest self context page)) ;;
         cleaned <~ replaceFences text ;;
         Pages.summarize page cleaned) with
  | Ok r => r
  | Throw e => Failed (pathOf page) (message e)
  end.

Fixpoint pageOutcomes (self : OpenRouterAnalyzer) (context : string) (n : nat)
  (pages : list JValue) : list AnalysisResult :=
  match pages with
  | [] => []
  | page :: rest =>
      pageOutcome self context n page :: pageOutcomes self context (S n) rest
  end.

(** One request per page, in order, and the fixed delay between any two
    neighbours. *)
Definition pageSchedule (self : OpenRouterAnalyzer) (context : string)
  (pages : list JValue) : list Event :=
  intersperse (Delay 60000%N)
    (map (fun page => Fetch (pageRequest self context page)) pages).

End PagesVocabulary.

(** Vocabulary for the run of the page-inventory variant. *)
Section PagesRun.
Context {engine : Engine} {world : World}.

(** The request [analyzePages] makes for the inventory. *)
Definition inventoryRequest (self : OpenRouterAnalyzer) (fileContent : string)
  : Request :=
  Pages.chatRequest self (Pages.pagesPrompt fileContent).

(** The inventory read off the reply to that request when [n] requests
    were made before it, or what was thrown on the way. *)
Definition inventoryOf (self : OpenRouterAnalyzer) (fileContent : string)
  (n : nat) : Res JValue :=
  text <~ pageReplyOf (remote n (inventoryRequest self fileContent)) ;;
  cleaned <~ replaceFences text ;;
  JSON_parse cleaned.

(** The pause the loop makes after the page met at position [i]. *)
Definition pagePause (pages : list JValue) (i : nat) (page : JValue)
  : list Event :=
  if (Pages.indexOfPage 0 pages i page <? Z.of_nat (List.length pages) - 1)%Z
  then [Delay 60000%N] else [].

(** The effects of the turns of the loop for the pages [remaining], the
    first of them at position [i]. *)
Fixpoint pageTurns (self : OpenRouterAnalyzer) (context : string)
  (pages : list JValue) (i : nat) (remaining : list JValue) : list Event :=
  match remaining with
  | [] => []
  | page :: rest =>
      (Fetch (pageRequest self context page) :: pagePause pages i page)
        ++ pageTurns self context pages (S i) rest
  end.

End PagesRun.

(** Every request among [events] was made for the model [m], with the
    bearer of [key] and the temperature [temp]. *)
Definition requestsCarry (key : option string) (m temp : string)
  (events : list Event) : Prop :=
  Forall (fun ev =>
            match ev with
            | Fetch request =>
                model_id request = m
                /\ bearer request
                   = ("Bearer " ++ match key with
                                   | Some k => k
                                   | None => "undefined"
                                   end)%string
                /\ temperature request = temp
            | _ => True
            end) events.

(** The keys of [ks] in the order they are first met. *)
Fixpoint firstOccurrences (ks : list string) : list string :=
  match ks with
  | [] => []
  | k :: rest =>
      k :: filter (fun k' => negb (String.eqb k' k)) (firstOccurrences rest)
  end.

(** A key that is no array index. *)
Definition isName (k : string) : bool :=
  match JsObject.array_index k with
  | Some _ => false
  | None => true
  end.

(** [a] is an array index below the array index [b]. *)
Definition indexBelow (a b : string) : Prop :=
  match JsObject.array_index a, JsObject.array_index b with
  | Some i, Some j => (i < j)%N
  | _, _ => False
  end.

(** The block [getFilesContent] makes for a file that was read. *)
Definition fileBlock (file content : string) : string :=
  ("FILE: " ++ file ++ nl ++ content)%string.

(** ** Sample worlds *)

Module Sample.

(** A service that answers every request with one completion whose
    message content is [reply]. *)
Definition completion (reply : string) : string :=
  (quoted "{'choices':[{'message':{'role':'assistant','content':"
   ++ Reference.quote reply ++ "}}]}")%string.

Definition answering (reply : string) : nat -> Request -> FetchOutcome :=
  fun _ _ =>
    Responded {| ok := true; statusText := "OK"; body := Ok (completion reply) |}.

Definition quiet_world (service : nat -> Request -> FetchOutcome) : World := {|
  cwd := "/work";
  readdir := fun _ => Ok [];
  readFile := fun _ => Throw (SystemError "ENOENT: no such file or directory");
  remote := service;
  now := fun _ => "2025-01-02T03:04:05.678Z";
  OPENROUTER_API_KEY := Some "sk-test"
|}.

Definition analyzer : OpenRouterAnalyzer :=
  new_OpenRouterAnalyzer (Some "sk-test") None.

(** A gateway that answers with a successful status and a page of
    markup instead of JSON. *)
Definition markup : nat -> Request -> FetchOutcome :=
  fun _ _ =>
    Responded {| ok := true; statusText := "OK";
                 body := Ok "<html>Bad gateway</html>" |}.

(** A service that refuses every request. *)
Definition refusing : nat -> Request -> FetchOutcome :=
  fun _ _ =>
    Responded {| ok := false; statusText := "Too Many Requests";
                 body := Ok (quoted "{'error':{'message':'rate limited'}}") |}.

(** A gateway that answers with an unsuccessful status and cuts the
    connection before the body has arrived. *)
Definition cut : nat -> Request -> FetchOutcome :=
  fun _ _ =>
    Responded {| ok := false; statusText := "Bad Gateway";
                 body := Throw (TypeError "terminated") |}.

(** The reply of the end-to-end scenario. *)
Definition homeReply : string :=
  quoted "{'queries':[{'name':'GetHome'}],'mutations':[]}".

Definition homeAnalysis : JValue :=
  JObj [("queries", JArr [JObj [("name", JStr "GetHome")]]);
        ("mutations", JArr [])].

(** A reply whose queries hold a [null] item. *)
Definition nullItemReply : string :=
  quoted "{'queries':[null],'mutations':[]}".

(** A reply whose queries and mutations are numbers. *)
Definition scalarReply : string :=
  quoted "{'queries':0,'mutations':0}".

(** A reply with neither property. *)
Definition emptyReply : string := "{}".

(** The files of the group [home]. *)
Definition homeFiles : list string := ["pages/home/Home.jsx"].

(** A reply that is not JSON. *)
Definition proseReply : string := "I cannot answer".

(** Three groups, as the grouper hands them over. *)
Definition threeGroups : JsObject.t (list string) :=
  [("home", ["pages/home/Home.jsx"]);
   ("cart", ["pages/cart/Cart.tsx"; "pages/cart/useCart.ts"]);
   ("about", ["pages/about/About.jsx"])].

(** A repository with two pages that embed operations and one that does
    not. *)
Definition shopTree : list Entry :=
  [Directory "src"
     [Directory "components"
        [Directory "pages"
           [Directory "home"
              [File "Home.jsx" "const q = gql` query GetHome { id } `;"];
            Directory "about"
              [File "About.jsx" "export default () => null;"];
            Directory "cart"
              [File "Cart.tsx" "export const m = graphql`mutation Add { ok }`;";
               File "notes.md" "gql` is mentioned here"]]];
      File "index.js" "import './components';"];
   Special "node_modules";
   File "README.md" "# shop"].

Definition shop_world (service : nat -> Request -> FetchOutcome) : World := {|
  cwd := "/work";
  readdir := fun dir =>
    if String.eqb dir "./repo_to_analyze/shop" then Ok shopTree
    else Throw (SystemError "ENOENT: no such file or directory, scandir");
  readFile := fun _ => Throw (SystemError "ENOENT: no such file or directory");
  remote := service;
  now := fun _ => "2025-01-02T03:04:05.678Z";
  OPENROUTER_API_KEY := Some "sk-test"
|}.

(** An inventory that names the same page twice, as text instead of
    objects. *)
Definition twiceReply : string := quoted "['Home.jsx','Home.jsx']".

(** A service that answers the first request with [first] and every later
    one with [later]. *)
Definition answeringFirst (first later : string) : nat -> Request -> FetchOutcome :=
  fun n request =>
    match n with
    | O => answering first n request
    | S _ => answering later n request
    end.

(** Files of two pages, the second of which is named by a number. *)
Definition numberedFiles : list string :=
  ["pages/home/Home.jsx"; "pages/404/NotFound.jsx"; "pages/home/useHome.ts"].

(** A reply one of whose names is an object that shadows [toString]. *)
Definition shadowedNameReply : string :=
  quoted "{'queries':[{'name':{'toString':1}}],'mutations':[]}".

(** A service that reports its failure in a body sent with a successful
    status, so that the completion has no choices. *)
Definition apologizing : nat -> Request -> FetchOutcome :=
  fun _ _ =>
    Responded {| ok := true; statusText := "OK";
                 body := Ok (quoted "{'error':{'message':'rate limited','code':429}}") |}.

(** A repository with a file that cannot be read but is no source file, and
    one whose pages directory cannot be listed. *)
Definition guardedTree : list Entry :=
  [UnreadableFile "secrets.env" (SystemError "EACCES: permission denied, open");
   Directory "pages" [File "Home.tsx" "export const q = gql`query Q { id }`;"]].

Definition lockedTree : list Entry :=
  [File "index.js" "export {};";
   UnreadableDirectory "pages" (SystemError "EACCES: permission denied, scandir")].

Definition tree_world (dir : string) (tree : list Entry)
  (service : nat -> Request -> FetchOutcome) : World := {|
  cwd := "/work";
  readdir := fun d =>
    if String.eqb d dir then Ok tree
    else Throw (SystemError "ENOENT: no such file or directory, scandir");
  readFile := fun _ => Throw (SystemError "ENOENT: no such file or directory");
  remote := service;
  now := fun _ => "2025-01-02T03:04:05.678Z";
  OPENROUTER_API_KEY := Some "sk-test"
|}.

(** An inventory of two pages, and one whose second page is [null]. *)
Definition inventoryReply : string :=
  quoted "[{'path':'/','component':'Home.jsx','description':'Landing'},{'path':'/cart','component':'Cart.tsx','description':'Basket'}]".

Definition nullPageReply : string :=
  quoted "[{'path':'/','component':'Home.jsx','description':'Landing'},null]".

(** A page whose path is an object that shadows [toString]. *)
Definition shadowedPage : JValue :=
  JObj [("path", JObj [("toString", JNum "1")]); ("component", JStr "Home.jsx")].

(** A working directory that holds the one file of the group [home]. *)
Definition home_world (service : nat -> Request -> FetchOutcome) : World := {|
  cwd := "/work";
  readdir := fun _ => Ok [];
  readFile := fun file =>
    if String.eqb file "pages/home/Home.jsx"
    then Ok "const q = gql` query GetHome { id } `;"
    else Throw (SystemError "ENOENT: no such file or directory");
  remote := service;
  now := fun _ => "2025-01-02T03:04:05.678Z";
  OPENROUTER_API_KEY := Some "sk-test"
|}.

End Sample.

(** * Properties *)

(** ** Strings *)

Section StringFacts.

Lemma startsWith_app (p s : string) : startsWith p (p ++ s) = true.
Proof.
  induction p as [|a p IH]; simpl; [reflexivity|].
  now rewrite Ascii.eqb_refl, IH.
Qed.

Lemma drop_app (p s : string) : drop (String.length p) (p ++ s) = s.
Proof. induction p as [|a p IH]; simpl; auto. Qed.

Lemma replace_leading_app (p s : string) : replace_leading p (p ++ s) = s.
Proof. unfold replace_leading. now rewrite startsWith_app, drop_app. Qed.

Lemma string_length_app (s t : string) :
  String.length (s ++ t) = String.length s + String.length t.
Proof. induction s as [|a s IH]; simpl; auto. Qed.

Lemma replace_trailing_app (p s : string) : replace_trailing p (s ++ p) = s.
Proof.
  induction s as [|a s IH].
  - destruct p; cbn [append replace_trailing]; [reflexivity|].
    now rewrite String.eqb_refl.
  - cbn [append replace_trailing].
    destruct (String.eqb (String a (s ++ p)) p) eqn:E.
    + apply String.eqb_eq in E.
      apply (f_equal String.length) in E. cbn [String.length] in E.
      rewrite string_length_app in E. lia.
    + now rewrite IH.
Qed.

(** Stripping undoes fencing, whatever the text between the fences. *)
Lemma cleanResponse_fenced (j : string) : cleanResponse (fenced j) = j.
Proof.
  unfold cleanResponse, fenced.
  now rewrite replace_leading_app, replace_trailing_app.
Qed.

End StringFacts.

(** ** The monad *)

Section MonadFacts.

Lemma bind_ok {A B : Type} (m : M A) (f : A -> M B) t a t' :
  m t = (Ok a, t') -> bind m f t = f a t'.
Proof. unfold bind. now intros ->. Qed.

Lemma bind_throw {A B : Type} (m : M A) (f : A -> M B) t e t' :
  m t = (Throw e, t') -> bind m f t = (Throw e, t').
Proof. unfold bind. now intros ->. Qed.

Lemma bind_lift {A B : Type} (r : Res A) (f : A -> M B) t :
  bind (lift r) f t = match r with Ok a => f a t | Throw e => (Throw e, t) end.
Proof. unfold bind, lift. now destruct r. Qed.

End MonadFacts.

(** ** Remote analysis client *)

Section ClientFacts.
Context {engine : Engine} {world : World}.

Lemma fetch_eq (request : Request) (t : list Event) :
  fetch request t =
  (match remote (fetch_count t) request with
   | Responded r => Ok r
   | Rejected e => Throw e
   end, t ++ [Fetch request]).
Proof. unfold fetch. now destruct (remote _ _). Qed.

(** One request is made whatever happens, and the outcome only depends on
    what it settled to. *)
Lemma generateContent_eq (self : OpenRouterAnalyzer) (prompt : string) t :
  generateContent self prompt t =
  (match remote (fetch_count t) (chatRequest self prompt) with
   | Rejected e => Throw e
   | Responded r =>
       if ok r then
         match json r with
         | Ok data => Ok {| response_text := fun _ => firstChoiceContent data |}
         | Throw e => Throw e
         end
       else
         match body r with
         | Ok _ => Throw (ApiError (statusText r))
         | Throw e => Throw e
         end
   end, t ++ [Fetch (chatRequest self prompt)]).
Proof.
  unfold generateContent, bind. rewrite fetch_eq.
  destruct (remote _ _) as [e|r]; [reflexivity|].
  destruct (ok r); cbn.
  - unfold lift, ret. now destruct (json r).
  - unfold lift, throw. now destruct (body r).
Qed.

(** The content of a well-formed completion is handed over as it is. *)
Lemma firstChoiceContent_verbatim fields first others ffields mfields c :
  own "choices" fields = Some (JArr (first :: others)) ->
  first = JObj ffields ->
  own "message" ffields = Some (JObj mfields) ->
  own "content" mfields = Some c ->
  firstChoiceContent (JObj fields) = Ok (Json c).
Proof.
  intros Hc -> Hm Hx. unfold firstChoiceContent. cbn.
  rewrite Hc. cbn. rewrite Hm. cbn. now rewrite Hx.
Qed.

(** The per-item analysis never throws and makes exactly one request: its
    result is the success record of the reply, or the error record of
    whatever was thrown on the way. *)
Lemma analyzePageGraphQL_eq (self : OpenRouterAnalyzer)
  (pageFiles : list string) (pageName : string) t :
  let request := chatRequest self (graphqlPrompt pageFiles pageName) in
  let page := Json (JStr pageName) in
  analyzePageGraphQL self pageFiles pageName t =
  (Ok (match (text <~ replyOf (remote (fetch_count t) request) ;;
              cleaned <~ replaceFences text ;;
              summarize page cleaned) with
       | Ok r => r
       | Throw e => Failed page (message e)
       end), t ++ [Fetch request]).
Proof.
  cbv zeta. unfold analyzePageGraphQL, try_catch, bind at 1.
  rewrite generateContent_eq. unfold replyOf.
  destruct (remote _ _) as [e|r]; [reflexivity|].
  destruct (ok r); [|now destruct (body r)].
  destruct (json r) as [data|e]; [|reflexivity].
  cbn [res_bind response_text]. unfold bind, lift, ret.
  destruct (firstChoiceContent data) as [text|e]; [|reflexivity].
  cbn [res_bind].
  destruct (replaceFences text) as [cleaned|e]; [|reflexivity].
  cbn [res_bind].
  now destruct (summarize _ cleaned).
Qed.

End ClientFacts.

(** C2.  Round trip of the reply post-processing: for every valid JSON text
    [j], stripping the fences from the reply made of the opening fence line,
    [j] and the closing fence line, and then parsing what is left, yields the
    value that parsing [j] itself yields. *)
Theorem fenced_reply_round_trip {engine : Engine} (j : string) (v : JValue) :
  JSON_parse j = Ok v ->
  (cleaned <~ replaceFences (Json (JStr (fenced j))) ;; JSON_parse cleaned) = Ok v.
Proof.
  intros Hj. cbn [replaceFences res_bind].
  now rewrite cleanResponse_fenced.
Qed.

Lemma fenced_reply_round_trip_witness :
  (cleaned <~ replaceFences (Json (JStr (fenced Sample.homeReply))) ;;
   Reference.parse cleaned) = Ok Sample.homeAnalysis.
Proof.
  apply (fenced_reply_round_trip (engine := reference_engine) Sample.homeReply).
  reflexivity.
Defined.

(** ** The single call *)

(** C7, as stated, fails: with a successful status the call still throws
    when the body of the response is not JSON. *)
Lemma generateContent_throws_despite_successful_status :
  (exists r, remote (World := Sample.quiet_world Sample.markup) 0
               (chatRequest Sample.analyzer "prompt") = Responded r
             /\ ok r = true)
  /\ exists msg,
       fst (generateContent (engine := reference_engine)
              (world := Sample.quiet_world Sample.markup)
              Sample.analyzer "prompt" [])
       = Throw (SyntaxError msg).
Proof.
  split.
  - eexists. split; reflexivity.
  - eexists. reflexivity.
Qed.

(** C7 (amended).  Whenever the status of the response is not successful the
    single call throws.  In [analyzer.js] the error is the one whose message
    is the fixed prefix followed by the status text, whatever the body.  The
    grouped analyzer reads the body first, to print it: it throws that same
    error when the body can be read, and the error of the read when it
    cannot.  On a successful status either variant throws exactly when the
    body cannot be read or is not JSON, and otherwise returns the reply
    whose text is the content of the first choice's message, read without
    any check of its structure. *)
Theorem generateContent_by_status {engine : Engine} {world : World}
  (self : OpenRouterAnalyzer) (prompt : string) (t : list Event) (r : Response) :
  (remote (fetch_count t) (chatRequest self prompt) = Responded r ->
   let outcome := fst (generateContent self prompt t) in
   (ok r = false ->
      (exists e, outcome = Throw e)
      /\ (forall text, body r = Ok text -> outcome = Throw (ApiError (statusText r)))
      /\ (forall e, body r = Throw e -> outcome = Throw e))
   /\ (ok r = true ->
         match json r with
         | Throw e => outcome = Throw e
         | Ok data =>
             exists g, outcome = Ok g
                       /\ response_text g tt = firstChoiceContent data
         end))
  /\ (remote (fetch_count t) (Pages.chatRequest self prompt) = Responded r ->
      let outcome := fst (Pages.generateContent self prompt t) in
      (ok r = false -> outcome = Throw (ApiError (statusText r)))
      /\ (ok r = true ->
            match json r with
            | Throw e => outcome = Throw e
            | Ok data =>
                exists g, outcome = Ok g
                          /\ response_text g tt = firstChoiceContent data
            end))
  /\ message (ApiError (statusText r))
     = ("API call failed: " ++ statusText r)%string.
Proof.
  split; [|split; [|reflexivity]].
  - intros Hr. cbv zeta. rewrite generateContent_eq, Hr. cbn [fst]. split.
    + intros ->. split; [|split].
      * destruct (body r) as [text|e]; eexists; reflexivity.
      * now intros text ->.
      * now intros e ->.
    + intros ->. destruct (json r) as [data|e]; [|reflexivity].
      eexists. split; reflexivity.
  - intros Hr. cbv zeta. unfold Pages.generateContent, bind.
    rewrite fetch_eq, Hr. split.
    + intros ->. reflexivity.
    + intros ->. cbn [negb]. unfold lift, ret.
      destruct (json r) as [data|e]; [|reflexivity].
      eexists. split; reflexivity.
Qed.

Lemma generateContent_by_status_witness :
  fst (generateContent (engine := reference_engine)
         (world := Sample.quiet_world Sample.refusing)
         Sample.analyzer "prompt" [])
  = Throw (ApiError "Too Many Requests")
  /\ fst (generateContent (engine := reference_engine)
            (world := Sample.quiet_world Sample.cut)
            Sample.analyzer "prompt" [])
     = Throw (TypeError "terminated")
  /\ fst (Pages.generateContent (engine := reference_engine)
            (world := Sample.quiet_world Sample.cut)
            Sample.analyzer "prompt" [])
     = Throw (ApiError "Bad Gateway")
  /\ message (ApiError "Too Many Requests") = "API call failed: Too Many Requests".
Proof.
  split; [|split; [|split]].
  - refine (proj1 (proj2 (proj1 (proj1 (generateContent_by_status
                   (engine := reference_engine)
                   (world := Sample.quiet_world Sample.refusing)
                   Sample.analyzer "prompt" []
                   {| ok := false; statusText := "Too Many Requests";
                      body := Ok (quoted "{'error':{'message':'rate limited'}}") |})
                   eq_refl) eq_refl)) _ eq_refl).
  - refine (proj2 (proj2 (proj1 (proj1 (generateContent_by_status
                   (engine := reference_engine)
                   (world := Sample.quiet_world Sample.cut)
                   Sample.analyzer "prompt" []
                   {| ok := false; statusText := "Bad Gateway";
                      body := Throw (TypeError "terminated") |})
                   eq_refl) eq_refl)) _ eq_refl).
  - refine (proj1 (proj1 (proj2 (generateContent_by_status
                   (engine := reference_engine)
                   (world := Sample.quiet_world Sample.cut)
                   Sample.analyzer "prompt" []
                   {| ok := false; statusText := "Bad Gateway";
                      body := Throw (TypeError "terminated") |}))
                   eq_refl) eq_refl).
  - exact (proj2 (proj2 (generateContent_by_status
                   (engine := reference_engine)
                   (world := Sample.quiet_world Sample.refusing)
                   Sample.analyzer "prompt" []
                   {| ok := false; statusText := "Too Many Requests";
                      body := Ok (quoted "{'error':{'message':'rate limited'}}") |}))).
Defined.

(** ** Rendering and the logging loops *)

Section JValueInduction.
Variable P : JValue -> Prop.
Hypothesis Hnull : P JNull.
Hypothesis Hbool : forall b, P (JBool b).
Hypothesis Hnum : forall literal, P (JNum literal).
Hypothesis Hstr : forall s, P (JStr s).
Hypothesis Harr : forall items, Forall P items -> P (JArr items).
Hypothesis Hobj : forall fields, Forall (fun kv => P (snd kv)) fields -> P (JObj fields).

Fixpoint JValue_nested_ind (v : JValue) : P v :=
  match v with
  | JNull => Hnull
  | JBool b => Hbool b
  | JNum literal => Hnum literal
  | JStr s => Hstr s
  | JArr items =>
      Harr items
        ((fix all (xs : list JValue) : Forall P xs :=
            match xs with
            | [] => Forall_nil P
            | x :: rest => Forall_cons x (JValue_nested_ind x) (all rest)
            end) items)
  | JObj fields =>
      Hobj fields
        ((fix all (kvs : list (string * JValue))
            : Forall (fun kv => P (snd kv)) kvs :=
            match kvs with
            | [] => Forall_nil _
            | kv :: rest =>
                Forall_cons kv (JValue_nested_ind (snd kv)) (all rest)
            end) fields)
  end.
End JValueInduction.

Section LoggingFacts.
Context {engine : Engine}.

(** Rendering succeeds exactly on the printable values. *)
Lemma text_of_printable (v : JValue) :
  printable v = true <-> exists s, text_of v = Ok s.
Proof.
  induction v as [| b | literal | s | items IH | fields _] using JValue_nested_ind.
  - split; [eexists; reflexivity | reflexivity].
  - split; [destruct b; eexists; reflexivity | reflexivity].
  - split; [eexists; reflexivity | reflexivity].
  - split; [eexists; reflexivity | reflexivity].
  - cbn [printable text_of].
    assert (Hall : forallb printable items = true
                   <-> exists ts, elementTexts text_of items = Ok ts).
    { induction IH as [| x rest [Hx1 Hx2] _ IHrest].
      - split; [eexists; reflexivity | reflexivity].
      - cbn [forallb elementTexts]. rewrite andb_true_iff, IHrest.
        split.
        + intros [Hp [ts ->]]. apply Hx1 in Hp as [sx Hsx].
          destruct x; try rewrite Hsx; cbn [res_bind]; eexists; reflexivity.
        + intros [ts Hts].
          destruct (elementTexts text_of rest) as [ts'|e].
          * split; [|eexists; reflexivity].
            apply Hx2.
            destruct x; try (eexists; reflexivity);
              (destruct (text_of _) as [sx|e]; [eexists; reflexivity|discriminate]).
          * destruct x; try discriminate;
              (destruct (text_of _); discriminate). }
    rewrite Hall. split.
    + intros [ts ->]. eexists. reflexivity.
    + intros [s Hs].
      destruct (elementTexts text_of items) as [ts|e]; [|discriminate].
      eexists. reflexivity.
  - cbn [printable text_of]. destruct (own "toString" fields).
    + split; [discriminate | intros [s Hs]; discriminate].
    + split; [eexists; reflexivity | reflexivity].
Qed.

(** The callback of the logging loops gets through exactly the nameable
    items. *)
Lemma logName_nameable (item : JValue) :
  logName item = Ok tt <-> nameable item = true.
Proof.
  unfold logName, nameable.
  destruct item as [| b | literal | s | items | fields]; cbn;
    try (split; [reflexivity | reflexivity]);
    try (split; discriminate).
  destruct (own "name" fields) as [n|]; cbn; [|split; reflexivity].
  split.
  - intros H. apply text_of_printable.
    destruct (text_of n) as [s|e]; [eexists; reflexivity | discriminate].
  - intros H. apply text_of_printable in H as [s ->]. reflexivity.
Qed.

Lemma logName_throws (item : JValue) :
  nameable item = false -> exists e, logName item = Throw e.
Proof.
  intros H. destruct (logName item) as [[]|e] eqn:E; [|eexists; reflexivity].
  apply logName_nameable in E. congruence.
Qed.

Lemma forEachItem_nameable (items : list JValue) :
  forEachItem logName items = Ok tt <-> forallb nameable items = true.
Proof.
  induction items as [|x rest IH]; cbn [forEachItem forallb]; [tauto|].
  rewrite andb_true_iff, <- IH, <- logName_nameable.
  destruct (logName x) as [[]|e]; cbn [res_bind]; intuition discriminate.
Qed.

(** The logging of an array of nameable items goes through. *)
Lemma logOperations_array (analysis : JValue) (k : Key) (items : list JValue) :
  get (Json analysis) k = Ok (Json (JArr items)) ->
  forallb nameable items = true ->
  logOperations analysis k = Ok tt.
Proof.
  intros Hget Hall. unfold logOperations. rewrite Hget.
  cbn [res_bind length_of gt_zero forEach].
  destruct (0 <? List.length items)%nat; [|reflexivity].
  now apply forEachItem_nameable.
Qed.

(** [get] never comes back with a computed length. *)
Lemma get_not_len (v : JsVal) (k : Key) (n : nat) : get v k <> Ok (Len n).
Proof.
  destruct v as [| m | [| b | literal | s | items | fields]]; cbn; try discriminate.
  destruct (own (key_name k) fields); discriminate.
Qed.

(** A property whose length can be read is there and is not [null]. *)
Lemma length_read_present (analysis : JValue) (k : Key) (ops len : JsVal) :
  get (Json analysis) k = Ok ops -> length_of ops = Ok len ->
  present analysis k.
Proof.
  intros Hget Hlen. destruct ops as [| n | x].
  - discriminate.
  - now apply get_not_len in Hget.
  - exists x. split; [exact Hget|]. intros ->. discriminate.
Qed.

Lemma logOperations_ok_present (analysis : JValue) (k : Key) :
  logOperations analysis k = Ok tt -> present analysis k.
Proof.
  unfold logOperations. intros H.
  destruct (get (Json analysis) k) as [ops|e] eqn:Hget; [|discriminate].
  cbn [res_bind] in H.
  destruct (length_of ops) as [len|e] eqn:Hlen; [|discriminate].
  eapply length_read_present; eassumption.
Qed.

(** What a success record tells about the reply it was built from. *)
Lemma summarize_ok (page : JsVal) (cleaned : string) (r : AnalysisResult) :
  summarize page cleaned = Ok r ->
  exists analysis qs ms queryCount mutationCount,
    JSON_parse cleaned = Ok analysis
    /\ logOperations analysis k_queries = Ok tt
    /\ logOperations analysis k_mutations = Ok tt
    /\ get (Json analysis) k_queries = Ok qs /\ length_of qs = Ok queryCount
    /\ get (Json analysis) k_mutations = Ok ms /\ length_of ms = Ok mutationCount
    /\ r = Analysed page analysis queryCount mutationCount.
Proof.
  unfold summarize. intros H.
  destruct (JSON_parse cleaned) as [analysis|e] eqn:Hp; [|discriminate].
  cbn [res_bind] in H.
  destruct (logOperations analysis k_queries) as [[]|e] eqn:Hlq; [|discriminate].
  cbn [res_bind] in H.
  destruct (logOperations analysis k_mutations) as [[]|e] eqn:Hlm; [|discriminate].
  cbn [res_bind] in H.
  destruct (get (Json analysis) k_queries) as [qs|e] eqn:Hq; [|discriminate].
  cbn [res_bind] in H.
  destruct (length_of qs) as [qc|e] eqn:Hqc; [|discriminate].
  cbn [res_bind] in H.
  destruct (get (Json analysis) k_mutations) as [ms|e] eqn:Hm; [|discriminate].
  cbn [res_bind] in H.
  destruct (length_of ms) as [mc|e] eqn:Hmc; [|discriminate].
  cbn [res_bind] in H. injection H as <-.
  exists analysis, qs, ms, qc, mc. repeat split; assumption.
Qed.

Lemma summarize_failed_not_analysed (page : JsVal) (cleaned : string) p msg :
  summarize page cleaned <> Ok (Failed p msg).
Proof.
  intros H. apply summarize_ok in H.
  destruct H as (? & ? & ? & ? & ? & _ & _ & _ & _ & _ & _ & _ & H).
  discriminate.
Qed.

End LoggingFacts.

(** ** The record of one item *)

(** C8, as stated, fails: a reply that parses to an object with a queries
    array and a mutations array yields the error record when an item of the
    arrays is [null], because the logging callback reads its name. *)
Lemma null_item_yields_error_record :
  Reference.parse (cleanResponse Sample.nullItemReply)
  = Ok (JObj [("queries", JArr [JNull]); ("mutations", JArr [])])
  /\ fst (analyzePageGraphQL (engine := reference_engine)
            (world := Sample.quiet_world (Sample.answering Sample.nullItemReply))
            Sample.analyzer Sample.homeFiles "home" [])
     = Ok (Failed (Json (JStr "home"))
             "Cannot read properties of null (reading 'name')").
Proof. split; reflexivity. Qed.

(** The same happens when the name of an item cannot be rendered as text. *)
Lemma shadowed_name_yields_error_record :
  fst (analyzePageGraphQL (engine := reference_engine)
         (world := Sample.quiet_world (Sample.answering Sample.shadowedNameReply))
         Sample.analyzer Sample.homeFiles "home" [])
  = Ok (Failed (Json (JStr "home")) "Cannot convert object to primitive value").
Proof. reflexivity. Qed.

(** C8 (amended).  For every per-item analysis whose reply parses to an
    object with a queries array and a mutations array, none of whose items
    is [null] or has a name that cannot be rendered as text, the result is
    the success record [{page, analysis, queryCount, mutationCount}]:
    [analysis] is the parsed reply and the two counts are the lengths of
    its queries and of its mutations. *)
Theorem analysed_record_of_reply {engine : Engine} {world : World}
  (self : OpenRouterAnalyzer) (pageFiles : list string) (pageName : string)
  (t : list Event) (text : string) (fields : list (string * JValue))
  (qs ms : list JValue) :
  let request := chatRequest self (graphqlPrompt pageFiles pageName) in
  replyOf (remote (fetch_count t) request) = Ok (Json (JStr text)) ->
  JSON_parse (cleanResponse text) = Ok (JObj fields) ->
  own "queries" fields = Some (JArr qs) ->
  own "mutations" fields = Some (JArr ms) ->
  forallb nameable qs = true ->
  forallb nameable ms = true ->
  analyzePageGraphQL self pageFiles pageName t
  = (Ok (Analysed (Json (JStr pageName)) (JObj fields)
           (Len (List.length qs)) (Len (List.length ms))),
     t ++ [Fetch request]).
Proof.
  intros request Hreply Hparse Hq Hm Hqs Hms.
  rewrite analyzePageGraphQL_eq. fold request. rewrite Hreply.
  cbn [res_bind replaceFences]. unfold summarize. rewrite Hparse.
  cbn [res_bind].
  assert (Gq : get (Json (JObj fields)) k_queries = Ok (Json (JArr qs)))
    by (cbn; now rewrite Hq).
  assert (Gm : get (Json (JObj fields)) k_mutations = Ok (Json (JArr ms)))
    by (cbn; now rewrite Hm).
  rewrite (logOperations_array _ _ _ Gq Hqs), (logOperations_array _ _ _ Gm Hms).
  cbn [res_bind]. rewrite Gq, Gm. reflexivity.
Qed.

Lemma analysed_record_of_reply_witness :
  analyzePageGraphQL (engine := reference_engine)
    (world := Sample.quiet_world (Sample.answering Sample.homeReply))
    Sample.analyzer Sample.homeFiles "home" []
  = (Ok (Analysed (Json (JStr "home")) Sample.homeAnalysis (Len 1) (Len 0)),
     [] ++ [Fetch (chatRequest Sample.analyzer
                     (graphqlPrompt
                        (world := Sample.quiet_world (Sample.answering Sample.homeReply))
                        Sample.homeFiles "home"))]).
Proof.
  apply (analysed_record_of_reply (engine := reference_engine)
           (world := Sample.quiet_world (Sample.answering Sample.homeReply))
           Sample.analyzer Sample.homeFiles "home" [] Sample.homeReply
           [("queries", JArr [JObj [("name", JStr "GetHome")]]); ("mutations", JArr [])]
           [JObj [("name", JStr "GetHome")]] []); reflexivity.
Defined.

(** Whatever the service does, a success record comes from a reply that was
    text and parsed, and it holds the parsed reply, which has both
    properties, and the lengths read off them. *)
Lemma analysed_record_origin {engine : Engine} {world : World}
  (self : OpenRouterAnalyzer) (pageFiles : list string) (pageName : string)
  (t : list Event) (page : JsVal) (a : JValue) (queryCount mutationCount : JsVal) :
  fst (analyzePageGraphQL self pageFiles pageName t)
  = Ok (Analysed page a queryCount mutationCount) ->
  exists text qs ms,
    replyOf (remote (fetch_count t)
               (chatRequest self (graphqlPrompt pageFiles pageName)))
    = Ok (Json (JStr text))
    /\ JSON_parse (cleanResponse text) = Ok a
    /\ present a k_queries /\ present a k_mutations
    /\ get (Json a) k_queries = Ok qs /\ length_of qs = Ok queryCount
    /\ get (Json a) k_mutations = Ok ms /\ length_of ms = Ok mutationCount.
Proof.
  rewrite analyzePageGraphQL_eq. cbn [fst].
  destruct (replyOf _) as [reply|e] eqn:Hreply; [|discriminate].
  cbn [res_bind].
  destruct (replaceFences reply) as [cleaned|e] eqn:Hclean; [|discriminate].
  cbn [res_bind].
  destruct (summarize _ cleaned) as [r|e] eqn:Hs; [|discriminate].
  intros H. injection H as Hr.
  apply summarize_ok in Hs.
  destruct Hs as (a' & qs & ms & qc & mc & Ha & Hlq & Hlm & Hq & Hqc & Hm & Hmc & E).
  rewrite E in Hr. injection Hr as ? ? ? ?. subst.
  destruct reply as [| n | [| b | literal | text | items | fields]]; try discriminate.
  cbn in Hclean. injection Hclean as <-.
  exists text, qs, ms. repeat split; try assumption;
    now apply logOperations_ok_present.
Qed.

(** C10, as stated, fails: a reply whose queries and mutations are numbers
    lacks both arrays and still yields a success record, whose counts are
    [undefined]. *)
Lemma scalar_operations_yield_success_record :
  Reference.parse (cleanResponse Sample.scalarReply)
  = Ok (JObj [("queries", JNum "0"); ("mutations", JNum "0")])
  /\ fst (analyzePageGraphQL (engine := reference_engine)
            (world := Sample.quiet_world (Sample.answering Sample.scalarReply))
            Sample.analyzer Sample.homeFiles "home" [])
     = Ok (Analysed (Json (JStr "home"))
             (JObj [("queries", JNum "0"); ("mutations", JNum "0")])
             Undefined Undefined).
Proof. split; reflexivity. Qed.

(** C10 (amended).  A reply that parses as valid JSON but whose queries or
    mutations property is missing or [null] never produces a success
    record: the read of its length throws inside the [try] block and the
    [catch] turns it into the record [{page, error}], as for a reply that
    does not parse; so the analysis of every success record is the parsed
    reply and has both properties, neither of them [null]. *)
Theorem success_needs_both_properties {engine : Engine} {world : World}
  (self : OpenRouterAnalyzer) (pageFiles : list string) (pageName : string)
  (t : list Event) (text : string) (analysis : JValue) :
  let request := chatRequest self (graphqlPrompt pageFiles pageName) in
  replyOf (remote (fetch_count t) request) = Ok (Json (JStr text)) ->
  JSON_parse (cleanResponse text) = Ok analysis ->
  (~ (present analysis k_queries /\ present analysis k_mutations) ->
   exists msg,
     analyzePageGraphQL self pageFiles pageName t
     = (Ok (Failed (Json (JStr pageName)) msg), t ++ [Fetch request]))
  /\ (forall page a queryCount mutationCount,
        fst (analyzePageGraphQL self pageFiles pageName t)
        = Ok (Analysed page a queryCount mutationCount) ->
        a = analysis /\ present a k_queries /\ present a k_mutations).
Proof.
  intros request Hreply Hparse.
  rewrite analyzePageGraphQL_eq. fold request. rewrite Hreply.
  cbn [res_bind replaceFences fst].
  destruct (summarize (Json (JStr pageName)) (cleanResponse text)) as [r|e] eqn:Hs.
  - apply summarize_ok in Hs.
    destruct Hs as (a & qs & ms & qc & mc & Ha & Hlq & Hlm & _ & _ & _ & _ & ->).
    rewrite Hparse in Ha. injection Ha as <-.
    apply logOperations_ok_present in Hlq, Hlm. split.
    + intros Hnot. exfalso. apply Hnot. now split.
    + intros page a qc' mc' H. injection H as <- <- <- <-. now repeat split.
  - split.
    + intros _. eexists. reflexivity.
    + intros page a qc mc H. discriminate.
Qed.

Lemma success_needs_both_properties_witness :
  exists msg,
    analyzePageGraphQL (engine := reference_engine)
      (world := Sample.quiet_world (Sample.answering Sample.emptyReply))
      Sample.analyzer Sample.homeFiles "home" []
    = (Ok (Failed (Json (JStr "home")) msg),
       [] ++ [Fetch (chatRequest Sample.analyzer
                       (graphqlPrompt
                          (world := Sample.quiet_world (Sample.answering Sample.emptyReply))
                          Sample.homeFiles "home"))]).
Proof.
  refine (proj1 (success_needs_both_properties (engine := reference_engine)
                   (world := Sample.quiet_world (Sample.answering Sample.emptyReply))
                   Sample.analyzer Sample.homeFiles "home" [] Sample.emptyReply
                   (JObj []) _ _) _).
  - reflexivity.
  - reflexivity.
  - intros [[x [H _]] _]. discriminate.
Defined.

(** ** Orchestration loop *)

Section LoopFacts.
Context {engine : Engine} {world : World}.
Variable self : OpenRouterAnalyzer.

Lemma fetch_count_app (t u : list Event) :
  fetch_count (t ++ u) = fetch_count t + fetch_count u.
Proof. unfold fetch_count. now rewrite filter_app, List.length_app. Qed.

Lemma analyzePageGraphQL_outcome (files : list string) (pageName : string) t :
  analyzePageGraphQL self files pageName t
  = (Ok (itemOutcome self (fetch_count t) (pageName, files)),
     t ++ [Fetch (groupRequest self (pageName, files))]).
Proof. now rewrite analyzePageGraphQL_eq. Qed.

Lemma fetch_count_pause (g : JsObject.t (list string)) (k : string) :
  fetch_count (pauseAfter g k) = 0.
Proof. unfold pauseAfter. now destruct (_ <? _)%Z. Qed.

(** The loop never throws: it yields one record per remaining item, in
    order, and performs the effects of one turn after the other. *)
Lemma analyzeGroups_eq (g : JsObject.t (list string))
  (remaining : list (string * list string)) :
  forall (results : list AnalysisResult) (t : list Event),
    analyzeGroups self g remaining results t
    = (Ok (results ++ itemOutcomes self (fetch_count t) remaining),
       t ++ flat_map (turn self g) remaining).
Proof.
  induction remaining as [|[pageName files] rest IH]; intros results t.
  - cbn. now rewrite !app_nil_r.
  - cbn [analyzeGroups itemOutcomes flat_map].
    unfold bind at 1. rewrite analyzePageGraphQL_outcome.
    unfold bind at 1, turn at 1, pauseAfter. cbn [fst snd].
    destruct (_ <? _)%Z.
    + unfold delay, emit. rewrite IH.
      rewrite !fetch_count_app. cbn [fetch_count filter is_fetch List.length].
      rewrite <- !app_assoc. cbn [app].
      now replace (fetch_count t + 1 + 0) with (S (fetch_count t)) by lia.
    + unfold ret. rewrite IH.
      rewrite !fetch_count_app. cbn [fetch_count filter is_fetch List.length].
      rewrite <- !app_assoc. cbn [app].
      now replace (fetch_count t + 1) with (S (fetch_count t)) by lia.
Qed.

Lemma indexFrom_found (i : Z) (k : string) (before after : list string) :
  ~ In k before ->
  indexFrom i k (before ++ k :: after) = (i + Z.of_nat (List.length before))%Z.
Proof.
  revert i. induction before as [|y before IH]; intros i Hnot; cbn.
  - rewrite String.eqb_refl. lia.
  - destruct (String.eqb y k) eqn:E.
    + apply String.eqb_eq in E. subst. exfalso. apply Hnot. now left.
    + rewrite IH by (intros H; apply Hnot; now right). lia.
Qed.

(** With distinct keys the pause is made after every group but the last. *)
Lemma pauseAfter_position (done rest : list (string * list string))
  (group : string * list string) :
  NoDup (JsObject.keys (done ++ group :: rest)) ->
  pauseAfter (done ++ group :: rest) (fst group)
  = match rest with [] => [] | _ :: _ => [Delay 10000%N] end.
Proof.
  unfold pauseAfter, JsObject.keys, indexOf. intros Hnd.
  rewrite map_app in *. cbn [map] in *.
  rewrite indexFrom_found by (apply NoDup_remove_2 in Hnd; intros H; apply Hnd, in_or_app; now left).
  rewrite List.length_app. cbn [List.length]. rewrite !length_map.
  destruct rest as [|x rest]; cbn [List.length].
  - replace (_ <? _)%Z with false; [reflexivity|]. symmetry. apply Z.ltb_ge. lia.
  - replace (_ <? _)%Z with true; [reflexivity|]. symmetry. apply Z.ltb_lt. lia.
Qed.

Lemma turns_schedule (remaining done : list (string * list string)) :
  NoDup (JsObject.keys (done ++ remaining)) ->
  flat_map (turn self (done ++ remaining)) remaining = schedule self remaining.
Proof.
  revert done. induction remaining as [|group rest IH]; intros done Hnd.
  - reflexivity.
  - cbn [flat_map]. unfold turn at 1. rewrite pauseAfter_position by exact Hnd.
    replace (done ++ group :: rest) with ((done ++ [group]) ++ rest) in *
      by (now rewrite <- app_assoc).
    rewrite IH by exact Hnd.
    unfold schedule. destruct rest; reflexivity.
Qed.

Lemma schedule_fetches (groups : list (string * list string)) :
  filter is_fetch (schedule self groups)
  = map (fun group => Fetch (groupRequest self group)) groups.
Proof.
  unfold schedule. induction groups as [|g [|g' rest] IH]; try reflexivity.
  cbn [map intersperse filter is_fetch] in *. now rewrite IH.
Qed.



Lemma itemOutcomes_pages (n : nat) (groups : list (string * list string)) :
  map pageOf (itemOutcomes self n groups)
  = map (fun group => Json (JStr (fst group))) groups.
Proof.
  revert n. induction groups as [|group rest IH]; intros n; [reflexivity|].
  cbn [itemOutcomes map]. rewrite IH. f_equal.
  unfold itemOutcome.
  destruct (res_bind _ _) as [r|e] eqn:E; [|reflexivity].
  destruct (replyOf _) as [text|?]; [|discriminate].
  cbn [res_bind] in E.
  destruct (replaceFences text) as [cleaned|?]; [|discriminate].
  cbn [res_bind] in E. apply summarize_ok in E.
  destruct E as (? & ? & ? & ? & ? & _ & _ & _ & _ & _ & _ & _ & ->).
  reflexivity.
Qed.

Lemma itemOutcomes_length (n : nat) (groups : list (string * list string)) :
  List.length (itemOutcomes self n groups) = List.length groups.
Proof.
  revert n. induction groups as [|group rest IH]; intros n; cbn; auto.
Qed.

Lemma turns_no_write (g : JsObject.t (list string))
  (remaining : list (string * list string)) :
  filter is_write (flat_map (turn self g) remaining) = [].
Proof.
  induction remaining as [|group rest IH]; [reflexivity|].
  cbn [flat_map]. rewrite filter_app, IH, app_nil_r.
  unfold turn, pauseAfter. now destruct (_ <? _)%Z.
Qed.

End LoopFacts.

(** C3.  For every per-item analysis whose fence-stripped reply text is not
    valid JSON, the analysis of the item does not raise: it returns the
    error record [{page, error: message}] instead of a success record, and
    the enclosing loop goes on with the items that remain, whose requests
    and records follow. *)
Theorem unparsable_reply_yields_error_record {engine : Engine} {world : World}
  (self : OpenRouterAnalyzer) (groupedFiles : JsObject.t (list string))
  (pageName : string) (files : list string)
  (rest : list (string * list string)) (results : list AnalysisResult)
  (t : list Event) (text : string) (e : JsError) :
  let request := groupRequest self (pageName, files) in
  let record := Failed (Json (JStr pageName)) (message e) in
  replyOf (remote (fetch_count t) request) = Ok (Json (JStr text)) ->
  JSON_parse (cleanResponse text) = Throw e ->
  analyzePageGraphQL self files pageName t = (Ok record, t ++ [Fetch request])
  /\ analyzeGroups self groupedFiles ((pageName, files) :: rest) results t
     = (Ok (results ++ record :: itemOutcomes self (S (fetch_count t)) rest),
        t ++ Fetch request :: pauseAfter groupedFiles pageName
          ++ flat_map (turn self groupedFiles) rest).
Proof.
  intros request record Hreply Hparse.
  assert (Hitem : itemOutcome self (fetch_count t) (pageName, files) = record).
  { unfold itemOutcome. cbn [fst snd]. fold request. rewrite Hreply.
    cbn [res_bind replaceFences]. unfold summarize. now rewrite Hparse. }
  split.
  - now rewrite analyzePageGraphQL_outcome, Hitem.
  - rewrite analyzeGroups_eq. cbn [itemOutcomes flat_map]. now rewrite Hitem.
Qed.

Lemma unparsable_reply_yields_error_record_witness :
  analyzePageGraphQL (engine := reference_engine)
    (world := Sample.quiet_world (Sample.answering Sample.proseReply))
    Sample.analyzer ["pages/home/Home.jsx"] "home" []
  = (Ok (Failed (Json (JStr "home")) "Unexpected token in JSON"),
     [] ++ [Fetch (groupRequest
                     (world := Sample.quiet_world (Sample.answering Sample.proseReply))
                     Sample.analyzer ("home", ["pages/home/Home.jsx"]))]).
Proof.
  refine (proj1 (unparsable_reply_yields_error_record
                   (engine := reference_engine)
                   (world := Sample.quiet_world (Sample.answering Sample.proseReply))
                   Sample.analyzer Sample.threeGroups "home" ["pages/home/Home.jsx"]
                   (tl Sample.threeGroups) [] [] Sample.proseReply
                   (SyntaxError "Unexpected token in JSON") _ _)); reflexivity.
Defined.

(** ** The run *)

Section RunFacts.
Context {engine : Engine} {world : World}.

Lemma analyzeGroupedFiles_eq (self : OpenRouterAnalyzer)
  (g : JsObject.t (list string)) (t : list Event) :
  analyzeGroupedFiles self g t
  = (Ok (itemOutcomes self (fetch_count t) g), t ++ flat_map (turn self g) g).
Proof. unfold analyzeGroupedFiles. now rewrite analyzeGroups_eq. Qed.

End RunFacts.

(** C9.  For every run that reaches the aggregation stage, the output
    sequence holds exactly one record, success or error, per processed
    item, in processing order, and the pretty-printed output file is
    written once, at the end of the run, however many of the items produced
    an error record, all of them included. *)
Theorem main_writes_results_once {engine : Engine} {world : World}
  (filePath : string) (model : option string) (t : list Event)
  (files : list string) :
  let repoPath := ("./repo_to_analyze/" ++ filePath)%string in
  let analyzer := new_OpenRouterAnalyzer OPENROUTER_API_KEY model in
  let groupedFiles :=
    groupFilesByPagesFolder cwd files (repoPath ++ "/src/components/pages")%string in
  findGraphQLFiles repoPath = Ok files ->
  exists (results : list AnalysisResult) (t' : list Event),
    analyzeGroupedFiles analyzer groupedFiles t = (Ok results, t')
    /\ results = itemOutcomes analyzer (fetch_count t) (JsObject.entries groupedFiles)
    /\ map pageOf results
       = map (fun group => Json (JStr (fst group))) (JsObject.entries groupedFiles)
    /\ List.length results = List.length (JsObject.entries groupedFiles)
    /\ filter is_write t' = filter is_write t
    /\ main filePath model t
       = (Ok tt,
          t' ++ [WriteFile ("analysis-" ++ dashed (now t') ++ ".json")
                   (JSON_stringify results)]).
Proof.
  intros repoPath analyzer groupedFiles Hscan.
  exists (itemOutcomes analyzer (fetch_count t) groupedFiles),
         (t ++ flat_map (turn analyzer groupedFiles) groupedFiles).
  split; [apply analyzeGroupedFiles_eq|].
  split; [reflexivity|].
  split; [apply itemOutcomes_pages|].
  split; [apply itemOutcomes_length|].
  split; [now rewrite filter_app, turns_no_write, app_nil_r|].
  unfold main. fold repoPath. unfold scanForGraphQLTags. rewrite Hscan.
  cbn [res_bind]. unfold repoPath at 1. cbn [append String.eqb].
  rewrite bind_lift. fold repoPath. fold groupedFiles. fold analyzer.
  unfold bind at 1. rewrite analyzeGroupedFiles_eq.
  reflexivity.
Qed.

Lemma main_writes_results_once_witness :
  exists (results : list AnalysisResult) (t' : list Event),
    results = [Failed (Json (JStr "home")) "API call failed: Too Many Requests";
               Failed (Json (JStr "cart")) "API call failed: Too Many Requests"]
    /\ filter is_write t' = []
    /\ main (engine := reference_engine)
         (world := Sample.shop_world Sample.refusing) "shop" None []
       = (Ok tt,
          t' ++ [WriteFile "analysis-2025-01-02T03-04-05-678Z.json"
                   (Reference.stringify results)]).
Proof.
  destruct (main_writes_results_once (engine := reference_engine)
              (world := Sample.shop_world Sample.refusing) "shop" None []
              ["repo_to_analyze/shop/src/components/pages/home/Home.jsx";
               "repo_to_analyze/shop/src/components/pages/cart/Cart.tsx"]
              eq_refl)
    as (results & t' & _ & Hres & _ & _ & Hw & Hmain).
  exists results, t'. split; [exact Hres|]. split; [exact Hw|]. exact Hmain.
Defined.

(** ** File scanner *)

Section EntryInduction.
Variable P : Entry -> Prop.
Hypothesis Hfile : forall name content, P (File name content).
Hypothesis Hnofile : forall name e, P (UnreadableFile name e).
Hypothesis Hdir : forall name entries, Forall P entries -> P (Directory name entries).
Hypothesis Hnodir : forall name e, P (UnreadableDirectory name e).
Hypothesis Hspecial : forall name, P (Special name).

Fixpoint Entry_nested_ind (e : Entry) : P e :=
  match e with
  | File name content => Hfile name content
  | UnreadableFile name err => Hnofile name err
  | Directory name entries =>
      Hdir name entries
        ((fix all (es : list Entry) : Forall P es :=
            match es with
            | [] => Forall_nil P
            | x :: rest => Forall_cons x (Entry_nested_ind x) (all rest)
            end) entries)
  | UnreadableDirectory name err => Hnodir name err
  | Special name => Hspecial name
  end.
End EntryInduction.

Section ScannerFacts.

(** Descending into a directory is the loop over its entries. *)
Lemma processEntry_directory (cur name : string) (entries : list Entry)
  (files : list string) :
  processEntry cur (Directory name entries) files
  = processDirectory (Path.join2 cur name) entries files.
Proof.
  cbn [processEntry]. revert files.
  induction entries as [|e rest IH]; intros files; [reflexivity|].
  cbn [processDirectory].
  destruct (processEntry (Path.join2 cur name) e files) as [files'|err];
    cbn [res_bind]; [apply IH | reflexivity].
Qed.

Lemma entriesScan_of_each (entries : list Entry) :
  Forall entryScan entries -> entriesScan entries.
Proof.
  induction 1 as [|e rest He _ IH]; intros cur acc Hr.
  - exists []. cbn. rewrite app_nil_r. repeat split; try tauto.
    intros (n & c & (e & [] & _) & _).
  - cbn [readable forallb] in Hr. apply andb_true_iff in Hr as [Hre Hrr].
    destruct (He cur acc Hre) as (f1 & E1 & M1 & L1).
    destruct (IH cur (acc ++ f1) Hrr) as (f2 & E2 & M2 & L2).
    exists (f1 ++ f2). cbn [processDirectory]. rewrite E1. cbn [res_bind].
    rewrite E2, app_assoc. split; [reflexivity|]. split.
    + intros p. rewrite in_app_iff, M1, M2. split.
      * intros [(n & c & Hin & Hq) | (n & c & (e' & He' & Hin) & Hq)].
        -- exists n, c. split; [|exact Hq]. exists e. split; [now left | exact Hin].
        -- exists n, c. split; [|exact Hq]. exists e'. split; [now right | exact Hin].
      * intros (n & c & (e' & [<- | He'] & Hin) & Hq).
        -- left. now exists n, c.
        -- right. exists n, c. split; [|exact Hq]. now exists e'.
    + rewrite List.length_app, L1, L2. reflexivity.

Qed.

Lemma entryScan_all (e : Entry) : entryScan e.
Proof.
  induction e as [name content | name err | name entries IH | name err | name]
    using Entry_nested_ind; intros cur acc Hr.
  - cbn [processEntry countFilesIn]. unfold qualifies at 2.
    destruct (hasSourceExtension name) eqn:Hext;
      [destruct (hasGraphQLTag content) eqn:Htag|]; cbn [andb].
    + exists [Path.join2 cur name]. split; [reflexivity|]. split; [|reflexivity].
      intros p. cbn [In]. split.
      * intros [<- | []]. exists name, content. split; [constructor|].
        unfold qualifies. now rewrite Hext, Htag.
      * intros (n & c & Hin & _). inversion Hin. now left.
    + exists []. rewrite app_nil_r. split; [reflexivity|]. split; [|reflexivity].
      intros p. split; [intros []|].
      intros (n & c & Hin & Hq). inversion Hin; subst.
      unfold qualifies in Hq. rewrite Hext, Htag in Hq. discriminate.
    + exists []. rewrite app_nil_r. split; [reflexivity|]. split; [|reflexivity].
      intros p. split; [intros []|].
      intros (n & c & Hin & Hq). inversion Hin; subst.
      unfold qualifies in Hq. rewrite Hext in Hq. discriminate.
  - cbn [readableEntry] in Hr. apply negb_true_iff in Hr.
    exists []. cbn [processEntry]. rewrite Hr, app_nil_r.
    split; [reflexivity|]. split; [|reflexivity].
    intros p. split; [intros []|]. intros (n & c & Hin & _). inversion Hin.
  - rewrite processEntry_directory.
    destruct (entriesScan_of_each entries IH (Path.join2 cur name) acc Hr)
      as (found & E & Mem & L).
    exists found. split; [exact E|]. split; [|exact L].
    intros p. rewrite Mem. split.
    + intros (n & c & (e & He & Hin) & Hq). exists n, c. split; [|exact Hq].
      econstructor; eassumption.
    + intros (n & c & Hin & Hq). exists n, c. split; [|exact Hq].
      inversion Hin; subst. eexists. split; eassumption.
  - discriminate.
  - exists []. cbn [processEntry]. rewrite app_nil_r.
    split; [reflexivity|]. split; [|reflexivity].
    intros p. split; [intros []|]. intros (n & c & Hin & _). inversion Hin.
Qed.

Lemma processDirectory_scan (entries : list Entry) : entriesScan entries.
Proof.
  apply entriesScan_of_each, Forall_forall. intros e _. apply entryScan_all.
Qed.



End ScannerFacts.



(** ** Paths *)

Section PathFacts.

Lemma split_on_segment (s : string) :
  segmentLike s = true -> split_on Path.sep s = [s].
Proof.
  induction s as [|c s IH]; cbn [segmentLike split_on]; [reflexivity|].
  intros H. apply andb_true_iff in H as [Hc Hs]. apply negb_true_iff in Hc.
  now rewrite Hc, IH.
Qed.

Lemma split_on_segment_app (s t : string) :
  segmentLike s = true ->
  split_on Path.sep (s ++ String Path.sep t) = s :: split_on Path.sep t.
Proof.
  induction s as [|c s IH]; cbn [segmentLike split_on append].
  - intros _. now rewrite Ascii.eqb_refl.
  - intros H. apply andb_true_iff in H as [Hc Hs]. apply negb_true_iff in Hc.
    now rewrite Hc, IH.
Qed.

(** The first piece of the joined segments is the first segment. *)
Lemma split_join_head (s : string) (rest : list string) :
  segmentLike s = true ->
  hd EmptyString (split_on Path.sep (join "/" (s :: rest))) = s.
Proof.
  intros Hs. destruct rest as [|r rest].
  - cbn [join]. now rewrite split_on_segment.
  - change (join "/" (s :: r :: rest))
      with (s ++ String Path.sep (join "/" (r :: rest)))%string.
    now rewrite split_on_segment_app.
Qed.

Lemma split_on_segments (s : string) :
  Forall (fun seg => segmentLike seg = true) (split_on Path.sep s).
Proof.
  induction s as [|c s IH]; cbn [split_on].
  - now constructor.
  - destruct (Ascii.eqb c Path.sep) eqn:E.
    + now constructor.
    + destruct (split_on Path.sep s) as [|seg segs].
      * constructor; [cbn; now rewrite E | constructor].
      * inversion IH; subst. constructor; [cbn; now rewrite E | assumption].
Qed.

Lemma normalizeString_segments (above : bool) (segs : list string) :
  forall res,
    Forall (fun seg => segmentLike seg = true) segs ->
    Forall (fun seg => segmentLike seg = true) res ->
    Forall (fun seg => segmentLike seg = true) (Path.normalizeString above segs res).
Proof.
  induction segs as [|seg segs IH]; intros res Hsegs Hres; cbn [Path.normalizeString].
  - now apply Forall_rev.
  - inversion Hsegs; subst.
    destruct (String.eqb seg EmptyString); [now apply IH|].
    destruct (String.eqb seg "."); [now apply IH|].
    destruct (String.eqb seg "..").
    + destruct res as [|last res'].
      * apply IH; [assumption|]. destruct above; repeat constructor.
      * inversion Hres; subst.
        destruct (String.eqb last "..");
          apply IH; try assumption.
        destruct above; [constructor; [reflexivity|assumption] | assumption].
    + apply IH; [assumption|]. now constructor.
Qed.

Lemma resolve_segments (cwd p : string) :
  Forall (fun seg => segmentLike seg = true) (Path.resolve cwd p).
Proof.
  unfold Path.resolve. apply normalizeString_segments;
    [apply split_on_segments | constructor].
Qed.

(** [diverge] cuts a common prefix off both lists. *)
Lemma diverge_common (from to up down : list string) :
  Path.diverge from to = (up, down) ->
  exists common, from = common ++ up /\ to = common ++ down.
Proof.
  revert to up down. induction from as [|a from IH]; intros to up down H.
  - cbn in H. injection H as <- <-. now exists [].
  - destruct to as [|b to]; cbn in H.
    + injection H as <- <-. now exists [].
    + destruct (String.eqb a b) eqn:E.
      * apply String.eqb_eq in E as ->.
        destruct (IH _ _ _ H) as (common & -> & ->). now exists (b :: common).
      * injection H as <- <-. now exists [].
Qed.

Lemma diverge_prefix (from more : list string) :
  Path.diverge from (from ++ more) = ([], more).
Proof.
  induction from as [|a from IH]; cbn; [now destruct more|].
  now rewrite String.eqb_refl.
Qed.

(** A file below the pages root is keyed by the segment that follows the
    root in its path. *)
Lemma topLevelFolder_inside (cwd pagesPath file seg : string) (more : list string) :
  Path.resolve cwd file = Path.resolve cwd pagesPath ++ seg :: more ->
  topLevelFolder cwd pagesPath file = seg.
Proof.
  intros H. unfold topLevelFolder, Path.relative.
  rewrite H, diverge_prefix. cbn [map app].
  apply split_join_head.
  pose proof (resolve_segments cwd file) as Hall. rewrite H in Hall.
  apply Forall_app in Hall as [_ Hall]. now inversion Hall.
Qed.

(** A file that is not below the pages root is keyed by [..]. *)
Lemma topLevelFolder_outside (cwd pagesPath file : string) :
  (forall more, Path.resolve cwd file <> Path.resolve cwd pagesPath ++ more) ->
  topLevelFolder cwd pagesPath file = "..".
Proof.
  intros Hout. unfold topLevelFolder, Path.relative.
  destruct (Path.diverge _ _) as [up down] eqn:E.
  apply diverge_common in E as (common & Hfrom & Hto).
  destruct up as [|u up].
  - exfalso. apply (Hout down). rewrite Hfrom, app_nil_r. exact Hto.
  - cbn [map app]. now apply split_join_head.
Qed.

End PathFacts.

(** ** The insertion-ordered map *)

Section MapFacts.
Context {V : Type}.
Implicit Types (m : JsMap.t V) (k : string) (v : V).

Lemma has_get k m :
  JsMap.has k m = match JsMap.get k m with Some _ => true | None => false end.
Proof.
  induction m as [|[k' v'] m IH]; cbn; [reflexivity|].
  destruct (String.eqb k' k); cbn; [reflexivity | exact IH].
Qed.

Lemma has_keys k m : JsMap.has k m = true <-> In k (map fst m).
Proof.
  induction m as [|[k' v'] m IH]; cbn; [intuition discriminate|].
  rewrite orb_true_iff, IH, String.eqb_eq. tauto.
Qed.

Lemma get_set k k0 v m :
  JsMap.get k (JsMap.set k0 v m)
  = if String.eqb k0 k then Some v else JsMap.get k m.
Proof.
  induction m as [|[k' v'] m IH]; cbn; [reflexivity|].
  destruct (String.eqb k' k0) eqn:E0; cbn.
  - apply String.eqb_eq in E0 as ->. now destruct (String.eqb k0 k).
  - rewrite IH. destruct (String.eqb k' k) eqn:E; [|reflexivity].
    apply String.eqb_eq in E as ->.
    rewrite String.eqb_sym in E0. now rewrite E0.
Qed.

Lemma get_update k k0 (f : V -> V) m :
  JsMap.get k (JsMap.update k0 f m)
  = if String.eqb k0 k then option_map f (JsMap.get k m) else JsMap.get k m.
Proof.
  induction m as [|[k' v'] m IH]; cbn; [now destruct (String.eqb k0 k)|].
  destruct (String.eqb k' k0) eqn:E0; cbn.
  - apply String.eqb_eq in E0 as ->. now destruct (String.eqb k0 k).
  - rewrite IH. destruct (String.eqb k' k) eqn:E; [|reflexivity].
    apply String.eqb_eq in E as ->.
    rewrite String.eqb_sym in E0. now rewrite E0.
Qed.

Lemma keys_update k (f : V -> V) m :
  map fst (JsMap.update k f m) = map fst m.
Proof.
  induction m as [|[k' v'] m IH]; cbn; [reflexivity|].
  destruct (String.eqb k' k); cbn; [reflexivity | now rewrite IH].
Qed.

Lemma set_new k v m : JsMap.has k m = false -> JsMap.set k v m = m ++ [(k, v)].
Proof.
  induction m as [|[k' v'] m IH]; cbn; [reflexivity|].
  intros H. apply orb_false_iff in H as [E H]. rewrite E. now rewrite IH.
Qed.

Lemma update_last k (f : V -> V) v m :
  JsMap.has k m = false ->
  JsMap.update k f (m ++ [(k, v)]) = m ++ [(k, f v)].
Proof.
  induction m as [|[k' v'] m IH]; cbn.
  - now rewrite String.eqb_refl.
  - intros H. apply orb_false_iff in H as [E H]. rewrite E. now rewrite IH.
Qed.

Lemma has_last k v m : JsMap.has k (m ++ [(k, v)]) = true.
Proof.
  apply has_keys. rewrite map_app. apply in_or_app. right. now left.
Qed.

(** With distinct keys, membership is lookup. *)
Lemma in_get k v m :
  NoDup (map fst m) -> (In (k, v) m <-> JsMap.get k m = Some v).
Proof.
  induction m as [|[k' v'] m IH]; cbn; [intuition discriminate|].
  intros Hnd. inversion Hnd as [|? ? Hnot Hnd']; subst.
  destruct (String.eqb k' k) eqn:E.
  - apply String.eqb_eq in E as ->. split.
    + intros [H | H]; [now injection H as -> |].
      exfalso. apply Hnot. change k with (fst (k, v)). now apply in_map.
    + intros H. injection H as ->. now left.
  - rewrite <- (IH Hnd'). split; [|tauto].
    intros [H | H]; [|exact H]. injection H as -> _.
    rewrite String.eqb_refl in E. discriminate.
Qed.

End MapFacts.

(** ** Grouper: the map built by the loop *)

Section GroupingFacts.
Variables cwd pagesPath : string.

Local Abbreviation key := (topLevelFolder cwd pagesPath).
Local Abbreviation step := (groupFile cwd pagesPath).

Lemma get_groupFile (k : string) (m : JsMap.t (list string)) (file : string) :
  JsMap.get k (step m file)
  = if String.eqb (key file) k
    then Some (match JsMap.get k m with Some v => v | None => [] end ++ [file])
    else JsMap.get k m.
Proof.
  unfold groupFile. rewrite get_update.
  destruct (String.eqb (key file) k) eqn:E.
  - apply String.eqb_eq in E as <-. rewrite has_get.
    destruct (JsMap.get (key file) m) as [v|] eqn:G; cbn [negb].
    + now rewrite G.
    + now rewrite get_set, String.eqb_refl.
  - destruct (negb (JsMap.has (key file) m)); [|reflexivity].
    now rewrite get_set, E.
Qed.

Lemma keys_groupFile (m : JsMap.t (list string)) (file : string) :
  map fst (step m file)
  = if JsMap.has (key file) m then map fst m else map fst m ++ [key file].
Proof.
  unfold groupFile. rewrite keys_update.
  destruct (JsMap.has (key file) m) eqn:H; cbn [negb]; [reflexivity|].
  now rewrite set_new, map_app.
Qed.

Lemma nodup_groupFile (m : JsMap.t (list string)) (file : string) :
  NoDup (map fst m) -> NoDup (map fst (step m file)).
Proof.
  intros Hnd. rewrite keys_groupFile.
  destruct (JsMap.has (key file) m) eqn:H; [exact Hnd|].
  apply NoDup_app; [exact Hnd | repeat constructor; intros [] |].
  intros k Hin [<- | []].
  apply has_keys in Hin. congruence.
Qed.

Lemma nodup_grouped (files : list string) :
  forall m, NoDup (map fst m) -> NoDup (map fst (fold_left step files m)).
Proof.
  induction files as [|file rest IH]; intros m Hnd; cbn [fold_left]; [exact Hnd|].
  apply IH, nodup_groupFile, Hnd.
Qed.

(** What the map holds under [k] after the loop went through [files]. *)
Lemma get_grouped (k : string) (files : list string) :
  forall m,
    JsMap.get k (fold_left step files m)
    = match JsMap.get k m, groupOf key files k with
      | None, [] => None
      | o, l => Some (match o with Some v => v | None => [] end ++ l)
      end.
Proof.
  induction files as [|file rest IH]; intros m; cbn [fold_left groupOf filter].
  - destruct (JsMap.get k m); [now rewrite app_nil_r | reflexivity].
  - rewrite IH, get_groupFile. fold (groupOf key rest k).
    destruct (String.eqb (key file) k).
    + rewrite <- app_assoc. cbn [app].
      now destruct (JsMap.get k m).
    + reflexivity.
Qed.

(** The map after the loop: one entry per key met, holding the files of
    that key in the order they came. *)
Lemma grouped_entries (files : list string) (k : string) (group : list string) :
  In (k, group) (fold_left step files [])
  <-> group <> [] /\ group = groupOf key files k.
Proof.
  rewrite in_get by (apply nodup_grouped; constructor).
  rewrite get_grouped. cbn [JsMap.get app].
  destruct (groupOf key files k) as [|f fs].
  - split; [discriminate | intros [H ->]; contradiction].
  - split.
    + intros H. injection H as <-. split; [discriminate | reflexivity].
    + intros [_ ->]. reflexivity.
Qed.

(** Files of one key, met when the key is new, make up one new entry. *)
Lemma fold_block (k : string) (block : list string) :
  forall (m : JsMap.t (list string)) (v : list string),
    JsMap.has k m = false ->
    Forall (fun file => key file = k) block ->
    fold_left step block (m ++ [(k, v)]) = m ++ [(k, v ++ block)].
Proof.
  induction block as [|file rest IH]; intros m v Hnew Hall; cbn [fold_left].
  - now rewrite app_nil_r.
  - pose proof (Forall_inv Hall) as Hk. pose proof (Forall_inv_tail Hall) as Hrest.
    cbn beta in Hk. unfold groupFile at 2. rewrite Hk.
    rewrite has_last. cbn [negb]. rewrite update_last by exact Hnew.
    rewrite IH by assumption. now rewrite <- app_assoc.
Qed.

Lemma fold_new_block (k : string) (file : string) (rest : list string)
  (m : JsMap.t (list string)) :
  JsMap.has k m = false ->
  Forall (fun file => key file = k) (file :: rest) ->
  fold_left step (file :: rest) m = m ++ [(k, file :: rest)].
Proof.
  intros Hnew Hall.
  pose proof (Forall_inv Hall) as Hk. pose proof (Forall_inv_tail Hall) as Hrest.
  cbn beta in Hk.
  cbn [fold_left]. unfold groupFile at 2.
  rewrite Hk, Hnew. cbn [negb]. rewrite set_new by exact Hnew.
  rewrite update_last by exact Hnew. cbn [app].
  now rewrite fold_block.
Qed.

(** Running the loop over the concatenated groups of a grouping rebuilds
    the grouping. *)
Lemma fold_blocks (groups : list (string * list string)) :
  forall m : JsMap.t (list string),
    NoDup (map fst (m ++ groups)) ->
    Forall (fun g => snd g <> [] /\ Forall (fun file => key file = fst g) (snd g))
           groups ->
    fold_left step (concat (map snd groups)) m = m ++ groups.
Proof.
  induction groups as [|[k block] groups IH]; intros m Hnd Hall.
  - cbn. now rewrite app_nil_r.
  - pose proof (Forall_inv Hall) as [Hne Hk].
    pose proof (Forall_inv_tail Hall) as Hrest. cbn [fst snd] in *.
    cbn [map concat]. rewrite fold_left_app.
    destruct block as [|file rest]; [contradiction|]. cbn [snd].
    rewrite (fold_new_block k); [| |exact Hk].
    + replace (m ++ (k, file :: rest) :: groups)
        with ((m ++ [(k, file :: rest)]) ++ groups) in *
        by (now rewrite <- app_assoc).
      now apply IH.
    + destruct (JsMap.has k m) eqn:H; [|reflexivity].
      apply has_keys in H. rewrite map_app in Hnd. cbn [map fst] in Hnd.
      apply NoDup_remove_2 in Hnd. exfalso. apply Hnd, in_or_app. now left.
Qed.

End GroupingFacts.

(** ** Array-index keys *)

Section ArrayIndexFacts.
Open Scope N_scope.

Local Abbreviation width s := (10 ^ N.of_nat (String.length s)).

Lemma digit_range (c : ascii) (d : N) :
  JsObject.digit c = Some d -> d < 10 /\ N_of_ascii c = 48 + d.
Proof.
  unfold JsObject.digit. cbv zeta.
  destruct ((48 <=? N_of_ascii c) && (N_of_ascii c <=? 57))%bool eqn:E; [|discriminate].
  intros H. injection H as <-.
  apply andb_true_iff in E as [E1 E2].
  apply N.leb_le in E1, E2. lia.
Qed.

Lemma digit_inj (c1 c2 : ascii) (d : N) :
  JsObject.digit c1 = Some d -> JsObject.digit c2 = Some d -> c1 = c2.
Proof.
  intros H1 H2. apply digit_range in H1 as [_ H1], H2 as [_ H2].
  rewrite <- (ascii_N_embedding c1), <- (ascii_N_embedding c2). congruence.
Qed.

Lemma width_step (c : ascii) (s : string) : width (String c s) = 10 * width s.
Proof.
  cbn [String.length]. rewrite Nat2N.inj_succ, N.pow_succ_r'. reflexivity.
Qed.

Lemma width_pos (s : string) : 0 < width s.
Proof. apply N.neq_0_lt_0, N.pow_nonzero. discriminate. Qed.

(** Reading digits after an accumulated value shifts that value left. *)
Lemma digits_value_shift (s : string) :
  forall acc,
    JsObject.digits_value s acc
    = option_map (fun v => acc * width s + v) (JsObject.digits_value s 0).
Proof.
  induction s as [|c s IH]; intros acc.
  - cbn. f_equal. lia.
  - cbn [JsObject.digits_value]. destruct (JsObject.digit c) as [d|]; [|reflexivity].
    rewrite (IH (10 * acc + d)), (IH (10 * 0 + d)), width_step.
    destruct (JsObject.digits_value s 0) as [v|]; [|reflexivity].
    cbn [option_map]. f_equal. lia.
Qed.

Lemma digits_value_cons (c : ascii) (s : string) (n : N) :
  JsObject.digits_value (String c s) 0 = Some n ->
  exists d v, JsObject.digit c = Some d
              /\ JsObject.digits_value s 0 = Some v
              /\ n = d * width s + v.
Proof.
  cbn [JsObject.digits_value]. destruct (JsObject.digit c) as [d|]; [|discriminate].
  rewrite digits_value_shift.
  destruct (JsObject.digits_value s 0) as [v|]; [|discriminate].
  cbn [option_map]. intros H. injection H as <-.
  exists d, v. repeat split; try lia.
Qed.

Lemma digits_value_bound (s : string) (n : N) :
  JsObject.digits_value s 0 = Some n -> n < width s.
Proof.
  revert n. induction s as [|c s IH]; intros n H.
  - cbn in H. injection H as <-. cbn. lia.
  - apply digits_value_cons in H as (d & v & Hd & Hv & ->).
    apply digit_range in Hd as [Hd _]. apply IH in Hv.
    rewrite width_step. nia.
Qed.

Lemma digits_value_inj (s1 : string) :
  forall s2 n,
    String.length s1 = String.length s2 ->
    JsObject.digits_value s1 0 = Some n ->
    JsObject.digits_value s2 0 = Some n ->
    s1 = s2.
Proof.
  induction s1 as [|c1 s1 IH]; intros [|c2 s2] n Hlen H1 H2;
    try discriminate; [reflexivity|].
  injection Hlen as Hlen.
  apply digits_value_cons in H1 as (d1 & v1 & Hd1 & Hv1 & E1).
  apply digits_value_cons in H2 as (d2 & v2 & Hd2 & Hv2 & E2).
  pose proof (digits_value_bound _ _ Hv1) as B1.
  pose proof (digits_value_bound _ _ Hv2) as B2.
  rewrite Hlen in E1, B1.
  assert (d1 = d2 /\ v1 = v2) as [-> ->].
  { apply (N.div_mod_unique (width s2) d1 d2 v1 v2); try assumption. lia. }
  f_equal; [eapply digit_inj; eassumption | eapply IH; eassumption].
Qed.

(** The shape of a key that denotes an array index. *)
Lemma array_index_shape (k : string) (n : N) :
  JsObject.array_index k = Some n ->
  JsObject.digits_value k 0 = Some n
  /\ (k = "0"%string \/ width k <= 10 * n).
Proof.
  unfold JsObject.array_index. destruct k as [|c rest]; [discriminate|].
  destruct (Ascii.eqb c "0" && negb (String.eqb rest EmptyString))%bool eqn:E;
    [discriminate|].
  destruct (JsObject.digits_value (String c rest) 0) as [v|] eqn:Hv; [|discriminate].
  destruct (v <=? 4294967294); [|discriminate].
  intros H. injection H as <-. split; [reflexivity|].
  apply andb_false_iff in E as [E | E].
  - right. apply digits_value_cons in Hv as (d & v' & Hd & Hv' & ->).
    rewrite width_step.
    assert (d <> 0).
    { intros ->. apply digit_range in Hd as [_ Hd].
      assert (c = "0"%char)
        by (rewrite <- (ascii_N_embedding c), Hd; reflexivity).
      subst. discriminate. }
    pose proof (width_pos rest). nia.
  - apply negb_false_iff, String.eqb_eq in E. subst rest.
    apply digits_value_cons in Hv as (d & v' & Hd & Hv' & ->).
    cbn in Hv'. injection Hv' as <-.
    destruct (Ascii.eqb c "0") eqn:Ec.
    + left. now apply Ascii.eqb_eq in Ec as ->.
    + right. rewrite width_step. cbn [String.length N.of_nat].
      rewrite N.pow_0_r.
      assert (d <> 0).
      { intros ->. apply digit_range in Hd as [_ Hd].
        assert (c = "0"%char)
          by (rewrite <- (ascii_N_embedding c), Hd; reflexivity).
        subst. discriminate. }
      lia.
Qed.

(** Two keys that denote the same array index are the same key. *)
Lemma array_index_inj (k1 k2 : string) (n : N) :
  JsObject.array_index k1 = Some n -> JsObject.array_index k2 = Some n -> k1 = k2.
Proof.
  intros H1 H2.
  apply array_index_shape in H1 as [V1 S1], H2 as [V2 S2].
  pose proof (digits_value_bound _ _ V1) as B1.
  pose proof (digits_value_bound _ _ V2) as B2.
  assert (zero : forall k, JsObject.digits_value k 0 = Some 0 ->
                           width k <= 10 * 0 -> False).
  { intros k _ H. pose proof (width_pos k). lia. }
  destruct S1 as [-> | S1], S2 as [-> | S2].
  - reflexivity.
  - cbn in V1. injection V1 as <-. exfalso. eauto.
  - cbn in V2. injection V2 as <-. exfalso. eauto.
  - apply (digits_value_inj k1 k2 n); try assumption.
    assert (L : forall a b : string, width a <= 10 * n -> n < width b ->
                  (String.length a <= String.length b)%nat).
    { intros a b Ha Hb.
      assert (width a < 10 * width b) by lia.
      rewrite <- (N.pow_succ_r' 10) in H.
      apply N.pow_lt_mono_r_iff in H; lia. }
    apply Nat.le_antisymm; apply L; assumption.
Qed.

End ArrayIndexFacts.

(** ** Objects and their enumeration order *)

Section ObjectFacts.
Context {V : Type}.
Implicit Types (o : JsObject.t V) (k : string) (v : V) (i : N).

Local Abbreviation defineEntry :=
  (fun (o : JsObject.t V) (kv : string * V) => JsObject.define (fst kv) (snd kv) o).

Lemma insert_index_perm i k v o :
  Permutation (JsObject.insert_index i k v o) ((k, v) :: o).
Proof.
  induction o as [|[k' v'] o IH]; cbn [JsObject.insert_index]; [reflexivity|].
  destruct (JsObject.array_index k') as [j|]; [|reflexivity].
  destruct (j <? i)%N; [|reflexivity].
  rewrite IH. apply perm_swap.
Qed.

Lemma define_perm k v o :
  JsMap.has k o = false -> Permutation (JsObject.define k v o) ((k, v) :: o).
Proof.
  intros H. unfold JsObject.define. rewrite H.
  destruct (JsObject.array_index k) as [i|].
  - apply insert_index_perm.
  - symmetry. apply Permutation_cons_append.
Qed.

Lemma fold_define_perm (m : list (string * V)) :
  forall o,
    NoDup (map fst (o ++ m)) ->
    Permutation (fold_left defineEntry m o) (o ++ m).
Proof.
  induction m as [|[k v] m IH]; intros o Hnd; cbn [fold_left fst snd].
  - now rewrite app_nil_r.
  - assert (Hnew : JsMap.has k o = false).
    { destruct (JsMap.has k o) eqn:H; [|reflexivity].
      apply has_keys in H. rewrite map_app in Hnd. cbn [map fst] in Hnd.
      apply NoDup_remove_2 in Hnd. exfalso. apply Hnd, in_or_app. now left. }
    pose proof (define_perm k v o Hnew) as P.
    rewrite IH.
    + rewrite P. cbn [app]. apply Permutation_middle.
    + rewrite map_app. rewrite (Permutation_map fst P).
      cbn [map fst]. rewrite map_app in Hnd. cbn [map fst] in Hnd.
      eapply Permutation_NoDup; [|exact Hnd].
      cbn [app]. symmetry. apply Permutation_middle.
Qed.

(** An object made from entries with distinct keys holds those entries. *)
Lemma fromEntries_perm (m : list (string * V)) :
  NoDup (map fst m) -> Permutation (JsObject.fromEntries m) m.
Proof. intros H. now apply (fold_define_perm m []). Qed.

Lemma ordered_nil : Ordered (@nil (string * V)).
Proof. apply OrderedNames. constructor. Qed.

Lemma append_ordered k v o :
  Ordered o -> JsObject.array_index k = None -> Ordered (o ++ [(k, v)]).
Proof.
  intros Ho Hk. induction Ho as [o Hall | k' v' j o Hj Hall Ho IH].
  - apply OrderedNames, Forall_app. split; [exact Hall | now repeat constructor].
  - cbn [app]. eapply OrderedIndex; [exact Hj | | exact IH].
    apply Forall_app. split; [exact Hall|].
    repeat constructor. cbn [fst]. intros j' Hj'. congruence.
Qed.

Lemma insert_index_ordered i k v o :
  Ordered o -> JsObject.array_index k = Some i -> ~ In k (map fst o) ->
  Ordered (JsObject.insert_index i k v o).
Proof.
  intros Ho Hk. induction Ho as [o Hall | k' v' j o Hj Hall Ho IH]; intros Hnew.
  - destruct o as [|[k' v'] o]; cbn [JsObject.insert_index].
    + eapply OrderedIndex; [exact Hk | constructor | apply ordered_nil].
    + pose proof (Forall_inv Hall) as Hk'. cbn [fst] in Hk'. rewrite Hk'.
      eapply OrderedIndex; [exact Hk | | now apply OrderedNames].
      eapply Forall_impl; [|exact Hall]. intros kv Hnone j' Hj'. congruence.
  - cbn [JsObject.insert_index]. rewrite Hj.
    cbn [map fst In] in Hnew.
    destruct (j <? i)%N eqn:E.
    + apply N.ltb_lt in E.
      eapply OrderedIndex; [exact Hj | | apply IH; tauto].
      eapply Permutation_Forall; [symmetry; apply insert_index_perm|].
      constructor; [|exact Hall]. cbn [fst]. intros j' Hj'. congruence.
    + apply N.ltb_ge in E.
      assert (i <> j).
      { intros ->. apply Hnew. left. eapply array_index_inj; eassumption. }
      eapply OrderedIndex; [exact Hk | | eapply OrderedIndex; eassumption].
      constructor.
      * cbn [fst]. intros j' Hj'. assert (j' = j) by congruence. lia.
      * eapply Forall_impl; [|exact Hall].
        intros kv Hlt j' Hj'. specialize (Hlt j' Hj'). lia.
Qed.

Lemma define_ordered k v o :
  Ordered o -> JsMap.has k o = false -> Ordered (JsObject.define k v o).
Proof.
  intros Ho Hnew. unfold JsObject.define. rewrite Hnew.
  destruct (JsObject.array_index k) as [i|] eqn:Hk.
  - apply insert_index_ordered; try assumption.
    intros Hin. apply has_keys in Hin. congruence.
  - now apply append_ordered.
Qed.

Lemma fold_define_ordered (m : list (string * V)) :
  forall o,
    NoDup (map fst (o ++ m)) -> Ordered o ->
    Ordered (fold_left defineEntry m o).
Proof.
  induction m as [|[k v] m IH]; intros o Hnd Ho; cbn [fold_left fst snd];
    [exact Ho|].
  assert (Hnew : JsMap.has k o = false).
  { destruct (JsMap.has k o) eqn:H; [|reflexivity].
    apply has_keys in H. rewrite map_app in Hnd. cbn [map fst] in Hnd.
    apply NoDup_remove_2 in Hnd. exfalso. apply Hnd, in_or_app. now left. }
  apply IH; [|now apply define_ordered].
  rewrite map_app, (Permutation_map fst (define_perm k v o Hnew)).
  rewrite map_app in Hnd. cbn [map fst] in *.
  eapply Permutation_NoDup; [|exact Hnd].
  cbn [app]. symmetry. apply Permutation_middle.
Qed.

(** An object made from entries is in enumeration order. *)
Lemma fromEntries_ordered (m : list (string * V)) :
  NoDup (map fst m) -> Ordered (JsObject.fromEntries m).
Proof. intros H. apply (fold_define_ordered m []); [exact H | apply ordered_nil]. Qed.

Lemma ordered_before_index (done rest : list (string * V)) k v i :
  Ordered (done ++ (k, v) :: rest) ->
  JsObject.array_index k = Some i ->
  Forall (fun kv => exists j, JsObject.array_index (fst kv) = Some j /\ (j < i)%N) done.
Proof.
  intros Ho Hk. induction done as [|[k' v'] done IH]; [constructor|].
  cbn [app] in Ho. inversion Ho as [o Hall | k0 v0 j o Hj Hall Ho']; subst.
  - apply Forall_inv_tail, Forall_app in Hall as [_ Hall].
    apply Forall_inv in Hall. cbn [fst] in Hall. congruence.
  - constructor; [|now apply IH].
    exists j. split; [exact Hj|].
    apply Forall_app in Hall as [_ Hall]. apply Forall_inv in Hall.
    now apply Hall.
Qed.

Lemma insert_index_last i k v o :
  Forall (fun kv => exists j, JsObject.array_index (fst kv) = Some j /\ (j < i)%N) o ->
  JsObject.insert_index i k v o = o ++ [(k, v)].
Proof.
  induction 1 as [|[k' v'] o (j & Hj & Hlt) _ IH]; [reflexivity|].
  cbn [JsObject.insert_index fst] in *. rewrite Hj.
  apply N.ltb_lt in Hlt. now rewrite Hlt, IH.
Qed.

Lemma fold_define_own (rest : list (string * V)) :
  forall done,
    Ordered (done ++ rest) -> NoDup (map fst (done ++ rest)) ->
    fold_left defineEntry rest done = done ++ rest.
Proof.
  induction rest as [|[k v] rest IH]; intros done Ho Hnd; cbn [fold_left fst snd].
  - now rewrite app_nil_r.
  - assert (Hnew : JsMap.has k done = false).
    { destruct (JsMap.has k done) eqn:H; [|reflexivity].
      apply has_keys in H. rewrite map_app in Hnd. cbn [map fst] in Hnd.
      apply NoDup_remove_2 in Hnd. exfalso. apply Hnd, in_or_app. now left. }
    assert (Hdef : JsObject.define k v done = done ++ [(k, v)]).
    { unfold JsObject.define. rewrite Hnew.
      destruct (JsObject.array_index k) as [i|] eqn:Hk; [|reflexivity].
      apply insert_index_last. eapply ordered_before_index; eassumption. }
    rewrite Hdef.
    replace (done ++ (k, v) :: rest) with ((done ++ [(k, v)]) ++ rest) in *
      by (now rewrite <- app_assoc).
    now apply IH.
Qed.

(** Making an object from the entries of an object gives it back. *)
Lemma fromEntries_own o :
  Ordered o -> NoDup (map fst o) -> JsObject.fromEntries (JsObject.entries o) = o.
Proof. intros Ho Hnd. now apply (fold_define_own o []). Qed.

End ObjectFacts.

(** ** Grouper *)

Section GrouperFacts.
Variables cwd pagesPath : string.

Local Abbreviation key := (topLevelFolder cwd pagesPath).
Local Abbreviation step := (groupFile cwd pagesPath).

Lemma groupOf_keyed (files : list string) (k : string) :
  Forall (fun file => key file = k) (groupOf key files k).
Proof.
  apply Forall_forall. intros file Hin.
  apply filter_In in Hin as [_ Hin]. now apply String.eqb_eq.
Qed.

Lemma concat_update (k file : string) (m : JsMap.t (list string)) :
  JsMap.has k m = true ->
  Permutation (concat (map snd (JsMap.update k (fun group => group ++ [file]) m)))
              (file :: concat (map snd m)).
Proof.
  induction m as [|[k' v'] m IH]; cbn [JsMap.has existsb]; [discriminate|].
  cbn [JsMap.update fst]. destruct (String.eqb k' k) eqn:E; cbn [orb].
  - intros _. cbn [map snd concat]. rewrite <- app_assoc. cbn [app].
    symmetry. apply Permutation_middle.
  - intros H. cbn [map snd concat]. rewrite (IH H).
    symmetry. apply Permutation_middle.
Qed.

Lemma concat_groupFile (m : JsMap.t (list string)) (file : string) :
  Permutation (concat (map snd (step m file))) (file :: concat (map snd m)).
Proof.
  unfold groupFile. destruct (JsMap.has (key file) m) eqn:H; cbn [negb].
  - now apply concat_update.
  - rewrite set_new by exact H. rewrite update_last by exact H.
    rewrite !map_app, !concat_app. cbn [map snd concat app].
    symmetry. apply Permutation_cons_append.
Qed.

Lemma concat_grouped (files : list string) :
  forall m,
    Permutation (concat (map snd (fold_left step files m)))
                (concat (map snd m) ++ files).
Proof.
  induction files as [|file rest IH]; intros m; cbn [fold_left].
  - now rewrite app_nil_r.
  - rewrite IH, concat_groupFile. cbn [app]. apply Permutation_middle.
Qed.

Lemma concat_perm (a b : list (string * list string)) :
  Permutation a b -> Permutation (concat (map snd a)) (concat (map snd b)).
Proof.
  induction 1 as [| x a b _ IH | x y a | a b c _ IH1 _ IH2]; cbn [map concat].
  - reflexivity.
  - now rewrite IH.
  - rewrite !app_assoc. apply Permutation_app_tail, Permutation_app_comm.
  - now rewrite IH1.
Qed.

Lemma grouped_object (files : list string) :
  let groups := groupFilesByPagesFolder cwd files pagesPath in
  NoDup (JsObject.keys groups)
  /\ Ordered groups
  /\ (forall k group,
        In (k, group) (JsObject.entries groups)
        <-> group <> [] /\ group = groupOf key files k)
  /\ Permutation (concat (JsObject.values groups)) files.
Proof.
  cbv zeta. unfold groupFilesByPagesFolder, JsObject.keys, JsObject.entries,
    JsObject.values.
  assert (Hnd : NoDup (map fst (fold_left step files [])))
    by (apply nodup_grouped; constructor).
  pose proof (fromEntries_perm _ Hnd) as P.
  split; [|split; [|split]].
  - eapply Permutation_NoDup; [|exact Hnd]. symmetry. now apply Permutation_map.
  - now apply fromEntries_ordered.
  - intros k group. rewrite <- grouped_entries.
    split; apply Permutation_in; [exact P | symmetry; exact P].
  - rewrite (concat_perm _ _ P). apply (concat_grouped files []).
Qed.

End GrouperFacts.

(** C4.  For every file list and pages root, the grouper puts each file in
    the group keyed by the first segment of the path of the file relative
    to the pages root, and keeps the order of the input within each group;
    a file outside the pages root is grouped as well, under the first
    segment of its relative path, which is [..]; so every input file is in
    exactly one group. *)
Theorem groupFilesByPagesFolder_partition (cwd : string) (files : list string)
  (pagesPath : string) :
  let groups := groupFilesByPagesFolder cwd files pagesPath in
  let key := topLevelFolder cwd pagesPath in
  NoDup (JsObject.keys groups)
  /\ (forall k group,
        In (k, group) (JsObject.entries groups)
        <-> group <> [] /\ group = groupOf key files k)
  /\ (forall file,
        In file files ->
        exists group,
          In (key file, group) (JsObject.entries groups) /\ In file group
          /\ forall k' group',
               In (k', group') (JsObject.entries groups) -> In file group' ->
               k' = key file)
  /\ Permutation (concat (JsObject.values groups)) files
  /\ (forall file seg more,
        Path.resolve cwd file = Path.resolve cwd pagesPath ++ seg :: more ->
        key file = seg)
  /\ (forall file,
        (forall more, Path.resolve cwd file <> Path.resolve cwd pagesPath ++ more) ->
        key file = "..").
Proof.
  intros groups key.
  destruct (grouped_object cwd pagesPath files) as (Hnd & _ & Hin & Hperm).
  fold groups in Hnd, Hin, Hperm.
  split; [exact Hnd|]. split; [exact Hin|]. split; [|split; [exact Hperm|split]].
  - intros file Hfile. exists (groupOf key files (key file)).
    assert (Hmem : In file (groupOf key files (key file))).
    { apply filter_In. split; [exact Hfile | apply String.eqb_refl]. }
    split; [|split; [exact Hmem|]].
    + apply Hin. split; [|reflexivity]. intros E. rewrite E in Hmem. destruct Hmem.
    + intros k' group' Hg Hf. apply Hin in Hg as [_ ->].
      apply filter_In in Hf as [_ Hf]. apply String.eqb_eq in Hf. now symmetry.
  - intros file seg more. apply topLevelFolder_inside.
  - intros file. apply topLevelFolder_outside.
Qed.

(** C5.  Grouper idempotence: in every grouping the grouper makes, deriving
    the group key of a stored path again, by the same rule, gives the key
    of the group that stores it; so grouping the concatenation of the
    output groups gives the same grouping again. *)
Theorem groupFilesByPagesFolder_idempotent (cwd : string) (files : list string)
  (pagesPath : string) :
  let groups := groupFilesByPagesFolder cwd files pagesPath in
  (forall k group file,
     In (k, group) (JsObject.entries groups) -> In file group ->
     topLevelFolder cwd pagesPath file = k)
  /\ groupFilesByPagesFolder cwd (concat (JsObject.values groups)) pagesPath
     = groups.
Proof.
  intros groups.
  destruct (grouped_object cwd pagesPath files) as (Hnd & Hord & Hin & _).
  fold groups in Hnd, Hord, Hin.
  assert (Hkey : forall k group file,
             In (k, group) (JsObject.entries groups) -> In file group ->
             topLevelFolder cwd pagesPath file = k).
  { intros k group file Hg Hf. apply Hin in Hg as [_ ->].
    apply filter_In in Hf as [_ Hf]. now apply String.eqb_eq. }
  split; [exact Hkey|].
  unfold groupFilesByPagesFolder at 1. unfold JsObject.values.
  rewrite (fold_blocks cwd pagesPath groups []).
  - cbn [app]. now apply fromEntries_own.
  - exact Hnd.
  - apply Forall_forall. intros [k group] Hg. cbn [fst snd]. split.
    + now apply Hin in Hg as [Hne _].
    + apply Forall_forall. intros file Hf. eapply Hkey; eassumption.
Qed.

(** ** From the grouper to the loop *)

Section PipelineFacts.
Context {engine : Engine} {world : World}.


(** The object the grouper returns is one the loop runs through on
    schedule. *)
Lemma grouped_input_schedule (self : OpenRouterAnalyzer) (files : list string)
  (pagesPath : string) (t : list Event) :
  let groups := groupFilesByPagesFolder cwd files pagesPath in
  analyzeGroupedFiles self groups t
  = (Ok (itemOutcomes self (fetch_count t) groups), t ++ schedule self groups).
Proof.
  intros groups. rewrite analyzeGroupedFiles_eq.
  destruct (grouped_object cwd pagesPath files) as (Hnd & _).
  fold groups in Hnd.
  now rewrite (turns_schedule self groups []) by exact Hnd.
Qed.

End PipelineFacts.

(** A group whose key is an array index is enumerated, and so analysed,
    before the groups met earlier. *)
Lemma numbered_group_comes_first :
  groupFilesByPagesFolder "/work" Sample.numberedFiles "pages"
  = [("404", ["pages/404/NotFound.jsx"]);
     ("home", ["pages/home/Home.jsx"; "pages/home/useHome.ts"])].
Proof. reflexivity. Qed.

(** ** The order of the requests *)

Section GroupOrder.
Variables cwd pagesPath : string.

Local Abbreviation key := (topLevelFolder cwd pagesPath).
Local Abbreviation step := (groupFile cwd pagesPath).
Local Abbreviation unseen := (fun (seen : list string) (k : string) =>
                                negb (existsb (String.eqb k) seen)).

Lemma filter_filter {A : Type} (p q : A -> bool) (l : list A) :
  filter p (filter q l) = filter (fun x => q x && p x) l.
Proof.
  induction l as [|x l IH]; [reflexivity|]. cbn [filter].
  destruct (q x); cbn [filter andb]; [destruct (p x)|]; now rewrite IH.
Qed.

Lemma has_existsb {V : Type} (k : string) (m : JsMap.t V) :
  JsMap.has k m = existsb (String.eqb k) (map fst m).
Proof.
  unfold JsMap.has. induction m as [|[k' v] m IH]; [reflexivity|].
  cbn [map fst existsb]. rewrite IH, (String.eqb_sym k k'). reflexivity.
Qed.

(** The keys of the map the loop builds: those it had, then the new ones as
    they are first met. *)
Lemma keys_grouped (files : list string) :
  forall m : JsMap.t (list string),
    map fst (fold_left step files m)
    = map fst m ++ filter (unseen (map fst m)) (firstOccurrences (map key files)).
Proof.
  induction files as [|file rest IH]; intros m; cbn [fold_left map firstOccurrences].
  - cbn [filter]. now rewrite app_nil_r.
  - rewrite IH, keys_groupFile, has_existsb. cbn [filter].
    destruct (existsb (String.eqb (key file)) (map fst m)) eqn:Hseen; cbn [negb].
    + f_equal. rewrite filter_filter. apply filter_ext_in. intros k _.
      destruct (String.eqb k (key file)) eqn:E; cbn [negb andb]; [|reflexivity].
      apply String.eqb_eq in E as ->. now rewrite Hseen.
    + rewrite <- app_assoc. cbn [app]. do 2 f_equal.
      rewrite filter_filter. apply filter_ext. intros k.
      rewrite existsb_app. cbn [existsb]. rewrite orb_false_r, negb_orb.
      apply andb_comm.
Qed.

Lemma names_insert_index {V : Type} i k (v : V) o :
  JsObject.array_index k = Some i ->
  filter isName (map fst (JsObject.insert_index i k v o)) = filter isName (map fst o).
Proof.
  intros Hk.
  assert (Hdrop : forall l, filter isName (k :: l) = filter isName l)
    by (intros l; cbn [filter]; unfold isName at 1; now rewrite Hk).
  induction o as [|[k' v'] o IH]; cbn [JsObject.insert_index map fst].
  - apply Hdrop.
  - destruct (JsObject.array_index k') as [j|] eqn:Hk'.
    + destruct (j <? i)%N; [|apply Hdrop].
      cbn [map fst filter]. rewrite IH. reflexivity.
    + apply Hdrop.
Qed.

Lemma names_define {V : Type} k (v : V) o :
  JsMap.has k o = false ->
  filter isName (map fst (JsObject.define k v o))
  = filter isName (map fst o ++ [k]).
Proof.
  intros Hnew. unfold JsObject.define. rewrite Hnew.
  destruct (JsObject.array_index k) as [i|] eqn:Hk.
  - rewrite names_insert_index by exact Hk.
    rewrite filter_app. cbn [filter]. unfold isName at 3. rewrite Hk.
    now rewrite app_nil_r.
  - now rewrite map_app.
Qed.

Lemma names_fold_define {V : Type} (m : list (string * V)) :
  forall o,
    NoDup (map fst (o ++ m)) ->
    filter isName (map fst (fold_left (fun o kv => JsObject.define (fst kv) (snd kv) o) m o))
    = filter isName (map fst (o ++ m)).
Proof.
  induction m as [|[k v] m IH]; intros o Hnd; cbn [fold_left fst snd].
  - now rewrite app_nil_r.
  - assert (Hnew : JsMap.has k o = false).
    { destruct (JsMap.has k o) eqn:H; [|reflexivity].
      apply has_keys in H. rewrite map_app in Hnd. cbn [map fst] in Hnd.
      apply NoDup_remove_2 in Hnd. exfalso. apply Hnd, in_or_app. now left. }
    assert (Hperm : Permutation (map fst (JsObject.define k v o ++ m))
                      (map fst (o ++ (k, v) :: m))).
    { apply Permutation_map. rewrite (define_perm k v o Hnew).
      cbn [app]. apply Permutation_middle. }
    rewrite IH by (eapply Permutation_NoDup; [symmetry; exact Hperm | exact Hnd]).
    rewrite !map_app, !filter_app, names_define by exact Hnew.
    cbn [map fst]. rewrite filter_app, <- app_assoc. f_equal.
    cbn [filter]. now destruct (isName k).
Qed.

(** An ordered object enumerates its array-index keys first, ascending,
    then its other keys. *)
Lemma ordered_keys {V : Type} (o : list (string * V)) :
  Ordered o ->
  exists numbered named,
    map fst o = numbered ++ named
    /\ StronglySorted indexBelow numbered
    /\ Forall (fun k => isName k = false) numbered
    /\ Forall (fun k => isName k = true) named.
Proof.
  induction 1 as [o Hall | k v i o Hk Hlow Ho (numbered & named & E & Hs & Hn & Hm)].
  - exists [], (map fst o). repeat split; try constructor.
    apply Forall_map. eapply Forall_impl; [|exact Hall].
    intros kv H. unfold isName. now rewrite H.
  - exists (k :: numbered), named. cbn [map fst app]. rewrite E.
    split; [reflexivity|]. split; [|split; [|exact Hm]].
    + constructor; [exact Hs|]. apply Forall_forall. intros k' Hk'.
      pose proof (proj1 (Forall_forall _ _) Hn k' Hk') as Hidx.
      unfold isName in Hidx.
      destruct (JsObject.array_index k') as [j|] eqn:Ej; [|discriminate].
      unfold indexBelow. rewrite Hk, Ej.
      assert (Hin : In k' (map fst o)) by (rewrite E; apply in_or_app; now left).
      apply in_map_iff in Hin as (kv & <- & Hin).
      exact (proj1 (Forall_forall _ _) Hlow kv Hin j Ej).
    + constructor; [|exact Hn]. unfold isName. now rewrite Hk.
Qed.


End GroupOrder.




(** ** The page-inventory variant *)

Section PagesFacts.
Context {engine : Engine} {world : World}.
Variable self : OpenRouterAnalyzer.

Lemma renderProperty_printable (page : JValue) (k : Key) :
  printableProperty page k = true <-> exists s, Pages.renderProperty page k = Ok s.
Proof.
  unfold printableProperty, Pages.renderProperty.
  destruct page as [| b | literal | s | items | fields]; cbn [get res_bind render];
    try (split; [eexists; reflexivity | reflexivity]).
  - split; [discriminate | intros [s H]; discriminate].
  - destruct (own (key_name k) fields) as [v|]; cbn [of_own render].
    + apply text_of_printable.
    + split; [eexists; reflexivity | reflexivity].
Qed.

Lemma get_pathOf (page : JValue) :
  printableProperty page k_path = true -> get (Json page) k_path = Ok (pathOf page).
Proof.
  unfold pathOf. destruct page; cbn; try reflexivity. discriminate.
Qed.

Lemma pages_generateContent_eq (prompt : string) t :
  Pages.generateContent self prompt t =
  (match remote (fetch_count t) (Pages.chatRequest self prompt) with
   | Rejected e => Throw e
   | Responded r =>
       if ok r then
         match json r with
         | Ok data => Ok {| response_text := fun _ => firstChoiceContent data |}
         | Throw e => Throw e
         end
       else Throw (ApiError (statusText r))
   end, t ++ [Fetch (Pages.chatRequest self prompt)]).
Proof.
  unfold Pages.generateContent, bind. rewrite fetch_eq.
  destruct (remote _ _) as [e|r]; [reflexivity|].
  destruct (ok r); cbn; [|reflexivity].
  unfold lift, ret. now destruct (json r).
Qed.

(** The analysis of a page whose component and path were rendered before
    never throws and makes exactly one request. *)
Lemma pages_analyzePageGraphQL_eq (page : JValue) (context : string) t :
  printableProperty page k_component = true ->
  printableProperty page k_path = true ->
  Pages.analyzePageGraphQL self page context t
  = (Ok (pageOutcome self context (fetch_count t) page),
     t ++ [Fetch (pageRequest self context page)]).
Proof.
  intros Hc Hp.
  pose proof (proj1 (renderProperty_printable page k_component) Hc) as [component Ec].
  pose proof (proj1 (renderProperty_printable page k_path) Hp) as [shown Ep].
  unfold Pages.analyzePageGraphQL, pageOutcome, pageRequest.
  rewrite bind_lift, Ec.
  assert (Hrec : forall e, Pages.recover page e = Ok (Failed (pathOf page) (message e))).
  { intros e. unfold Pages.recover. rewrite Ep. cbn [res_bind].
    now rewrite get_pathOf. }
  unfold try_catch, bind at 1. rewrite pages_generateContent_eq. unfold pageReplyOf.
  destruct (remote _ _) as [e|r]; [unfold lift; now rewrite Hrec|].
  destruct (ok r); [|unfold lift; now rewrite Hrec].
  destruct (json r) as [data|e]; [|unfold lift; now rewrite Hrec].
  cbn [res_bind response_text]. unfold bind, lift.
  destruct (firstChoiceContent data) as [text|e]; [|now rewrite Hrec].
  cbn [res_bind].
  destruct (replaceFences text) as [cleaned|e]; [|now rewrite Hrec].
  cbn [res_bind].
  destruct (Pages.summarize page cleaned); [reflexivity | now rewrite Hrec].
Qed.

(** The companion of C3 for this variant: a reply that is not valid JSON
    gives the error record of the page. *)
Lemma pages_unparsable_reply (page : JValue) (context : string) t text e :
  printableProperty page k_component = true ->
  printableProperty page k_path = true ->
  pageReplyOf (remote (fetch_count t) (pageRequest self context page))
  = Ok (Json (JStr text)) ->
  JSON_parse (cleanResponse text) = Throw e ->
  Pages.analyzePageGraphQL self page context t
  = (Ok (Failed (pathOf page) (message e)),
     t ++ [Fetch (pageRequest self context page)]).
Proof.
  intros Hc Hp Hreply Hparse. rewrite pages_analyzePageGraphQL_eq by assumption.
  unfold pageOutcome. rewrite Hreply. cbn [res_bind replaceFences].
  unfold Pages.summarize. now rewrite Hparse.
Qed.

(** Among objects and arrays a page is found at its own position. *)
Lemma indexOfPage_reference (before after : list JValue) (page : JValue) (j : nat) :
  Forall (fun x => isReference x = true) before ->
  isReference page = true ->
  Pages.indexOfPage j (before ++ page :: after) (j + List.length before) page
  = Z.of_nat (j + List.length before).
Proof.
  intros Hb Hp. revert j. induction Hb as [|x before Hx _ IH]; intros j.
  - cbn [app List.length Pages.indexOfPage]. rewrite Nat.add_0_r.
    destruct page; try discriminate; cbn; now rewrite Nat.eqb_refl.
  - cbn [app List.length Pages.indexOfPage].
    assert (Pages.strictEquals j x (j + S (List.length before)) page = false) as ->.
    { destruct x, page; try discriminate; cbn; try reflexivity;
        apply Nat.eqb_neq; lia. }
    replace (j + S (List.length before)) with (S j + List.length before) by lia.
    apply IH.
Qed.

(** The companion of C6 for this variant: over pages that are objects the
    loop makes one request per page, in order, with the delay between
    neighbours only, and yields one record per page. *)
Lemma pages_analyzeEach_schedule (context : string) (remaining : list JValue) :
  forall (done : list JValue) (results : list AnalysisResult) (t : list Event),
    Forall (fun page => presentable page = true) remaining ->
    Forall (fun page => isReference page = true) (done ++ remaining) ->
    Pages.analyzeEach self (done ++ remaining) context (List.length done)
      remaining results t
    = (Ok (results ++ pageOutcomes self context (fetch_count t) remaining),
       t ++ pageSchedule self context remaining).
Proof.
  induction remaining as [|page rest IH]; intros done results t Hpres Href.
  - cbn. now rewrite !app_nil_r.
  - pose proof (Forall_inv Hpres) as Hpage. apply Forall_inv_tail in Hpres.
    apply andb_true_iff in Hpage as [Hpage _].
    apply andb_true_iff in Hpage as [Hpath Hcomp].
    cbn [Pages.analyzeEach pageOutcomes]. unfold bind at 1.
    rewrite pages_analyzePageGraphQL_eq by assumption.
    pose proof (proj1 (Forall_app _ _ _) Href) as [Hdone Hrest].
    pose proof (indexOfPage_reference done rest page 0 Hdone (Forall_inv Hrest)) as Hidx.
    cbn [Nat.add] in Hidx. rewrite Hidx.
    rewrite List.length_app. cbn [List.length].
    replace (done ++ page :: rest) with ((done ++ [page]) ++ rest) in *
      by (now rewrite <- app_assoc).
    replace (S (List.length done)) with (List.length (done ++ [page]))
      by (rewrite List.length_app; cbn; lia).
    unfold bind at 1.
    destruct rest as [|next rest].
    + replace (_ <? _)%Z with false by (symmetry; apply Z.ltb_ge; cbn; lia).
      unfold ret. rewrite IH by assumption.
      cbn. now rewrite !app_nil_r.
    + replace (_ <? _)%Z with true by (symmetry; apply Z.ltb_lt; cbn [List.length]; lia).
      unfold delay, emit. rewrite IH by assumption.
      rewrite !fetch_count_app. cbn [fetch_count filter is_fetch List.length].
      replace (fetch_count t + 1 + 0) with (S (fetch_count t)) by lia.
      unfold pageSchedule. cbn [map intersperse].
      now rewrite <- !app_assoc.
Qed.

(** The companion of C8 for this variant: the success record of a page
    carries its path, the parsed reply and the lengths of the two arrays. *)
Lemma pages_analysed_record (page : JValue) (context : string) t text fields qs ms :
  printableProperty page k_component = true ->
  printableProperty page k_path = true ->
  pageReplyOf (remote (fetch_count t) (pageRequest self context page))
  = Ok (Json (JStr text)) ->
  JSON_parse (cleanResponse text) = Ok (JObj fields) ->
  own "queries" fields = Some (JArr qs) ->
  own "mutations" fields = Some (JArr ms) ->
  forallb nameable qs = true ->
  forallb nameable ms = true ->
  Pages.analyzePageGraphQL self page context t
  = (Ok (Analysed (pathOf page) (JObj fields)
           (Len (List.length qs)) (Len (List.length ms))),
     t ++ [Fetch (pageRequest self context page)]).
Proof.
  intros Hc Hp Hreply Hparse Hq Hm Hqs Hms.
  rewrite pages_analyzePageGraphQL_eq by assumption.
  unfold pageOutcome. rewrite Hreply. cbn [res_bind replaceFences].
  unfold Pages.summarize. rewrite Hparse. cbn [res_bind].
  pose proof (proj1 (renderProperty_printable page k_path) Hp) as [shown ->].
  cbn [res_bind].
  assert (Gq : get (Json (JObj fields)) k_queries = Ok (Json (JArr qs)))
    by (cbn; now rewrite Hq).
  assert (Gm : get (Json (JObj fields)) k_mutations = Ok (Json (JArr ms)))
    by (cbn; now rewrite Hm).
  rewrite (logOperations_array _ _ _ Gq Hqs), (logOperations_array _ _ _ Gm Hms).
  cbn [res_bind]. rewrite get_pathOf by assumption. cbn [res_bind].
  rewrite Gq, Gm. reflexivity.
Qed.

(** The companion of C10 for this variant. *)
Lemma pages_success_needs_both_properties (page : JValue) (cleaned : string)
  (pagePath : JsVal) (analysis : JValue) (queryCount mutationCount : JsVal) :
  Pages.summarize page cleaned
  = Ok (Analysed pagePath analysis queryCount mutationCount) ->
  JSON_parse cleaned = Ok analysis
  /\ present analysis k_queries /\ present analysis k_mutations.
Proof.
  unfold Pages.summarize. intros H.
  destruct (JSON_parse cleaned) as [a|e]; [|discriminate].
  cbn [res_bind] in H.
  destruct (Pages.renderProperty page k_path); [|discriminate].
  cbn [res_bind] in H.
  destruct (logOperations a k_queries) as [[]|e] eqn:Hlq; [|discriminate].
  cbn [res_bind] in H.
  destruct (logOperations a k_mutations) as [[]|e] eqn:Hlm; [|discriminate].
  cbn [res_bind] in H.
  destruct (get (Json page) k_path); [|discriminate]. cbn [res_bind] in H.
  destruct (get (Json a) k_queries); [|discriminate]. cbn [res_bind] in H.
  destruct (length_of _); [|discriminate]. cbn [res_bind] in H.
  destruct (get (Json a) k_mutations); [|discriminate]. cbn [res_bind] in H.
  destruct (length_of _); [|discriminate]. cbn [res_bind] in H.
  injection H as _ <- _ _.
  repeat split; [now apply logOperations_ok_present ..].
Qed.

End PagesFacts.

(** Where the inventory names a page twice as text, the loop of this
    variant finds the second at the position of the first and makes the
    delay after the last page as well. *)
Lemma pages_delay_after_last_duplicate :
  map (fun ev => match ev with Fetch _ => "fetch" | Delay _ => "delay" | WriteFile _ _ => "write" end)
    (snd (Pages.analyzePages (engine := reference_engine)
            (world := Sample.quiet_world
                        (Sample.answeringFirst Sample.twiceReply Sample.homeReply))
            Sample.analyzer "export default 1" []))
  = ["fetch"; "delay"; "fetch"; "delay"; "fetch"; "delay"].
Proof. reflexivity. Qed.

(** * Further properties of the code *)

(** ** The string tests and the fence stripping *)

Section StringTests.

Lemma append_empty_r (s : string) : (s ++ EmptyString)%string = s.
Proof. induction s as [|c s IH]; cbn; [reflexivity | now rewrite IH]. Qed.

Lemma string_app_assoc (a b c : string) :
  ((a ++ b) ++ c)%string = (a ++ (b ++ c))%string.
Proof. induction a as [|x a IH]; cbn; [reflexivity | now rewrite IH]. Qed.

Lemma startsWith_split (pat s : string) :
  startsWith pat s = true -> s = (pat ++ drop (String.length pat) s)%string.
Proof.
  revert s. induction pat as [|a pat IH]; intros s H; [reflexivity|].
  destruct s as [|b s]; [discriminate|]. cbn in H.
  apply andb_true_iff in H as [Hab H]. apply Ascii.eqb_eq in Hab as ->.
  cbn. f_equal. now apply IH.
Qed.

Lemma startsWith_iff (pat s : string) :
  startsWith pat s = true <-> exists rest, s = (pat ++ rest)%string.
Proof.
  split.
  - intros H. eexists. now apply startsWith_split.
  - intros [rest ->]. apply startsWith_app.
Qed.

Lemma endsWith_iff (pat s : string) :
  endsWith pat s = true <-> exists stem, s = (stem ++ pat)%string.
Proof.
  split.
  - induction s as [|c s IH]; cbn [endsWith]; intros H.
    + rewrite orb_false_r in H. apply String.eqb_eq in H as <-. now exists EmptyString.
    + apply orb_true_iff in H as [H | H].
      * apply String.eqb_eq in H as <-. now exists EmptyString.
      * destruct (IH H) as [stem ->]. now exists (String c stem).
  - intros [stem ->]. induction stem as [|c stem IH]; cbn [append].
    + destruct pat; cbn [endsWith]; now rewrite String.eqb_refl.
    + cbn [endsWith]. rewrite IH. apply orb_true_r.
Qed.

Lemma includes_iff (needle s : string) :
  includes needle s = true
  <-> exists before after, s = (before ++ needle ++ after)%string.
Proof.
  split.
  - induction s as [|c s IH]; cbn [includes]; intros H.
    + rewrite orb_false_r in H. apply startsWith_iff in H as [rest H].
      now exists EmptyString, rest.
    + apply orb_true_iff in H as [H | H].
      * apply startsWith_iff in H as [rest H]. now exists EmptyString, rest.
      * destruct (IH H) as (before & after & ->). now exists (String c before), after.
  - intros (before & after & ->). induction before as [|c before IH]; cbn [append].
    + destruct (needle ++ after)%string eqn:E; cbn [includes];
        rewrite <- E, startsWith_app; reflexivity.
    + cbn [includes]. rewrite IH. apply orb_true_r.
Qed.

Lemma replace_trailing_split (pat s : string) :
  (endsWith pat s = true -> s = (replace_trailing pat s ++ pat)%string)
  /\ (endsWith pat s = false -> replace_trailing pat s = s).
Proof.
  induction s as [|c s [IH1 IH2]]; cbn [endsWith replace_trailing].
  - rewrite orb_false_r. destruct (String.eqb EmptyString pat) eqn:E.
    + apply String.eqb_eq in E as <-. split; [reflexivity | discriminate].
    + split; [discriminate | reflexivity].
  - destruct (String.eqb (String c s) pat) eqn:E; cbn [orb].
    + apply String.eqb_eq in E as <-. split; [reflexivity | discriminate].
    + split; intros H; cbn [append]; f_equal; auto.
Qed.

End StringTests.

(** X1.  The fence stripping removes nothing but the two fence lines: the
    reply is the cleaned text, with the opening fence line before it when
    the reply starts with that line and nothing otherwise, and with the
    closing fence line or nothing after it; a reply that neither starts
    with the opening fence line nor ends with the closing one is not
    changed. *)
Theorem cleanResponse_strips_only_fences (text : string) :
  (exists pre post,
      text = (pre ++ cleanResponse text ++ post)%string
      /\ pre = (if startsWith fence_open text then fence_open else EmptyString)
      /\ (post = EmptyString \/ post = fence_close))
  /\ (startsWith fence_open text = false ->
      endsWith fence_close text = false ->
      cleanResponse text = text).
Proof.
  unfold cleanResponse, replace_leading. split.
  - destruct (startsWith fence_open text) eqn:Hs.
    + set (inner := drop (String.length fence_open) text).
      pose proof (startsWith_split _ _ Hs) as E. fold inner in E.
      destruct (replace_trailing_split fence_close inner) as [T1 T2].
      destruct (endsWith fence_close inner) eqn:He.
      * exists fence_open, fence_close. split; [|split; [reflexivity | now right]].
        rewrite <- (T1 eq_refl). exact E.
      * exists fence_open, EmptyString. split; [|split; [reflexivity | now left]].
        rewrite (T2 eq_refl), append_empty_r. exact E.
    + destruct (replace_trailing_split fence_close text) as [T1 T2].
      destruct (endsWith fence_close text) eqn:He.
      * exists EmptyString, fence_close. split; [|split; [reflexivity | now right]].
        cbn [append]. now apply T1.
      * exists EmptyString, EmptyString. split; [|split; [reflexivity | now left]].
        rewrite (T2 eq_refl), append_empty_r. reflexivity.
  - intros -> He. now apply replace_trailing_split.
Qed.

Lemma cleanResponse_strips_only_fences_witness :
  cleanResponse Sample.emptyReply = Sample.emptyReply.
Proof.
  exact (proj2 (cleanResponse_strips_only_fences Sample.emptyReply) eq_refl eq_refl).
Defined.

(** X2.  A file qualifies by name exactly when its name is some stem, which
    may be empty, followed by one of the four extensions, and by content
    exactly when one of the two markers occurs somewhere in the content. *)
Theorem qualifies_by_suffix_and_marker (name content : string) :
  (hasSourceExtension name = true
   <-> exists stem ext,
         In ext [".js"; ".jsx"; ".ts"; ".tsx"] /\ name = (stem ++ ext)%string)
  /\ (hasGraphQLTag content = true
      <-> exists before marker after,
            In marker ["gql`"; "graphql`"]
            /\ content = (before ++ marker ++ after)%string).
Proof.
  split.
  - unfold hasSourceExtension. rewrite !orb_true_iff, !endsWith_iff. split.
    + intros [[[[stem H] | [stem H]] | [stem H]] | [stem H]];
        eexists stem, _; (split; [|exact H]); cbn; tauto.
    + intros (stem & ext & Hin & ->). cbn in Hin.
      destruct Hin as [<- | [<- | [<- | [<- | []]]]]; eauto 6.
  - unfold hasGraphQLTag. rewrite orb_true_iff, !includes_iff. split.
    + intros [(b & a & H) | (b & a & H)];
        eexists b, _, a; (split; [|exact H]); cbn; tauto.
    + intros (b & marker & a & Hin & ->). cbn in Hin.
      destruct Hin as [<- | [<- | []]]; eauto.
Qed.

(** ** The analysis of one group *)

Section ItemFacts.
Context {engine : Engine} {world : World}.

(** A completion without choices, or with an empty list of them, has no
    content to read. *)
Lemma firstChoiceContent_missing (fields : list (string * JValue)) :
  own "choices" fields = None \/ own "choices" fields = Some (JArr []) ->
  exists e, firstChoiceContent (JObj fields) = Throw e.
Proof.
  unfold firstChoiceContent. cbn [get key_name].
  intros [-> | ->]; cbn; eexists; reflexivity.
Qed.

Lemma replaceFences_text (v : JsVal) :
  (forall s, v <> Json (JStr s)) -> exists e, replaceFences v = Throw e.
Proof.
  intros H. destruct v as [| n | [| b | literal | s | items | fields]]; cbn;
    try (eexists; reflexivity).
  now destruct (H s).
Qed.

End ItemFacts.

(** X3.  The analysis of one group never raises: whatever the service does,
    it makes exactly one request, for the prompt of the group, and returns a
    record whose page is the name of the group. *)
Theorem analyzePageGraphQL_never_raises {engine : Engine} {world : World}
  (self : OpenRouterAnalyzer) (pageFiles : list string) (pageName : string)
  (t : list Event) :
  exists record,
    analyzePageGraphQL self pageFiles pageName t
    = (Ok record, t ++ [Fetch (chatRequest self (graphqlPrompt pageFiles pageName))])
    /\ pageOf record = Json (JStr pageName).
Proof.
  eexists. split; [apply analyzePageGraphQL_outcome|].
  pose proof (itemOutcomes_pages self (fetch_count t) [(pageName, pageFiles)]) as H.
  cbn [itemOutcomes map fst] in H. now injection H.
Qed.

(** X4.  A call that fails is recorded, not raised: when the request is
    rejected the record of the group carries the message of the rejection;
    when the status is not successful it carries the fixed prefix and the
    status text if the body, which is read to be printed, can be read, and
    the message of the failed read otherwise; and when the body of a
    successful response cannot be read or is not JSON it carries the message
    of that error. *)
Theorem failed_call_yields_error_record {engine : Engine} {world : World}
  (self : OpenRouterAnalyzer) (pageFiles : list string) (pageName : string)
  (t : list Event) :
  let request := chatRequest self (graphqlPrompt pageFiles pageName) in
  let page := Json (JStr pageName) in
  let result := fst (analyzePageGraphQL self pageFiles pageName t) in
  (forall e, remote (fetch_count t) request = Rejected e ->
             result = Ok (Failed page (message e)))
  /\ (forall r text, remote (fetch_count t) request = Responded r -> ok r = false ->
                     body r = Ok text ->
                     result = Ok (Failed page ("API call failed: " ++ statusText r)%string))
  /\ (forall r e, remote (fetch_count t) request = Responded r -> ok r = false ->
                  body r = Throw e ->
                  result = Ok (Failed page (message e)))
  /\ (forall r e, remote (fetch_count t) request = Responded r -> ok r = true ->
                  json r = Throw e ->
                  result = Ok (Failed page (message e))).
Proof.
  cbv zeta. rewrite analyzePageGraphQL_eq. cbn [fst]. repeat split.
  - intros e ->. reflexivity.
  - intros r text -> Hok Hbody. cbn [replyOf]. now rewrite Hok, Hbody.
  - intros r e -> Hok Hbody. cbn [replyOf]. now rewrite Hok, Hbody.
  - intros r e -> Hok Hbody. cbn [replyOf]. now rewrite Hok, Hbody.
Qed.

Lemma failed_call_yields_error_record_witness :
  fst (analyzePageGraphQL (engine := reference_engine)
         (world := Sample.quiet_world Sample.refusing)
         Sample.analyzer Sample.homeFiles "home" [])
  = Ok (Failed (Json (JStr "home")) "API call failed: Too Many Requests")
  /\ fst (analyzePageGraphQL (engine := reference_engine)
            (world := Sample.quiet_world Sample.cut)
            Sample.analyzer Sample.homeFiles "home" [])
     = Ok (Failed (Json (JStr "home")) "terminated")
  /\ exists e,
       fst (analyzePageGraphQL (engine := reference_engine)
              (world := Sample.quiet_world Sample.markup)
              Sample.analyzer Sample.homeFiles "home" [])
       = Ok (Failed (Json (JStr "home")) (message e)).
Proof.
  split; [|split].
  - exact (proj1 (proj2 (failed_call_yields_error_record (engine := reference_engine)
                           (world := Sample.quiet_world Sample.refusing)
                           Sample.analyzer Sample.homeFiles "home" []))
             _ _ eq_refl eq_refl eq_refl).
  - exact (proj1 (proj2 (proj2 (failed_call_yields_error_record (engine := reference_engine)
                                  (world := Sample.quiet_world Sample.cut)
                                  Sample.analyzer Sample.homeFiles "home" [])))
             _ _ eq_refl eq_refl eq_refl).
  - eexists.
    exact (proj2 (proj2 (proj2 (failed_call_yields_error_record (engine := reference_engine)
                                  (world := Sample.quiet_world Sample.markup)
                                  Sample.analyzer Sample.homeFiles "home" [])))
             _ _ eq_refl eq_refl eq_refl).
Defined.

(** X5.  A successful response whose completion has no text to offer, the
    content of the first choice's message being unreadable or not a string,
    gives the error record of the group. *)
Theorem reply_without_text_yields_error_record {engine : Engine} {world : World}
  (self : OpenRouterAnalyzer) (pageFiles : list string) (pageName : string)
  (t : list Event) (r : Response) (data : JValue) :
  let request := chatRequest self (graphqlPrompt pageFiles pageName) in
  remote (fetch_count t) request = Responded r ->
  ok r = true ->
  json r = Ok data ->
  (forall s, firstChoiceContent data <> Ok (Json (JStr s))) ->
  exists msg,
    analyzePageGraphQL self pageFiles pageName t
    = (Ok (Failed (Json (JStr pageName)) msg), t ++ [Fetch request]).
Proof.
  intros request Hr Hok Hdata Hnot.
  rewrite analyzePageGraphQL_eq. fold request. rewrite Hr.
  cbn [replyOf]. rewrite Hok, Hdata. cbn [res_bind].
  destruct (firstChoiceContent data) as [v|e]; [|eexists; reflexivity].
  cbn [res_bind].
  destruct (replaceFences_text v) as [e ->]; [|eexists; reflexivity].
  intros s ->. now apply (Hnot s).
Qed.

Lemma reply_without_text_yields_error_record_witness :
  exists msg,
    analyzePageGraphQL (engine := reference_engine)
      (world := Sample.quiet_world Sample.apologizing)
      Sample.analyzer Sample.homeFiles "home" []
    = (Ok (Failed (Json (JStr "home")) msg),
       [] ++ [Fetch (chatRequest Sample.analyzer
                       (graphqlPrompt (world := Sample.quiet_world Sample.apologizing)
                          Sample.homeFiles "home"))]).
Proof.
  refine (reply_without_text_yields_error_record (engine := reference_engine)
            (world := Sample.quiet_world Sample.apologizing)
            Sample.analyzer Sample.homeFiles "home" []
            {| ok := true; statusText := "OK";
               body := Ok (quoted "{'error':{'message':'rate limited','code':429}}") |}
            (JObj [("error", JObj [("message", JStr "rate limited"); ("code", JNum "429")])])
            _ _ _ _); try reflexivity.
  intros s. discriminate.
Defined.

(** ** The prompt of a group *)

Section PromptFacts.
Context {engine : Engine} {world : World}.

Lemma fileContents_app (xs ys : list string) :
  fileContents (xs ++ ys) = fileContents xs ++ fileContents ys.
Proof.
  induction xs as [|x xs IH]; cbn [app fileContents]; [reflexivity|].
  destruct (readFile x); [cbn [app]; now rewrite IH | exact IH].
Qed.

Lemma fileContents_in (files : list string) (file content : string) :
  In file files -> readFile file = Ok content ->
  In (fileBlock file content) (fileContents files).
Proof.
  induction files as [|x files IH]; [intros []|].
  intros [-> | Hin] Hread; cbn [fileContents].
  - rewrite Hread. now left.
  - destruct (readFile x); [right|]; now apply IH.
Qed.

Lemma join_holds (sep : string) (xs : list string) (x : string) :
  In x xs -> exists before after, join sep xs = (before ++ x ++ after)%string.
Proof.
  induction xs as [|y [|z xs] IH]; [intros [] | |].
  - intros [-> | []]. exists EmptyString, EmptyString. cbn [join append].
    now rewrite append_empty_r.
  - intros [-> | Hin].
    + exists EmptyString, (sep ++ join sep (z :: xs))%string. reflexivity.
    + destruct (IH Hin) as (before & after & E).
      exists (y ++ sep ++ before)%string, after.
      change (join sep (y :: z :: xs)) with (y ++ sep ++ join sep (z :: xs))%string.
      rewrite E. now rewrite !string_app_assoc.
Qed.

Lemma includes_within (needle x before after : string) :
  includes needle x = true ->
  includes needle (before ++ x ++ after) = true.
Proof.
  intros H. apply includes_iff in H as (b & a & ->). apply includes_iff.
  exists (before ++ b)%string, (a ++ after)%string.
  now rewrite !string_app_assoc.
Qed.

Lemma includes_self_suffix (head needle : string) :
  includes needle (head ++ needle) = true.
Proof.
  apply includes_iff. exists head, EmptyString. now rewrite append_empty_r.
Qed.

Lemma includes_joined (sep needle : string) (xs : list string) (x : string) :
  In x xs -> includes needle x = true -> includes needle (join sep xs) = true.
Proof.
  intros Hin H. destruct (join_holds sep xs x Hin) as (before & after & ->).
  now apply includes_within.
Qed.

End PromptFacts.

(** X6.  The file contents of a prompt leave out what cannot be read and
    nothing else: a file whose read fails changes nothing, the content is
    empty when no file can be read, and when every file can be read there
    is one block per file, in order, each made of the path and the content
    of the file. *)
Theorem getFilesContent_skips_unreadable {world : World} :
  (forall before after file e,
      readFile file = Throw e ->
      getFilesContent (before ++ file :: after) = getFilesContent (before ++ after))
  /\ (forall files,
        Forall (fun file => exists e, readFile file = Throw e) files ->
        getFilesContent files = EmptyString)
  /\ (forall files contents,
        Forall2 (fun file content => readFile file = Ok content) files contents ->
        getFilesContent files
        = join (nl ++ nl) (map (fun fc => fileBlock (fst fc) (snd fc))
                             (combine files contents))).
Proof.
  unfold getFilesContent. repeat split.
  - intros before after file e H. f_equal.
    rewrite !fileContents_app. cbn [fileContents]. now rewrite H.
  - intros files H. induction H as [|file files [e He] _ IH]; [reflexivity|].
    cbn [fileContents]. now rewrite He.
  - intros files contents H. f_equal.
    induction H as [|file content files contents Hread _ IH]; [reflexivity|].
    cbn [fileContents combine map fst snd]. now rewrite Hread, IH.
Qed.

Lemma getFilesContent_skips_unreadable_witness :
  getFilesContent (world := Sample.home_world Sample.refusing)
    (["pages/home/Home.jsx"] ++ "pages/home/gone.ts" :: [])
  = getFilesContent (world := Sample.home_world Sample.refusing)
      (["pages/home/Home.jsx"] ++ [])
  /\ getFilesContent (world := Sample.home_world Sample.refusing) Sample.homeFiles
     = join (nl ++ nl)
         (map (fun fc => fileBlock (fst fc) (snd fc))
            (combine Sample.homeFiles ["const q = gql` query GetHome { id } `;"])).
Proof.
  split.
  - exact (proj1 (getFilesContent_skips_unreadable (world := Sample.home_world Sample.refusing))
             ["pages/home/Home.jsx"] [] "pages/home/gone.ts" _ eq_refl).
  - apply (proj2 (proj2 (getFilesContent_skips_unreadable
                           (world := Sample.home_world Sample.refusing)))).
    repeat constructor.
Defined.

(** X7.  The prompt of a group tells the service what it is about: it
    contains the name of the group, the path of every file of the group,
    and the content of every file of the group that can be read. *)
Theorem graphqlPrompt_contents {world : World} (pageFiles : list string)
  (pageName : string) :
  let prompt := graphqlPrompt pageFiles pageName in
  includes pageName prompt = true
  /\ (forall file, In file pageFiles -> includes file prompt = true)
  /\ (forall file content,
        In file pageFiles -> readFile file = Ok content ->
        includes content prompt = true).
Proof.
  cbv zeta. unfold graphqlPrompt. repeat split.
  - eapply includes_joined; [|apply includes_self_suffix].
    apply in_or_app. right. apply in_or_app. right. now left.
  - intros file Hin.
    eapply includes_joined with (x := ("        " ++ join nl pageFiles)%string).
    + do 4 (apply in_or_app; right). now left.
    + destruct (join_holds nl pageFiles file Hin) as (before & after & ->).
      apply includes_iff. exists ("        " ++ before)%string, after.
      now rewrite !string_app_assoc.
  - intros file content Hin Hread.
    eapply includes_joined with (x := ("        " ++ getFilesContent pageFiles)%string).
    + do 6 (apply in_or_app; right). now left.
    + unfold getFilesContent.
      destruct (join_holds (nl ++ nl) _ _ (fileContents_in _ _ _ Hin Hread))
        as (before & after & ->).
      apply includes_iff.
      exists ("        " ++ before ++ "FILE: " ++ file ++ nl)%string, after.
      unfold fileBlock. now rewrite !string_app_assoc.
Qed.

Lemma graphqlPrompt_contents_witness :
  includes "pages/home/Home.jsx"
    (graphqlPrompt (world := Sample.home_world Sample.refusing) Sample.homeFiles "home")
  = true
  /\ includes "const q = gql` query GetHome { id } `;"
       (graphqlPrompt (world := Sample.home_world Sample.refusing) Sample.homeFiles "home")
     = true.
Proof.
  split.
  - apply (proj1 (proj2 (graphqlPrompt_contents (world := Sample.home_world Sample.refusing)
                           Sample.homeFiles "home"))).
    now left.
  - apply (proj2 (proj2 (graphqlPrompt_contents (world := Sample.home_world Sample.refusing)
                           Sample.homeFiles "home")) "pages/home/Home.jsx").
    + now left.
    + reflexivity.
Defined.

(** ** The scan and what follows it *)

Section ScanFailure.

Lemma processDirectory_fails_of_each (entries : list Entry) :
  Forall (fun e => forall cur acc, readableEntry e = false ->
                   exists err, processEntry cur e acc = Throw err) entries ->
  forall cur acc, readable entries = false ->
                  exists err, processDirectory cur entries acc = Throw err.
Proof.
  induction 1 as [|e rest He _ IH]; intros cur acc Hr; [discriminate|].
  cbn [readable forallb] in Hr. cbn [processDirectory].
  destruct (readableEntry e) eqn:Hre.
  - destruct (entryScan_all e cur acc Hre) as (found & -> & _).
    cbn [res_bind]. apply IH. exact Hr.
  - destruct (He cur acc eq_refl) as [err ->]. now exists err.
Qed.

Lemma processEntry_fails (e : Entry) :
  forall cur acc, readableEntry e = false ->
                  exists err, processEntry cur e acc = Throw err.
Proof.
  induction e as [name content | name err | name entries IH | name err | name]
    using Entry_nested_ind; intros cur acc Hr; try discriminate.
  - cbn [readableEntry] in Hr. apply negb_false_iff in Hr.
    cbn [processEntry]. rewrite Hr. now exists err.
  - rewrite processEntry_directory.
    now apply processDirectory_fails_of_each.
  - now exists err.
Qed.

Lemma processDirectory_fails (entries : list Entry) :
  forall cur acc, readable entries = false ->
                  exists err, processDirectory cur entries acc = Throw err.
Proof.
  apply processDirectory_fails_of_each, Forall_forall.
  intros e _. apply processEntry_fails.
Qed.

End ScanFailure.

(** X8.  The scan gives a result exactly when every directory of the tree
    can be listed and every file with a source extension can be read; a file
    with another extension is never opened, so it may be unreadable, while
    one directory or source file that cannot be read fails the whole
    scan. *)
Theorem findGraphQLFiles_succeeds_iff_readable {world : World}
  (dirPath : string) (entries : list Entry) :
  readdir dirPath = Ok entries ->
  ((exists files, findGraphQLFiles dirPath = Ok files) <-> readable entries = true).
Proof.
  intros Hdir. unfold findGraphQLFiles. rewrite Hdir. cbn [res_bind]. split.
  - intros [files H]. destruct (readable entries) eqn:Hr; [reflexivity|].
    destruct (processDirectory_fails entries dirPath [] Hr) as [err E].
    congruence.
  - intros Hr. destruct (processDirectory_scan entries dirPath [] Hr) as (found & E & _).
    now exists found.
Qed.

Lemma findGraphQLFiles_succeeds_iff_readable_witness :
  ((exists files,
       findGraphQLFiles (world := Sample.tree_world "repo" Sample.guardedTree Sample.refusing)
         "repo" = Ok files)
   <-> readable Sample.guardedTree = true)
  /\ ((exists files,
          findGraphQLFiles (world := Sample.tree_world "repo" Sample.lockedTree Sample.refusing)
            "repo" = Ok files)
      <-> readable Sample.lockedTree = true).
Proof.
  split.
  - exact (findGraphQLFiles_succeeds_iff_readable
             (world := Sample.tree_world "repo" Sample.guardedTree Sample.refusing)
             "repo" Sample.guardedTree eq_refl).
  - exact (findGraphQLFiles_succeeds_iff_readable
             (world := Sample.tree_world "repo" Sample.lockedTree Sample.refusing)
             "repo" Sample.lockedTree eq_refl).
Defined.

(** X9.  Scanning with a pages path composes the scanner and the grouper:
    on a tree that can be read through, the groups returned hold together
    exactly the paths of the qualifying files of the tree, each under the
    first segment of its path relative to the pages path, and no group is
    empty. *)
Theorem scanForGraphQLTags_groups_the_scan {world : World}
  (folderPath pagesPath : string) (entries : list Entry) :
  readdir folderPath = Ok entries ->
  readable entries = true ->
  pagesPath <> EmptyString ->
  exists groups,
    scanForGraphQLTags folderPath (Some pagesPath) = Ok (Grouped groups)
    /\ NoDup (JsObject.keys groups)
    /\ (forall file,
          (exists k group, In (k, group) (JsObject.entries groups) /\ In file group)
          <-> exists name content,
                FileAt folderPath entries file name content
                /\ qualifies name content = true)
    /\ (forall k group,
          In (k, group) (JsObject.entries groups) ->
          group <> []
          /\ forall file, In file group -> topLevelFolder cwd pagesPath file = k).
Proof.
  intros Hdir Hread Hpath.
  destruct (processDirectory_scan entries folderPath [] Hread) as (files & E & Mem & _).
  cbn [app] in E.
  exists (groupFilesByPagesFolder cwd files pagesPath).
  destruct (grouped_object cwd pagesPath files) as (Hnd & _ & Hin & _).
  split; [|split; [exact Hnd|split]].
  - unfold scanForGraphQLTags, findGraphQLFiles. rewrite Hdir. cbn [res_bind].
    rewrite E. cbn [res_bind].
    destruct (String.eqb pagesPath EmptyString) eqn:Ep; [|reflexivity].
    apply String.eqb_eq in Ep. contradiction.
  - intros file. rewrite <- Mem. split.
    + intros (k & group & Hg & Hf). apply Hin in Hg as [_ ->].
      now apply filter_In in Hf as [Hf _].
    + intros Hf. exists (topLevelFolder cwd pagesPath file).
      exists (groupOf (topLevelFolder cwd pagesPath) files (topLevelFolder cwd pagesPath file)).
      assert (Hmem : In file (groupOf (topLevelFolder cwd pagesPath) files
                                (topLevelFolder cwd pagesPath file))).
      { apply filter_In. split; [exact Hf | apply String.eqb_refl]. }
      split; [|exact Hmem]. apply Hin. split; [|reflexivity].
      intros E0. rewrite E0 in Hmem. destruct Hmem.
  - intros k group Hg. apply Hin in Hg as [Hne ->]. split; [exact Hne|].
    intros file Hf. apply filter_In in Hf as [_ Hf]. now apply String.eqb_eq.
Qed.

Lemma scanForGraphQLTags_groups_the_scan_witness :
  exists groups,
    scanForGraphQLTags (world := Sample.shop_world Sample.refusing)
      "./repo_to_analyze/shop" (Some "./repo_to_analyze/shop/src/components/pages")
    = Ok (Grouped groups)
    /\ NoDup (JsObject.keys groups).
Proof.
  destruct (scanForGraphQLTags_groups_the_scan
              (world := Sample.shop_world Sample.refusing)
              "./repo_to_analyze/shop" "./repo_to_analyze/shop/src/components/pages"
              Sample.shopTree eq_refl eq_refl)
    as (groups & E & Hnd & _); [discriminate|].
  exists groups. split; assumption.
Defined.

Section MainFacts.
Context {engine : Engine} {world : World}.

Lemma concat_length_lower {A : Type} (ls : list (list A)) :
  Forall (fun l => l <> []) ls -> List.length ls <= List.length (concat ls).
Proof.
  induction 1 as [|l ls Hl _ IH]; [reflexivity|].
  cbn [concat List.length]. rewrite List.length_app.
  destruct l; [contradiction|]. cbn [List.length]. lia.
Qed.

(** The run once the scan has returned [files]. *)
Lemma main_of_scan (filePath : string) (model : option string)
  (t : list Event) (files : list string) :
  let repoPath := ("./repo_to_analyze/" ++ filePath)%string in
  let analyzer := new_OpenRouterAnalyzer OPENROUTER_API_KEY model in
  let groups :=
    groupFilesByPagesFolder cwd files (repoPath ++ "/src/components/pages")%string in
  findGraphQLFiles repoPath = Ok files ->
  main filePath model t
  = (Ok tt,
     (t ++ schedule analyzer groups)
       ++ [WriteFile ("analysis-" ++ dashed (now (t ++ schedule analyzer groups)) ++ ".json")
             (JSON_stringify (itemOutcomes analyzer (fetch_count t) groups))]).
Proof.
  intros repoPath analyzer groups Hscan.
  unfold main. fold repoPath. unfold scanForGraphQLTags. rewrite Hscan.
  cbn [res_bind]. unfold repoPath at 1. cbn [append String.eqb].
  rewrite bind_lift. fold repoPath. fold groups. fold analyzer.
  unfold bind at 1. rewrite analyzeGroupedFiles_eq.
  rewrite (turns_schedule analyzer groups []); [reflexivity|].
  cbn [app]. apply grouped_object.
Qed.

(** The run when the scan throws. *)
Lemma main_of_failed_scan (filePath : string) (model : option string)
  (t : list Event) (err : JsError) :
  findGraphQLFiles ("./repo_to_analyze/" ++ filePath) = Throw err ->
  main filePath model t = (Throw err, t).
Proof.
  intros Hscan. unfold main, scanForGraphQLTags. rewrite Hscan. reflexivity.
Qed.

End MainFacts.

(** X10.  A run whose scan fails stops there: when the repository directory
    cannot be listed, or a directory or a source file below it cannot be
    read, [main] throws the error of the scan, having sent no request and
    written no file. *)
Theorem main_stops_when_scan_fails {engine : Engine} {world : World}
  (filePath : string) (model : option string) (t : list Event) :
  let repoPath := ("./repo_to_analyze/" ++ filePath)%string in
  (forall err, readdir repoPath = Throw err ->
               main filePath model t = (Throw err, t))
  /\ (forall entries,
        readdir repoPath = Ok entries ->
        readable entries = false ->
        exists err, main filePath model t = (Throw err, t)).
Proof.
  intros repoPath. split.
  - intros err Hdir. apply main_of_failed_scan.
    fold repoPath. unfold findGraphQLFiles. now rewrite Hdir.
  - intros entries Hdir Hr.
    destruct (processDirectory_fails entries repoPath [] Hr) as [err E].
    exists err. apply main_of_failed_scan.
    fold repoPath. unfold findGraphQLFiles. rewrite Hdir. exact E.
Qed.

Lemma main_stops_when_scan_fails_witness :
  main (engine := reference_engine)
    (world := Sample.tree_world "./repo_to_analyze/app" Sample.lockedTree
                (Sample.answering Sample.homeReply))
    "missing" None []
  = (Throw (SystemError "ENOENT: no such file or directory, scandir"), [])
  /\ exists err,
       main (engine := reference_engine)
         (world := Sample.tree_world "./repo_to_analyze/app" Sample.lockedTree
                     (Sample.answering Sample.homeReply))
         "app" None []
       = (Throw err, []).
Proof.
  split.
  - exact (proj1 (main_stops_when_scan_fails (engine := reference_engine)
                    (world := Sample.tree_world "./repo_to_analyze/app" Sample.lockedTree
                                (Sample.answering Sample.homeReply))
                    "missing" None []) _ eq_refl).
  - exact (proj2 (main_stops_when_scan_fails (engine := reference_engine)
                    (world := Sample.tree_world "./repo_to_analyze/app" Sample.lockedTree
                                (Sample.answering Sample.homeReply))
                    "app" None []) Sample.lockedTree eq_refl eq_refl).
Defined.

(** X11.  A run over a repository that can be read through always ends
    with its one write, after the requests of its groups in order with the
    delay between neighbours; it sends at most one request per qualifying
    file, at least one when some file qualifies, and none when no file
    qualifies, in which case the file written holds the empty array. *)
Theorem main_run_over_readable_tree {engine : Engine} {world : World}
  (filePath : string) (model : option string) (t : list Event)
  (entries : list Entry) :
  let repoPath := ("./repo_to_analyze/" ++ filePath)%string in
  let analyzer := new_OpenRouterAnalyzer OPENROUTER_API_KEY model in
  readdir repoPath = Ok entries ->
  readable entries = true ->
  exists groups : JsObject.t (list string),
    let t' := t ++ schedule analyzer (JsObject.entries groups) in
    main filePath model t
    = (Ok tt,
       t' ++ [WriteFile ("analysis-" ++ dashed (now t') ++ ".json")
                (JSON_stringify
                   (itemOutcomes analyzer (fetch_count t) (JsObject.entries groups)))])
    /\ fetch_count t' = fetch_count t + List.length (JsObject.entries groups)
    /\ List.length (JsObject.entries groups) <= countFiles qualifies entries
    /\ (countFiles qualifies entries = 0 <-> groups = []).
Proof.
  intros repoPath analyzer Hdir Hread.
  destruct (processDirectory_scan entries repoPath [] Hread) as (files & E & _ & Hlen).
  cbn [app] in E.
  assert (Hscan : findGraphQLFiles repoPath = Ok files)
    by (unfold findGraphQLFiles; now rewrite Hdir).
  set (pagesPath := (repoPath ++ "/src/components/pages")%string).
  exists (groupFilesByPagesFolder cwd files pagesPath).
  destruct (grouped_object cwd pagesPath files) as (_ & _ & Hin & Hperm).
  set (groups := groupFilesByPagesFolder cwd files pagesPath) in *.
  assert (Hle : List.length groups <= List.length files).
  { rewrite <- (Permutation_length Hperm).
    unfold JsObject.values. rewrite <- (length_map snd groups).
    apply concat_length_lower, Forall_forall.
    intros group Hg. apply in_map_iff in Hg as ([k g] & <- & Hg).
    now apply Hin in Hg as [Hne _]. }
  cbv zeta. unfold JsObject.entries. split; [|split; [|split]].
  - now apply main_of_scan.
  - rewrite fetch_count_app. f_equal. unfold fetch_count.
    rewrite schedule_fetches. now rewrite length_map.
  - now rewrite <- Hlen.
  - rewrite <- Hlen. split.
    + intros H0. destruct groups; [reflexivity|cbn [List.length] in Hle; lia].
    + intros H0. rewrite H0 in Hperm. cbn in Hperm.
      apply Permutation_nil in Hperm. now rewrite Hperm.
Qed.

Lemma main_run_over_readable_tree_witness :
  exists groups : JsObject.t (list string),
    List.length (JsObject.entries groups) <= countFiles qualifies Sample.shopTree
    /\ snd (main (engine := reference_engine)
              (world := Sample.shop_world Sample.refusing) "shop" None [])
       = schedule (world := Sample.shop_world Sample.refusing)
           (new_OpenRouterAnalyzer (Some "sk-test") None) (JsObject.entries groups)
           ++ [WriteFile "analysis-2025-01-02T03-04-05-678Z.json"
                 (Reference.stringify
                    (itemOutcomes (world := Sample.shop_world Sample.refusing)
                       (new_OpenRouterAnalyzer (Some "sk-test") None) 0
                       (JsObject.entries groups)))].
Proof.
  destruct (main_run_over_readable_tree (engine := reference_engine)
              (world := Sample.shop_world Sample.refusing) "shop" None []
              Sample.shopTree eq_refl eq_refl)
    as (groups & Hmain & _ & Hle & _).
  exists groups. split; [exact Hle|]. cbv zeta in Hmain. rewrite Hmain. reflexivity.
Defined.

(** ** The name of the output file *)

Section OutputName.

Lemma dashed_length (s : string) : String.length (dashed s) = String.length s.
Proof. induction s as [|c s IH]; cbn; [reflexivity | now rewrite IH]. Qed.

Lemma dashed_char (c : ascii) :
  let d := if Ascii.eqb c ":"%char || Ascii.eqb c "."%char then "-"%char else c in
  d <> ":"%char /\ d <> "."%char
  /\ (c <> ":"%char -> c <> "."%char -> d = c).
Proof.
  cbv zeta. destruct (Ascii.eqb c ":") eqn:E1; cbn [orb].
  - apply Ascii.eqb_eq in E1 as ->. repeat split; try discriminate. now intros [].
  - destruct (Ascii.eqb c ".") eqn:E2.
    + apply Ascii.eqb_eq in E2 as ->. repeat split; try discriminate.
      intros _ []. reflexivity.
    + apply Ascii.eqb_neq in E1, E2. now repeat split.
Qed.

Lemma get_dashed_json (s : string) :
  forall n c,
    String.get n (dashed s ++ ".json") = Some c ->
    c <> ":"%char /\ (c = "."%char -> n = String.length s).
Proof.
  induction s as [|a s IH]; intros n c H.
  - cbn [dashed append] in H.
    do 5 (destruct n as [|n]; [injection H as <-; split; [discriminate | try discriminate; reflexivity]|]).
    discriminate.
  - cbn [dashed append String.get String.length] in *.
    destruct n as [|n].
    + injection H as <-. destruct (dashed_char a) as (H1 & H2 & _).
      split; [exact H1 | intros E; contradiction].
    + destruct (IH n c H) as [H1 H2]. split; [exact H1|].
      intros E. now rewrite (H2 E).
Qed.

Lemma dashed_idempotent (s : string) : dashed (dashed s) = dashed s.
Proof.
  induction s as [|a s IH]; [reflexivity|]. cbn [dashed]. rewrite IH. f_equal.
  destruct (dashed_char a) as (H1 & H2 & _).
  apply Ascii.eqb_neq in H1, H2. now rewrite H1, H2.
Qed.

End OutputName.

(** X12.  The name of the output file is made from the timestamp so that it
    holds no colon and no dot but the one of its [.json] extension, whatever
    text the clock gives: every colon and dot of the timestamp becomes a
    dash, every other character stays where it is, and the name is as long
    as the timestamp and the fourteen characters around it. *)
Theorem output_file_name_is_portable (iso : string) :
  let outputFile := ("analysis-" ++ dashed iso ++ ".json")%string in
  String.length outputFile = 14 + String.length iso
  /\ (forall n, String.get n outputFile <> Some ":"%char)
  /\ (forall n, String.get n outputFile = Some "."%char -> n = 9 + String.length iso)
  /\ (forall n c, String.get n iso = Some c ->
                  String.get (9 + n) outputFile
                  = Some (if Ascii.eqb c ":"%char || Ascii.eqb c "."%char
                          then "-"%char else c))
  /\ dashed (dashed iso) = dashed iso.
Proof.
  cbv zeta. split; [|split; [|split; [|split]]].
  - cbn [append String.length]. rewrite string_length_app, dashed_length.
    cbn [String.length]. lia.
  - intros n H.
    do 9 (destruct n as [|n]; [discriminate|]).
    cbn [append String.get] in H. now apply get_dashed_json in H as [H _].
  - intros n H.
    do 9 (destruct n as [|n]; [discriminate|]).
    cbn [append String.get] in H. apply get_dashed_json in H as [_ H].
    rewrite (H eq_refl). reflexivity.
  - intros n c H. cbn [Nat.add append String.get].
    rewrite <- append_correct1.
    + revert n H. induction iso as [|a s IH]; intros n H; [discriminate|].
      cbn [dashed String.get] in *. destruct n as [|n]; [|now apply IH].
      now injection H as ->.
    + rewrite dashed_length. revert n H.
      induction iso as [|a s IH]; intros n H; [discriminate|].
      cbn [String.get String.length] in *. destruct n as [|n]; [lia|].
      apply IH in H. lia.
  - apply dashed_idempotent.
Qed.

Lemma output_file_name_is_portable_witness :
  33 = 9 + String.length "2025-01-02T03:04:05.678Z".
Proof.
  exact (proj1 (proj2 (proj2 (output_file_name_is_portable "2025-01-02T03:04:05.678Z")))
           33 eq_refl).
Defined.

(** ** The order of the groups *)

(** X13.  The groups are enumerated, and so analysed, in this order: the
    keys that are array indices (a folder named [404], say) first, by
    ascending number, then the other keys in the order their first file
    comes in the input; when no key is an array index the groups come
    exactly in first-encounter order. *)
Theorem groupFilesByPagesFolder_order (cwd : string) (files : list string)
  (pagesPath : string) :
  let groups := groupFilesByPagesFolder cwd files pagesPath in
  let seen := firstOccurrences (map (topLevelFolder cwd pagesPath) files) in
  (exists numbered named,
      JsObject.keys groups = numbered ++ named
      /\ StronglySorted indexBelow numbered
      /\ Permutation numbered (filter (fun k => negb (isName k)) seen)
      /\ named = filter isName seen)
  /\ (forallb isName seen = true -> JsObject.keys groups = seen).
Proof.
  intros groups seen.
  assert (Hnd : NoDup (map fst (fold_left (groupFile cwd pagesPath) files [])))
    by (apply nodup_grouped; constructor).
  assert (Hseen : map fst (fold_left (groupFile cwd pagesPath) files []) = seen).
  { rewrite keys_grouped. cbn [map app existsb negb].
    fold seen. clear. induction seen as [|k l IH]; [reflexivity|].
    cbn [filter]. now rewrite IH. }
  assert (Hnames : filter isName (JsObject.keys groups) = filter isName seen).
  { unfold groups, groupFilesByPagesFolder, JsObject.keys, JsObject.fromEntries.
    rewrite names_fold_define by exact Hnd. cbn [app]. now rewrite Hseen. }
  assert (Hperm : Permutation (JsObject.keys groups) seen).
  { rewrite <- Hseen. unfold groups, groupFilesByPagesFolder, JsObject.keys.
    apply Permutation_map, fromEntries_perm, Hnd. }
  destruct (grouped_object cwd pagesPath files) as (_ & Hord & _).
  fold groups in Hord.
  destruct (ordered_keys groups Hord) as (numbered & named & E & Hs & Hn & Hm).
  assert (Hfn : forall (p : string -> bool) l, Forall (fun k => p k = true) l -> filter p l = l).
  { intros p l H. induction H as [|x l Hx _ IH]; [reflexivity|].
    cbn [filter]. now rewrite Hx, IH. }
  assert (Hfo : forall (p : string -> bool) l, Forall (fun k => p k = false) l -> filter p l = []).
  { intros p l H. induction H as [|x l Hx _ IH]; [reflexivity|].
    cbn [filter]. now rewrite Hx. }
  split.
  - exists numbered, named. unfold JsObject.keys in *.
    split; [exact E|]. split; [exact Hs|]. split.
    + transitivity (filter (fun k => negb (isName k)) (map fst groups)).
      * rewrite E, filter_app.
        rewrite (Hfn (fun k => negb (isName k)) numbered)
          by (eapply Forall_impl; [|exact Hn]; intros k H; cbn; now rewrite H).
        rewrite (Hfo (fun k => negb (isName k)) named)
          by (eapply Forall_impl; [|exact Hm]; intros k H; cbn; now rewrite H).
        now rewrite app_nil_r.
      * clear -Hperm. induction Hperm as [|x l l' _ IH|x y l|l l' l'' _ IH1 _ IH2].
        -- reflexivity.
        -- cbn [filter]. destruct (negb (isName x)); [now constructor | exact IH].
        -- cbn [filter]. destruct (negb (isName x)), (negb (isName y));
             try reflexivity. apply perm_swap.
        -- now transitivity (filter (fun k => negb (isName k)) l').
    + rewrite <- Hnames, E, filter_app, (Hfo isName numbered Hn), (Hfn isName named Hm).
      reflexivity.
  - intros Hall. unfold JsObject.keys in *.
    rewrite forallb_forall in Hall. apply Forall_forall in Hall.
    rewrite <- (Hfn isName seen Hall), <- Hnames.
    symmetry. apply Hfn.
    apply Forall_forall. intros k Hk.
    apply (Permutation_in _ Hperm) in Hk.
    exact (proj1 (Forall_forall _ _) Hall k Hk).
Qed.

Lemma groupFilesByPagesFolder_order_witness :
  JsObject.keys (groupFilesByPagesFolder "/work" Sample.homeFiles "pages")
  = firstOccurrences (map (topLevelFolder "/work" "pages") Sample.homeFiles).
Proof.
  exact (proj2 (groupFilesByPagesFolder_order "/work" Sample.homeFiles "pages") eq_refl).
Defined.

(** ** The run of the page-inventory variant *)

Section PagesRunFacts.
Context {engine : Engine} {world : World}.
Variable self : OpenRouterAnalyzer.

Lemma renderProperty_unprintable (page : JValue) (k : Key) :
  printableProperty page k = false -> exists e, Pages.renderProperty page k = Throw e.
Proof.
  intros H. destruct (Pages.renderProperty page k) as [s|e] eqn:E; [|now exists e].
  assert (printableProperty page k = true)
    by (apply renderProperty_printable; now exists s).
  congruence.
Qed.

(** The success record of a page carries its path. *)
Lemma pages_summarize_page (page : JValue) (cleaned : string) (r : AnalysisResult) :
  Pages.summarize page cleaned = Ok r -> pageOf r = pathOf page.
Proof.
  unfold Pages.summarize, pathOf. intros H.
  destruct (JSON_parse cleaned) as [a|e]; [|discriminate]. cbn [res_bind] in H.
  destruct (Pages.renderProperty page k_path); [|discriminate]. cbn [res_bind] in H.
  destruct (logOperations a k_queries) as [[]|e]; [|discriminate]. cbn [res_bind] in H.
  destruct (logOperations a k_mutations) as [[]|e]; [|discriminate]. cbn [res_bind] in H.
  destruct (get (Json page) k_path); [|discriminate]. cbn [res_bind] in H.
  destruct (get (Json a) k_queries); [|discriminate]. cbn [res_bind] in H.
  destruct (length_of _); [|discriminate]. cbn [res_bind] in H.
  destruct (get (Json a) k_mutations); [|discriminate]. cbn [res_bind] in H.
  destruct (length_of _); [|discriminate]. cbn [res_bind] in H.
  now injection H as <-.
Qed.

Lemma pageOutcome_page (context : string) (n : nat) (page : JValue) :
  pageOf (pageOutcome self context n page) = pathOf page.
Proof.
  unfold pageOutcome.
  destruct (res_bind _ _) as [r|e] eqn:E; [|reflexivity].
  destruct (pageReplyOf _) as [text|?]; [|discriminate]. cbn [res_bind] in E.
  destruct (replaceFences text) as [cleaned|?]; [|discriminate]. cbn [res_bind] in E.
  now apply pages_summarize_page in E.
Qed.

Lemma pageOutcomes_pages (context : string) (n : nat) (pages : list JValue) :
  map pageOf (pageOutcomes self context n pages) = map pathOf pages.
Proof.
  revert n. induction pages as [|page rest IH]; intros n; [reflexivity|].
  cbn [pageOutcomes map]. now rewrite IH, pageOutcome_page.
Qed.

Lemma logPage_presentable (page : JValue) :
  Pages.logPage page = Ok tt <-> presentable page = true.
Proof.
  unfold presentable, Pages.logPage. rewrite !andb_true_iff.
  rewrite !renderProperty_printable.
  destruct (Pages.renderProperty page k_path) as [p|e]; cbn [res_bind].
  - destruct (Pages.renderProperty page k_component) as [c|e]; cbn [res_bind].
    + destruct (Pages.renderProperty page k_description) as [d|e]; cbn [res_bind].
      * split; [intros _; repeat split; eexists; reflexivity | reflexivity].
      * split; [discriminate | intros [_ [s H]]; discriminate].
    + split; [discriminate | intros [[_ [s H]] _]; discriminate].
  - split; [discriminate | intros [[[s H] _] _]; discriminate].
Qed.

Lemma forEachItem_presentable (items : list JValue) :
  forEachItem Pages.logPage items = Ok tt <-> forallb presentable items = true.
Proof.
  induction items as [|x rest IH]; cbn [forEachItem forallb]; [tauto|].
  rewrite andb_true_iff, <- IH, <- logPage_presentable.
  destruct (Pages.logPage x) as [[]|e]; cbn [res_bind]; intuition discriminate.
Qed.

Lemma forEach_pages (pages : JValue) :
  forEach "pages" (Json pages) Pages.logPage = Ok tt
  <-> exists items, pages = JArr items /\ forallb presentable items = true.
Proof.
  destruct pages as [| b | literal | s | items | fields]; cbn [forEach];
    try (split; [discriminate | intros (items & H & _); discriminate]).
  rewrite forEachItem_presentable. split.
  - intros H. now exists items.
  - intros (items' & E & H). now injection E as ->.
Qed.

(** The run of [analyzePages], by what the inventory request settled to. *)
Lemma analyzePages_eq (fileContent : string) (t : list Event) :
  Pages.analyzePages self fileContent t
  = let asked := t ++ [Fetch (inventoryRequest self fileContent)] in
    match inventoryOf self fileContent (fetch_count t) with
    | Throw e => (Throw e, asked)
    | Ok pages =>
        match forEach "pages" (Json pages) Pages.logPage with
        | Throw e => (Throw e, asked)
        | Ok _ =>
            match Pages.iterate pages with
            | Throw e => (Throw e, asked ++ [Delay 60000%N])
            | Ok items =>
                match Pages.analyzeEach self items fileContent 0 items []
                        (asked ++ [Delay 60000%N]) with
                | (Ok analysisResults, t') => (Ok (pages, analysisResults), t')
                | (Throw e, t') => (Throw e, t')
                end
            end
        end
    end.
Proof.
  cbv zeta. unfold Pages.analyzePages, inventoryOf, inventoryRequest, pageReplyOf, try_catch.
  unfold bind at 1. rewrite pages_generateContent_eq.
  destruct (remote _ _) as [e|r]; [reflexivity|].
  destruct (ok r); [|reflexivity].
  destruct (json r) as [data|e]; [|reflexivity].
  cbn [res_bind response_text]. rewrite bind_lift.
  destruct (firstChoiceContent data) as [text|e]; [|reflexivity].
  cbn [res_bind]. rewrite bind_lift.
  destruct (replaceFences text) as [cleaned|e]; [|reflexivity].
  cbn [res_bind]. rewrite bind_lift.
  destruct (JSON_parse cleaned) as [pages|e]; [|reflexivity].
  rewrite bind_lift.
  destruct (forEach "pages" (Json pages) Pages.logPage) as [[]|e]; [|reflexivity].
  unfold bind at 1. unfold delay at 1, emit at 1. rewrite bind_lift.
  destruct (Pages.iterate pages) as [items|e]; [|reflexivity].
  unfold bind at 1.
  destruct (Pages.analyzeEach self items fileContent 0 items [] _) as [[rs|e] t'];
    reflexivity.
Qed.

Lemma fetch_count_pagePause (pages : list JValue) (i : nat) (page : JValue) :
  filter is_fetch (pagePause pages i page) = []
  /\ filter is_write (pagePause pages i page) = []
  /\ List.length (filter is_delay (pagePause pages i page)) <= 1.
Proof. unfold pagePause. destruct (_ <? _)%Z; cbn; repeat split; lia. Qed.

(** The loop over presentable pages, wherever they stand in the array. *)
Lemma pages_analyzeEach_eq (context : string) (pages remaining : list JValue) :
  forall (i : nat) (results : list AnalysisResult) (t : list Event),
    Forall (fun page => presentable page = true) remaining ->
    Pages.analyzeEach self pages context i remaining results t
    = (Ok (results ++ pageOutcomes self context (fetch_count t) remaining),
       t ++ pageTurns self context pages i remaining).
Proof.
  induction remaining as [|page rest IH]; intros i results t Hpres.
  - cbn. now rewrite !app_nil_r.
  - pose proof (Forall_inv Hpres) as Hpage. apply Forall_inv_tail in Hpres.
    apply andb_true_iff in Hpage as [Hpage _].
    apply andb_true_iff in Hpage as [Hpath Hcomp].
    cbn [Pages.analyzeEach pageOutcomes pageTurns]. unfold bind at 1.
    rewrite pages_analyzePageGraphQL_eq by assumption.
    unfold bind at 1. unfold pagePause.
    destruct (_ <? _)%Z.
    + unfold delay, emit. rewrite IH by assumption.
      rewrite !fetch_count_app. cbn [fetch_count filter is_fetch List.length].
      replace (fetch_count t + 1 + 0) with (S (fetch_count t)) by lia.
      cbn [app]. now rewrite <- !app_assoc.
    + unfold ret. rewrite IH by assumption.
      rewrite !fetch_count_app. cbn [fetch_count filter is_fetch List.length].
      replace (fetch_count t + 1) with (S (fetch_count t)) by lia.
      cbn [app]. now rewrite <- !app_assoc.
Qed.

Lemma pageTurns_events (context : string) (pages remaining : list JValue) :
  forall i,
    filter is_fetch (pageTurns self context pages i remaining)
    = map (fun page => Fetch (pageRequest self context page)) remaining
    /\ filter is_write (pageTurns self context pages i remaining) = []
    /\ List.length (filter is_delay (pageTurns self context pages i remaining))
       <= List.length remaining.
Proof.
  induction remaining as [|page rest IH]; intros i; [cbn; repeat split; lia|].
  destruct (IH (S i)) as (Hf & Hw & Hd).
  destruct (fetch_count_pagePause pages i page) as (Pf & Pw & Pd).
  cbn [pageTurns app map List.length].
  cbn [filter is_fetch is_write is_delay].
  rewrite !filter_app, Hf, Hw, Pf, Pw. cbn [app].
  repeat split. rewrite List.length_app. lia.
Qed.

(** Among objects and arrays the turns are on schedule. *)
Lemma pageTurns_schedule (context : string) (remaining : list JValue) :
  forall done,
    Forall (fun page => isReference page = true) (done ++ remaining) ->
    pageTurns self context (done ++ remaining) (List.length done) remaining
    = pageSchedule self context remaining.
Proof.
  induction remaining as [|page rest IH]; intros done Href; [reflexivity|].
  pose proof (proj1 (Forall_app _ _ _) Href) as [Hdone Hrest].
  pose proof (indexOfPage_reference done rest page 0 Hdone (Forall_inv Hrest)) as Hidx.
  cbn [Nat.add] in Hidx.
  cbn [pageTurns]. unfold pagePause. rewrite Hidx.
  rewrite List.length_app. cbn [List.length].
  replace (done ++ page :: rest) with ((done ++ [page]) ++ rest) in *
    by (now rewrite <- app_assoc).
  replace (S (List.length done)) with (List.length (done ++ [page]))
    by (rewrite List.length_app; cbn; lia).
  rewrite IH by exact Href.
  unfold pageSchedule.
  destruct rest as [|next rest].
  - replace (_ <? _)%Z with false by (symmetry; apply Z.ltb_ge; cbn; lia).
    reflexivity.
  - replace (_ <? _)%Z with true by (symmetry; apply Z.ltb_lt; cbn [List.length]; lia).
    reflexivity.
Qed.

End PagesRunFacts.

(** X14.  Unlike the grouped variant, the page analysis of [analyzer.js]
    can raise: a page whose component cannot be rendered as text (the page
    is [null], or the component shadows [toString]) makes it throw before
    any request is sent, and a page whose path cannot be rendered makes it
    throw after its one request, whatever the reply was, since the handler
    renders the path again; every other page gives a record that carries
    its path, after one request. *)
Theorem pages_analyzePageGraphQL_raises {engine : Engine} {world : World}
  (self : OpenRouterAnalyzer) (page : JValue) (context : string) (t : list Event) :
  (printableProperty page k_component = false ->
   exists e, Pages.analyzePageGraphQL self page context t = (Throw e, t))
  /\ (printableProperty page k_component = true ->
      printableProperty page k_path = false ->
      exists e,
        Pages.analyzePageGraphQL self page context t
        = (Throw e, t ++ [Fetch (pageRequest self context page)]))
  /\ (printableProperty page k_component = true ->
      printableProperty page k_path = true ->
      exists record,
        Pages.analyzePageGraphQL self page context t
        = (Ok record, t ++ [Fetch (pageRequest self context page)])
        /\ pageOf record = pathOf page).
Proof.
  split; [|split].
  - intros Hc. destruct (renderProperty_unprintable page k_component Hc) as [e E].
    exists e. unfold Pages.analyzePageGraphQL. now rewrite bind_lift, E.
  - intros Hc Hp.
    pose proof (proj1 (renderProperty_printable page k_component) Hc) as [component Ec].
    destruct (renderProperty_unprintable page k_path Hp) as [e Ep].
    exists e. unfold Pages.analyzePageGraphQL, pageRequest.
    rewrite bind_lift, Ec.
    assert (Hrec : forall e', Pages.recover page e' = Throw e)
      by (intros e'; unfold Pages.recover; now rewrite Ep).
    unfold try_catch, bind at 1. rewrite pages_generateContent_eq.
    destruct (remote _ _) as [e'|r]; [unfold lift; now rewrite Hrec|].
    destruct (ok r); [|unfold lift; now rewrite Hrec].
    destruct (json r) as [data|e']; [|unfold lift; now rewrite Hrec].
    cbn [response_text]. unfold bind, lift.
    destruct (firstChoiceContent data) as [text|e']; [|now rewrite Hrec].
    destruct (replaceFences text) as [cleaned|e']; [|now rewrite Hrec].
    unfold Pages.summarize. rewrite Ep.
    destruct (JSON_parse cleaned); cbn [res_bind]; now rewrite Hrec.
  - intros Hc Hp. exists (pageOutcome self context (fetch_count t) page).
    split; [now apply pages_analyzePageGraphQL_eq | apply pageOutcome_page].
Qed.

Lemma pages_analyzePageGraphQL_raises_witness :
  (exists e,
      Pages.analyzePageGraphQL (engine := reference_engine)
        (world := Sample.quiet_world (Sample.answering Sample.homeReply))
        Sample.analyzer JNull "export default 1" []
      = (Throw e, []))
  /\ (exists e,
         Pages.analyzePageGraphQL (engine := reference_engine)
           (world := Sample.quiet_world (Sample.answering Sample.homeReply))
           Sample.analyzer Sample.shadowedPage "export default 1" []
         = (Throw e,
            [] ++ [Fetch (pageRequest (engine := reference_engine) Sample.analyzer
                            "export default 1" Sample.shadowedPage)])).
Proof.
  split.
  - exact (proj1 (pages_analyzePageGraphQL_raises (engine := reference_engine)
                    (world := Sample.quiet_world (Sample.answering Sample.homeReply))
                    Sample.analyzer JNull "export default 1" []) eq_refl).
  - exact (proj1 (proj2 (pages_analyzePageGraphQL_raises (engine := reference_engine)
                           (world := Sample.quiet_world (Sample.answering Sample.homeReply))
                           Sample.analyzer Sample.shadowedPage "export default 1" []))
             eq_refl eq_refl).
Defined.

(** X15.  [analyzePages] gives up on the first thing that goes wrong with
    the inventory: when the inventory request fails or its reply cannot be
    read as JSON, and when the reply is no array or holds a page whose path,
    component or description cannot be rendered (a [null] page, say), it
    throws after that one request, before any delay and before any page is
    analysed. *)
Theorem analyzePages_rethrows_inventory_failure {engine : Engine} {world : World}
  (self : OpenRouterAnalyzer) (fileContent : string) (t : list Event) :
  let asked := t ++ [Fetch (inventoryRequest self fileContent)] in
  (forall e,
     inventoryOf self fileContent (fetch_count t) = Throw e ->
     Pages.analyzePages self fileContent t = (Throw e, asked))
  /\ (forall pages,
        inventoryOf self fileContent (fetch_count t) = Ok pages ->
        (forall items, pages = JArr items -> forallb presentable items = false) ->
        exists e, Pages.analyzePages self fileContent t = (Throw e, asked)).
Proof.
  cbv zeta. split.
  - intros e H. rewrite analyzePages_eq. cbv zeta. now rewrite H.
  - intros pages H Hbad. rewrite analyzePages_eq. cbv zeta. rewrite H.
    destruct (forEach "pages" (Json pages) Pages.logPage) as [[]|e] eqn:E;
      [|now exists e].
    apply forEach_pages in E as (items & -> & Hall).
    rewrite (Hbad items eq_refl) in Hall. discriminate.
Qed.

Lemma analyzePages_rethrows_inventory_failure_witness :
  Pages.analyzePages (engine := reference_engine)
    (world := Sample.quiet_world Sample.refusing)
    Sample.analyzer "export default 1" []
  = (Throw (ApiError "Too Many Requests"),
     [] ++ [Fetch (inventoryRequest Sample.analyzer "export default 1")])
  /\ exists e,
       Pages.analyzePages (engine := reference_engine)
         (world := Sample.quiet_world (Sample.answering Sample.nullPageReply))
         Sample.analyzer "export default 1" []
       = (Throw e, [] ++ [Fetch (inventoryRequest Sample.analyzer "export default 1")]).
Proof.
  split.
  - exact (proj1 (analyzePages_rethrows_inventory_failure (engine := reference_engine)
                    (world := Sample.quiet_world Sample.refusing)
                    Sample.analyzer "export default 1" []) _ eq_refl).
  - refine (proj2 (analyzePages_rethrows_inventory_failure (engine := reference_engine)
                     (world := Sample.quiet_world (Sample.answering Sample.nullPageReply))
                     Sample.analyzer "export default 1" []) _ eq_refl _).
    intros items E. injection E as <-. reflexivity.
Defined.

(** X16.  When the inventory is an array of pages that can all be
    rendered, [analyzePages] returns the inventory with one record per page,
    in order, each carrying the path of its page, whatever the service
    answers for the pages: after the inventory request and one delay of
    sixty seconds it sends one request per page in order, at most one delay
    per page, and writes nothing; when the pages are objects the requests
    are separated by exactly one delay each, with none after the last. *)
Theorem analyzePages_over_presentable_pages {engine : Engine} {world : World}
  (self : OpenRouterAnalyzer) (fileContent : string) (t : list Event)
  (items : list JValue) :
  inventoryOf self fileContent (fetch_count t) = Ok (JArr items) ->
  forallb presentable items = true ->
  exists (results : list AnalysisResult) (events : list Event),
    Pages.analyzePages self fileContent t
    = (Ok (JArr items, results),
       t ++ [Fetch (inventoryRequest self fileContent); Delay 60000%N] ++ events)
    /\ results = pageOutcomes self fileContent (S (fetch_count t)) items
    /\ map pageOf results = map pathOf items
    /\ filter is_fetch events
       = map (fun page => Fetch (pageRequest self fileContent page)) items
    /\ filter is_write events = []
    /\ List.length (filter is_delay events) <= List.length items
    /\ (forallb isReference items = true ->
        events = pageSchedule self fileContent items).
Proof.
  intros Hinv Hall.
  exists (pageOutcomes self fileContent (S (fetch_count t)) items),
         (pageTurns self fileContent items 0 items).
  destruct (pageTurns_events self fileContent items items 0) as (Hf & Hw & Hd).
  split; [|split; [reflexivity|split; [apply pageOutcomes_pages|
          split; [exact Hf|split; [exact Hw|split; [exact Hd|]]]]]].
  - rewrite analyzePages_eq. cbv zeta. rewrite Hinv.
    assert (E : forEach "pages" (Json (JArr items)) Pages.logPage = Ok tt)
      by (apply forEach_pages; now exists items).
    rewrite E. cbn [Pages.iterate].
    rewrite pages_analyzeEach_eq
      by (apply Forall_forall; now apply forallb_forall).
    rewrite !fetch_count_app. cbn [fetch_count filter is_fetch List.length app].
    replace (fetch_count t + 1 + 0) with (S (fetch_count t)) by lia.
    now rewrite <- !app_assoc.
  - intros Href. apply (pageTurns_schedule self fileContent items []).
    apply Forall_forall. now apply forallb_forall.
Qed.

Lemma analyzePages_over_presentable_pages_witness :
  exists (results : list AnalysisResult) (events : list Event),
    Pages.analyzePages (engine := reference_engine)
      (world := Sample.quiet_world
                  (Sample.answeringFirst Sample.inventoryReply Sample.proseReply))
      Sample.analyzer "export default 1" []
    = (Ok (JArr [JObj [("path", JStr "/"); ("component", JStr "Home.jsx");
                       ("description", JStr "Landing")];
                 JObj [("path", JStr "/cart"); ("component", JStr "Cart.tsx");
                       ("description", JStr "Basket")]],
           results),
       [] ++ [Fetch (inventoryRequest Sample.analyzer "export default 1");
              Delay 60000%N] ++ events)
    /\ map pageOf results = [Json (JStr "/"); Json (JStr "/cart")]
    /\ map isAnalysed results = [false; false].
Proof.
  destruct (analyzePages_over_presentable_pages (engine := reference_engine)
              (world := Sample.quiet_world
                          (Sample.answeringFirst Sample.inventoryReply Sample.proseReply))
              Sample.analyzer "export default 1" []
              [JObj [("path", JStr "/"); ("component", JStr "Home.jsx");
                     ("description", JStr "Landing")];
               JObj [("path", JStr "/cart"); ("component", JStr "Cart.tsx");
                     ("description", JStr "Basket")]]
              eq_refl eq_refl)
    as (results & events & Hrun & Hres & Hpages & _).
  exists results, events. split; [exact Hrun|]. split; [exact Hpages|].
  rewrite Hres. reflexivity.
Defined.

(** ** The command-line entry points *)

Section CliFacts.
Context {engine : Engine} {world : World}.

(** Nothing is written while the pages are analysed. *)
Lemma analyzePages_no_write (self : OpenRouterAnalyzer) (fileContent : string)
  (t : list Event) :
  filter is_write (snd (Pages.analyzePages self fileContent t)) = filter is_write t.
Proof.
  rewrite analyzePages_eq. cbv zeta.
  assert (Hasked : filter is_write (t ++ [Fetch (inventoryRequest self fileContent)])
                   = filter is_write t)
    by (rewrite filter_app; cbn; now rewrite app_nil_r).
  destruct (inventoryOf self fileContent (fetch_count t)) as [pages|e]; [|exact Hasked].
  destruct (forEach "pages" (Json pages) Pages.logPage) as [[]|e] eqn:E; [|exact Hasked].
  apply forEach_pages in E as (items & -> & Hall).
  cbn [Pages.iterate].
  rewrite pages_analyzeEach_eq by (apply Forall_forall; now apply forallb_forall).
  cbn [snd]. rewrite !filter_app.
  destruct (pageTurns_events self fileContent items items 0) as (_ & -> & _).
  cbn. now rewrite !app_nil_r.
Qed.

(** [runAnalysis], by what its steps settle to. *)
Lemma runAnalysis_eq (stringify : JValue * list AnalysisResult -> string)
  (filePath : string) (model : option string) (t : list Event) :
  PagesCli.runAnalysis stringify filePath model t
  = match readFile filePath with
    | Throw _ => (Ok (Exited 1%N), t)
    | Ok fileContent =>
        match Pages.analyzePages
                (Pages.new_OpenRouterAnalyzer OPENROUTER_API_KEY model) fileContent t with
        | (Throw _, t') => (Ok (Exited 1%N), t')
        | (Ok analysis, t') =>
            (Ok Completed,
             t' ++ [WriteFile ("analysis-" ++ dashed (now t') ++ ".json")
                      (stringify analysis)])
        end
    end.
Proof.
  unfold PagesCli.runAnalysis, try_catch. rewrite bind_lift.
  destruct (readFile filePath) as [fileContent|e]; [|reflexivity].
  unfold bind at 1.
  destruct (Pages.analyzePages _ fileContent t) as [[analysis|e] t']; reflexivity.
Qed.

End CliFacts.

(** X17.  [runAnalysis] never throws, and its way out tells what it did:
    it completes exactly when the file was read and the pages were
    analysed, and then it has written the analysis once, as its last
    effect; when the file cannot be read it exits with status 1 before any
    request, and when the analysis throws it exits with status 1 having
    written nothing. *)
Theorem runAnalysis_completes_or_exits {engine : Engine} {world : World}
  (stringify : JValue * list AnalysisResult -> string)
  (filePath : string) (model : option string) (t : list Event) :
  let analyzer := Pages.new_OpenRouterAnalyzer OPENROUTER_API_KEY model in
  exists (ending : Ending) (t' : list Event),
    PagesCli.runAnalysis stringify filePath model t = (Ok ending, t')
    /\ match ending with
       | Completed =>
           exists fileContent analysis t'',
             readFile filePath = Ok fileContent
             /\ Pages.analyzePages analyzer fileContent t = (Ok analysis, t'')
             /\ filter is_write t'' = filter is_write t
             /\ t' = t'' ++ [WriteFile ("analysis-" ++ dashed (now t'') ++ ".json")
                               (stringify analysis)]
       | Exited code =>
           code = 1%N
           /\ filter is_write t' = filter is_write t
           /\ ((exists e, readFile filePath = Throw e /\ t' = t)
               \/ (exists fileContent e,
                      readFile filePath = Ok fileContent
                      /\ Pages.analyzePages analyzer fileContent t = (Throw e, t')))
       end.
Proof.
  intros analyzer. rewrite runAnalysis_eq. fold analyzer.
  destruct (readFile filePath) as [fileContent|e].
  - pose proof (analyzePages_no_write analyzer fileContent t) as Hw.
    destruct (Pages.analyzePages analyzer fileContent t) as [[analysis|e] t''] eqn:Hrun;
      cbn [snd] in Hw.
    + eexists Completed, _. split; [reflexivity|].
      exists fileContent, analysis, t''.
      split; [reflexivity|]. split; [exact Hrun|]. split; [exact Hw | reflexivity].
    + exists (Exited 1%N), t''. split; [reflexivity|].
      split; [reflexivity|]. split; [exact Hw|].
      right. exists fileContent, e. now split.
  - exists (Exited 1%N), t. split; [reflexivity|].
    split; [reflexivity|]. split; [reflexivity|]. left. exists e. now split.
Qed.

(** X18.  The exit status of the two scripts: both exit with status 1,
    doing nothing, when no argument is given.  With an argument the script
    of the page variant exits with status 1 unless it has written its file,
    while the script of the grouped analyzer always runs to its end, the
    error of [main] being only printed: when the scan fails it has then
    done nothing at all, and otherwise its last effect is its one write. *)
Theorem scripts_exit_status {engine : Engine} {world : World}
  (stringify : JValue * list AnalysisResult -> string) (t : list Event) :
  PagesCli.script stringify [] t = (Ok (Exited 1%N), t)
  /\ GroupedCli.script [] t = (Ok (Exited 1%N), t)
  /\ (forall filePath rest,
        exists ending t',
          PagesCli.script stringify (filePath :: rest) t = (Ok ending, t')
          /\ ((ending = Completed
               /\ exists written data,
                    t' = written ++ [WriteFile ("analysis-" ++ dashed (now written) ++ ".json")
                                       data]
                    /\ filter is_write written = filter is_write t)
              \/ (ending = Exited 1%N /\ filter is_write t' = filter is_write t)))
  /\ (forall filePath rest,
        exists t',
          GroupedCli.script (filePath :: rest) t = (Ok Completed, t')
          /\ (forall e,
                findGraphQLFiles ("./repo_to_analyze/" ++ filePath) = Throw e -> t' = t)
          /\ (forall files,
                findGraphQLFiles ("./repo_to_analyze/" ++ filePath) = Ok files ->
                exists sent data,
                  t' = (t ++ sent)
                         ++ [WriteFile ("analysis-" ++ dashed (now (t ++ sent)) ++ ".json") data]
                  /\ filter is_write sent = [])).
Proof.
  split; [reflexivity|]. split; [reflexivity|]. split.
  - intros filePath rest. cbn [PagesCli.script]. rewrite runAnalysis_eq.
    destruct (readFile filePath) as [fileContent|e].
    + pose proof (analyzePages_no_write
                    (Pages.new_OpenRouterAnalyzer OPENROUTER_API_KEY (hd_error rest))
                    fileContent t) as Hw.
      destruct (Pages.analyzePages _ fileContent t) as [[analysis|e] t''];
        cbn [snd fst] in *.
      * eexists Completed, _. split; [reflexivity|]. left.
        split; [reflexivity|]. exists t'', (stringify analysis). now split.
      * exists (Exited 1%N), t''. split; [reflexivity|]. right. now split.
    + exists (Exited 1%N), t. split; [reflexivity|]. right. now split.
  - intros filePath rest. cbn [GroupedCli.script]. unfold try_catch, bind.
    destruct (findGraphQLFiles ("./repo_to_analyze/" ++ filePath)) as [files|e] eqn:Hscan.
    + rewrite (main_of_scan filePath (hd_error rest) t files Hscan).
      eexists. split; [reflexivity|]. split; [discriminate|].
      intros files' _. eexists _, _. split; [reflexivity|].
      set (groups := groupFilesByPagesFolder _ _ _).
      destruct (grouped_object cwd
                  (("./repo_to_analyze/" ++ filePath) ++ "/src/components/pages")%string
                  files) as (Hnd & _).
      rewrite <- (turns_schedule _ groups [] Hnd). apply turns_no_write.
    + rewrite (main_of_failed_scan filePath (hd_error rest) t e Hscan).
      exists t. split; [reflexivity|]. split; [reflexivity|discriminate].
Qed.

Lemma scripts_exit_status_witness :
  exists t',
    GroupedCli.script (engine := reference_engine)
      (world := Sample.tree_world "./repo_to_analyze/app" Sample.lockedTree
                  (Sample.answering Sample.homeReply))
      ["app"] []
    = (Ok Completed, t')
    /\ t' = [].
Proof.
  destruct (proj2 (proj2 (proj2
              (scripts_exit_status (engine := reference_engine)
                 (world := Sample.tree_world "./repo_to_analyze/app" Sample.lockedTree
                             (Sample.answering Sample.homeReply))
                 (fun _ => EmptyString) []))) "app" [])
    as (t' & Hrun & Hfail & _).
  exists t'. split; [exact Hrun|].
  apply (Hfail (SystemError "EACCES: permission denied, scandir")). reflexivity.
Defined.

(** ** What the answers of the service can change *)

Section Isolation.
Context {engine : Engine}.
Variables w1 w2 : World.
Variable self : OpenRouterAnalyzer.

Hypothesis same_files :
  forall file, readFile (World := w1) file = readFile (World := w2) file.

Lemma fileContents_same (files : list string) :
  fileContents (world := w1) files = fileContents (world := w2) files.
Proof.
  induction files as [|file rest IH]; [reflexivity|].
  cbn [fileContents]. rewrite same_files, IH. reflexivity.
Qed.

Lemma groupRequest_same (group : string * list string) :
  groupRequest (world := w1) self group = groupRequest (world := w2) self group.
Proof.
  unfold groupRequest, graphqlPrompt, getFilesContent.
  now rewrite fileContents_same.
Qed.

Lemma turns_same (g : JsObject.t (list string)) (remaining : list (string * list string)) :
  flat_map (turn (world := w1) self g) remaining
  = flat_map (turn (world := w2) self g) remaining.
Proof.
  induction remaining as [|group rest IH]; [reflexivity|].
  cbn [flat_map]. unfold turn at 1 3. now rewrite groupRequest_same, IH.
Qed.

Lemma itemOutcomes_agree (m : nat) (groups : list (string * list string)) :
  (forall n request,
     n <> m -> remote (World := w1) n request = remote (World := w2) n request) ->
  forall n i,
    n + i <> m ->
    nth_error (itemOutcomes (world := w1) self n groups) i
    = nth_error (itemOutcomes (world := w2) self n groups) i.
Proof.
  intros Hsame. induction groups as [|group rest IH]; intros n i Hi; [reflexivity|].
  cbn [itemOutcomes]. destruct i as [|i]; cbn [nth_error].
  - unfold itemOutcome. rewrite groupRequest_same, Hsame by lia. reflexivity.
  - apply IH. lia.
Qed.

End Isolation.

(** X19.  The requests of the loop do not depend on what the service
    answers, and an answer only reaches the record of its own group: when
    two runs read the same files and the service answers alike except to
    one request, they send the same requests with the same delays and
    return the same records except, at most, for the group of that
    request. *)
Theorem analyzeGroupedFiles_isolates_replies {engine : Engine} (w1 w2 : World)
  (self : OpenRouterAnalyzer) (groupedFiles : JsObject.t (list string))
  (t : list Event) (k : nat) :
  (forall file, readFile (World := w1) file = readFile (World := w2) file) ->
  (forall n request,
     n <> fetch_count t + k ->
     remote (World := w1) n request = remote (World := w2) n request) ->
  exists (results1 results2 : list AnalysisResult) (t' : list Event),
    analyzeGroupedFiles (world := w1) self groupedFiles t = (Ok results1, t')
    /\ analyzeGroupedFiles (world := w2) self groupedFiles t = (Ok results2, t')
    /\ List.length results1 = List.length results2
    /\ forall i, i <> k -> nth_error results1 i = nth_error results2 i.
Proof.
  intros Hfiles Hremote.
  exists (itemOutcomes (world := w1) self (fetch_count t) groupedFiles),
         (itemOutcomes (world := w2) self (fetch_count t) groupedFiles),
         (t ++ flat_map (turn (world := w1) self groupedFiles) groupedFiles).
  split; [apply analyzeGroupedFiles_eq|].
  split; [rewrite analyzeGroupedFiles_eq, (turns_same w1 w2 self Hfiles); reflexivity|].
  split; [now rewrite !itemOutcomes_length|].
  intros i Hi. apply (itemOutcomes_agree w1 w2 self Hfiles (fetch_count t + k)).
  - exact Hremote.
  - lia.
Qed.

Lemma analyzeGroupedFiles_isolates_replies_witness :
  exists (results1 results2 : list AnalysisResult) (t' : list Event),
    analyzeGroupedFiles (engine := reference_engine)
      (world := Sample.quiet_world (Sample.answering Sample.homeReply))
      Sample.analyzer Sample.threeGroups [] = (Ok results1, t')
    /\ analyzeGroupedFiles (engine := reference_engine)
         (world := Sample.quiet_world
                     (Sample.answeringFirst Sample.proseReply Sample.homeReply))
         Sample.analyzer Sample.threeGroups [] = (Ok results2, t')
    /\ nth_error results1 1 = nth_error results2 1
    /\ nth_error results1 2 = nth_error results2 2.
Proof.
  destruct (analyzeGroupedFiles_isolates_replies (engine := reference_engine)
              (Sample.quiet_world (Sample.answering Sample.homeReply))
              (Sample.quiet_world
                 (Sample.answeringFirst Sample.proseReply Sample.homeReply))
              Sample.analyzer Sample.threeGroups [] 0)
    as (results1 & results2 & t' & H1 & H2 & _ & Hsame).
  - reflexivity.
  - intros n request Hn. destruct n as [|n]; [cbn in Hn; lia | reflexivity].
  - exists results1, results2, t'.
    split; [exact H1|]. split; [exact H2|].
    split; apply Hsame; discriminate.
Defined.

(** ** What every request carries *)

Section RequestFacts.
Context {engine : Engine} {world : World}.

Lemma Forall_intersperse {A : Type} (P : A -> Prop) (sep : A) (xs : list A) :
  P sep -> Forall P xs -> Forall P (intersperse sep xs).
Proof.
  intros Hsep. induction 1 as [|x [|y xs] Hx Hxs IH]; cbn [intersperse].
  - constructor.
  - now repeat constructor.
  - constructor; [exact Hx|]. constructor; [exact Hsep | exact IH].
Qed.

Lemma schedule_carries (self : OpenRouterAnalyzer)
  (groups : list (string * list string)) :
  requestsCarry (apiKey self) (model self) "0" (schedule self groups).
Proof.
  unfold requestsCarry, schedule. apply Forall_intersperse; [exact I|].
  apply Forall_map, Forall_forall. intros group _. now repeat split.
Qed.

Lemma pageTurns_carry (self : OpenRouterAnalyzer) (context : string)
  (pages remaining : list JValue) :
  forall i,
    requestsCarry (apiKey self) (model self) "0.1"
      (pageTurns self context pages i remaining).
Proof.
  unfold requestsCarry.
  induction remaining as [|page rest IH]; intros i; [constructor|].
  cbn [pageTurns app]. constructor; [now repeat split|].
  apply Forall_app. split; [|apply IH].
  unfold pagePause. destruct (_ <? _)%Z; now repeat constructor.
Qed.

(** What [analyzePages] adds to the trace, and what its requests carry. *)
Lemma analyzePages_trace (self : OpenRouterAnalyzer) (fileContent : string)
  (t : list Event) :
  exists sent,
    snd (Pages.analyzePages self fileContent t) = t ++ sent
    /\ requestsCarry (apiKey self) (model self) "0.1" sent.
Proof.
  rewrite analyzePages_eq. cbv zeta.
  assert (Hone : requestsCarry (apiKey self) (model self) "0.1"
                   [Fetch (inventoryRequest self fileContent)])
    by (repeat constructor).
  destruct (inventoryOf self fileContent (fetch_count t)) as [pages|e];
    [|eexists; split; [reflexivity | exact Hone]].
  destruct (forEach "pages" (Json pages) Pages.logPage) as [[]|e] eqn:E;
    [|eexists; split; [reflexivity | exact Hone]].
  apply forEach_pages in E as (items & -> & Hall).
  cbn [Pages.iterate].
  rewrite pages_analyzeEach_eq by (apply Forall_forall; now apply forallb_forall).
  cbn [snd]. rewrite <- !app_assoc.
  eexists. split; [reflexivity|].
  unfold requestsCarry. apply Forall_app. split; [exact Hone|].
  apply Forall_app. split; [now repeat constructor | apply pageTurns_carry].
Qed.

End RequestFacts.

(** X20.  The model named on the command line and the key of the
    environment reach every request of a run: each request a script sends
    carries the second argument as its model, or the default of its variant
    when there is none, the bearer made of the key, [Bearer undefined] when
    the environment has none, and the fixed temperature of the variant. *)
Theorem scripts_requests_carry_model_and_key {engine : Engine} {world : World}
  (stringify : JValue * list AnalysisResult -> string)
  (filePath : string) (rest : list string) (t : list Event) :
  (exists sent,
      snd (GroupedCli.script (filePath :: rest) t) = t ++ sent
      /\ requestsCarry OPENROUTER_API_KEY
           match rest with
           | m :: _ => m
           | [] => "google/gemini-2.0-flash-thinking-exp:free"
           end "0" sent)
  /\ (exists sent,
         snd (PagesCli.script stringify (filePath :: rest) t) = t ++ sent
         /\ requestsCarry OPENROUTER_API_KEY
              match rest with
              | m :: _ => m
              | [] => "anthropic/claude-3-opus"
              end "0.1" sent).
Proof.
  split.
  - cbn [GroupedCli.script]. unfold try_catch, bind.
    destruct (findGraphQLFiles ("./repo_to_analyze/" ++ filePath)) as [files|e] eqn:Hscan.
    + rewrite (main_of_scan filePath (hd_error rest) t files Hscan).
      cbn [snd]. rewrite <- app_assoc. eexists. split; [reflexivity|].
      unfold requestsCarry. apply Forall_app. split; [|now repeat constructor].
      set (analyzer := new_OpenRouterAnalyzer OPENROUTER_API_KEY (hd_error rest)).
      replace (match rest with m :: _ => m | [] => _ end) with (model analyzer)
        by (now destruct rest).
      apply (schedule_carries analyzer).
    + rewrite (main_of_failed_scan filePath (hd_error rest) t e Hscan).
      exists []. split; [now rewrite app_nil_r | constructor].
  - cbn [PagesCli.script]. rewrite runAnalysis_eq.
    destruct (readFile filePath) as [fileContent|e];
      [|exists []; split; [now rewrite app_nil_r | constructor]].
    set (analyzer := Pages.new_OpenRouterAnalyzer OPENROUTER_API_KEY (hd_error rest)).
    replace (match rest with m :: _ => m | [] => _ end) with (model analyzer)
      by (now destruct rest).
    destruct (analyzePages_trace analyzer fileContent t) as (sent & Hsent & Hcarry).
    destruct (Pages.analyzePages analyzer fileContent t) as [[analysis|e] t'];
      cbn [snd] in *; subst t'.
    + exists (sent ++ [WriteFile ("analysis-" ++ dashed (now (t ++ sent)) ++ ".json")
                         (stringify analysis)]).
      split; [now rewrite app_assoc|].
      unfold requestsCarry. apply Forall_app. split; [exact Hcarry | now repeat constructor].
    + exists sent. now split.
Qed.
